(** * The LG template parser of MSLG ([LGObject.toLG])

    A shallow embedding of [lib/classes/LGObject.js]: the chunk loop of
    [LGObject.toLG], the line loop of a template chunk, and the helper
    [removeTemplateLinkReferences], followed by the properties the
    specification states about them.  Further on, [LGObject.fromJSON]
    with the constructor of the class, and [translateFile] of
    [lib/utils/translate.js], with properties read off the code.

    JavaScript strings are modelled as [string] (sequences of 8-bit
    characters); white space and line terminators are the ASCII ones.
    A thrown value is carried by the [Throws] constructor of [Completion]. *)

From Stdlib Require Import String Ascii List Bool Arith ZArith Lia.
Import ListNotations.
Local Open Scope list_scope.
Local Open Scope string_scope.

(** ** JavaScript string primitives used by the parser *)

Module JS.

Definition LF : ascii := ascii_of_nat 10.
Definition CR : ascii := ascii_of_nat 13.
Definition dquote : string := String (ascii_of_nat 34) EmptyString.

(** White space removed by [String.prototype.trim] (ASCII part:
    TAB, LF, VT, FF, CR and SPACE). *)
Definition isWhiteSpace (c : ascii) : bool :=
  let n := nat_of_ascii c in
  (Nat.leb 9 n && Nat.leb n 13) || Nat.eqb n 32.

(** Characters the regular-expression atom [.] does not match. *)
Definition isLineTerminator (c : ascii) : bool :=
  Ascii.eqb c LF || Ascii.eqb c CR.

Fixpoint trimStart (s : string) : string :=
  match s with
  | EmptyString => EmptyString
  | String c s' => if isWhiteSpace c then trimStart s' else s
  end.

Fixpoint trimEnd (s : string) : string :=
  match s with
  | EmptyString => EmptyString
  | String c s' =>
      match trimEnd s' with
      | EmptyString => if isWhiteSpace c then EmptyString else String c EmptyString
      | r => String c r
      end
  end.

(** [s.trim()] *)
Definition trim (s : string) : string := trimEnd (trimStart s).

(** [s.startsWith(pat)], that is [s.indexOf(pat) === 0]. *)
Fixpoint startsWith (pat s : string) : bool :=
  match pat with
  | EmptyString => true
  | String a pat' =>
      match s with
      | EmptyString => false
      | String b s' => Ascii.eqb a b && startsWith pat' s'
      end
  end.

Fixpoint indexOfFrom (pat s : string) (i : nat) : option nat :=
  if startsWith pat s then Some i
  else match s with
       | EmptyString => None
       | String _ s' => indexOfFrom pat s' (S i)
       end.

(** [s.indexOf(pat)], [-1] when [pat] does not occur. *)
Definition indexOf (pat s : string) : Z :=
  match indexOfFrom pat s 0 with
  | Some i => Z.of_nat i
  | None => (-1)%Z
  end.

Fixpoint drop (n : nat) (s : string) : string :=
  match n with
  | O => s
  | S k => match s with
           | EmptyString => EmptyString
           | String _ s' => drop k s'
           end
  end.

(** [s.substring(i)] and [s.slice(i)] for an index [i >= 0]. *)
Definition substringFrom (i : Z) (s : string) : string := drop (Z.to_nat i) s.
Definition slice (i : Z) (s : string) : string := drop (Z.to_nat i) s.

(** [s.replace(pat, rep)] for a string pattern: the first occurrence
    only.  The replacement text is taken literally (no [$] patterns). *)
Fixpoint replace (pat rep s : string) : string :=
  if startsWith pat s then rep ++ drop (String.length pat) s
  else match s with
       | EmptyString => EmptyString
       | String c s' => String c (replace pat rep s')
       end.

(** Prepend a character to the first piece of a split. *)
Definition consHead (c : ascii) (parts : list string) : list string :=
  match parts with
  | [] => [String c EmptyString]
  | p :: ps => String c p :: ps
  end.

(** [s.split(/\r\n|\r|\n/g)] *)
Fixpoint splitLines (s : string) : list string :=
  match s with
  | EmptyString => [EmptyString]
  | String c s' =>
      if Ascii.eqb c CR then
        match s' with
        | String d s'' =>
            if Ascii.eqb d LF then EmptyString :: splitLines s''
            else EmptyString :: splitLines s'
        | EmptyString => EmptyString :: splitLines s'
        end
      else if Ascii.eqb c LF then EmptyString :: splitLines s'
      else consHead c (splitLines s')
  end.

(** [s.split(sep)] for a one-character separator. *)
Fixpoint split (sep : ascii) (s : string) : list string :=
  match s with
  | EmptyString => [EmptyString]
  | String c s' =>
      if Ascii.eqb c sep then EmptyString :: split sep s'
      else consHead c (split sep s')
  end.

(** The tail [(.*?)\)] of the two regular expressions, matched at the
    start of [s]: the shortest run of non-terminator characters that
    is followed by a closing parenthesis.  Returns the run. *)
Fixpoint lazyUntilParen (s : string) : option string :=
  match s with
  | EmptyString => None
  | String c s' =>
      if Ascii.eqb c ")" then Some EmptyString
      else if isLineTerminator c then None
      else match lazyUntilParen s' with
           | Some cap => Some (String c cap)
           | None => None
           end
  end.

(** [/\]\((.*?)\)/] matched at the start of [s]: the captured group. *)
Definition linkRefAt (s : string) : option string :=
  match s with
  | String a (String b s'') =>
      if Ascii.eqb a "]" && Ascii.eqb b "(" then lazyUntilParen s'' else None
  | _ => None
  end.

(** [s.split(/\]\((.*?)\)/g)]: the pieces between the matches with the
    captured group of every match spliced in between.  [skip] counts
    the characters of the current match that are still to be consumed. *)
Fixpoint splitLinkRefs (skip : nat) (s : string) : list string :=
  match s with
  | EmptyString => [EmptyString]
  | String c s' =>
      match skip with
      | S k => splitLinkRefs k s'
      | O =>
          match linkRefAt s with
          | Some cap => EmptyString :: cap :: splitLinkRefs (String.length cap + 2) s'
          | None => consHead c (splitLinkRefs 0 s')
          end
      end
  end.

(** [s.match(/\(.*?\)/g)[0]]: the first match, [None] when [match]
    returns [null]. *)
Fixpoint firstParenMatch (s : string) : option string :=
  match s with
  | EmptyString => None
  | String c s' =>
      if Ascii.eqb c "(" then
        match lazyUntilParen s' with
        | Some cap => Some ("(" ++ cap ++ ")")
        | None => firstParenMatch s'
        end
      else firstParenMatch s'
  end.

(** [xs.includes(x)] on an array of strings. *)
Definition includes (xs : list string) (x : string) : bool :=
  existsb (String.eqb x) xs.

End JS.

(** ** Thrown values and completions *)

(** Modelled from the spec: the enumeration [enums/errorCodes], with the
    five codes the parser throws and one code for each validator. *)
Inductive ErrCode : Type :=
| NO_LIST_DECORATION_ON_VARIATION
| INVALID_TEMPLATE
| INVALID_LG_FILE_REF
| INVALID_ENTITY_DEFINITION
| INVALID_INPUT
| INVALID_CONDITION
| INVALID_VARIATION.

(** What a [throw] carries: an object literal [{errCode, text}], an
    instance of [Exception] built from a code and a text, or the
    [TypeError] the engine raises on a property access of [null]. *)
Inductive Thrown : Type :=
| ThrownObject (errCode : ErrCode) (text : string)
| ThrownException (errCode : ErrCode) (text : string)
| ThrownTypeError.

(** The code and text of a structured error, when the thrown value is one. *)
Definition structured (e : Thrown) : option (ErrCode * string) :=
  match e with
  | ThrownObject c t | ThrownException c t => Some (c, t)
  | ThrownTypeError => None
  end.

Inductive Completion (A : Type) : Type :=
| Returns (a : A)
| Throws (e : Thrown).
Arguments Returns {A} a.
Arguments Throws {A} e.

Definition bind {A B : Type} (c : Completion A) (k : A -> Completion B) : Completion B :=
  match c with
  | Returns a => k a
  | Throws e => Throws e
  end.

Notation "x <- c ;; k" := (bind c (fun x => k))
  (at level 61, c at next level, right associativity).
Notation "c ;;; k" := (bind c (fun _ => k))
  (at level 61, right associativity).

(** ** Data model *)

(** Modelled from the spec: the class [LGConditionalResponse] (its file is
    not part of the sources at hand): a branch with its normalized
    condition text and its own variations, created without variations. *)
Module LGConditionalResponse.
Record t : Type := mk { condition : string; variations : list string }.
Definition new (condition : string) : t := mk condition [].
Definition pushVariation (v : string) (b : t) : t :=
  mk (condition b) (variations b ++ [v])%list.
End LGConditionalResponse.

(** Modelled from the spec: the class [LGTemplate]: a name, flat
    variations and conditional responses; [new LGTemplate(name, null,
    null)] has neither. *)
Module LGTemplate.
Record t : Type := mk {
  name : string;
  variations : list string;
  conditionalResponses : list LGConditionalResponse.t
}.
Definition new (name : string) : t := mk name [] [].
Definition pushVariation (v : string) (tpl : t) : t :=
  mk (name tpl) (variations tpl ++ [v])%list (conditionalResponses tpl).
Definition pushConditionalResponse (b : LGConditionalResponse.t) (tpl : t) : t :=
  mk (name tpl) (variations tpl) (conditionalResponses tpl ++ [b])%list.
Definition setConditionalResponses (bs : list LGConditionalResponse.t) (tpl : t) : t :=
  mk (name tpl) (variations tpl) bs.
End LGTemplate.

(** Modelled from the spec: the class [LGEntity]: a name, a type of the
    enumeration of entity types and key/value attributes.  The value of an
    attribute is [None] where the source reads past the end of the token
    array. *)
Module LGEntity.
Record t (EntityType : Type) : Type := mk {
  name : string;
  entityType : EntityType;
  attributes : list (string * option string)
}.
Arguments mk {EntityType} _ _ _.
Arguments name {EntityType} _.
Arguments entityType {EntityType} _.
Arguments attributes {EntityType} _.
Definition setEntityType {EntityType} (ty : EntityType) (e : t EntityType) :
  t EntityType := mk (name e) ty (attributes e).
End LGEntity.

(** The object [toLG] fills: templates and entities. *)
Module LGObject.
Record t (EntityType : Type) : Type := mk {
  LGTemplates : list LGTemplate.t;
  entities : list (LGEntity.t EntityType)
}.
Arguments mk {EntityType} _ _.
Arguments LGTemplates {EntityType} _.
Arguments entities {EntityType} _.
End LGObject.

(** Modelled from the spec: the class [LGParsedObj], the result of a
    parse: the [LGObject], absent in a fresh instance, and the files the
    caller has to parse as well, none in a fresh instance. *)
Module LGParsedObj.
Record t (EntityType : Type) : Type := mk {
  LGObject : option (LGObject.t EntityType);
  additionalFilesToParse : list string
}.
Arguments mk {EntityType} _ _.
Arguments LGObject {EntityType} _.
Arguments additionalFilesToParse {EntityType} _.
Definition new {EntityType : Type} : t EntityType := mk None [].
End LGParsedObj.

(** The constants of [enums/parserconsts] read by the parser. *)
Record ParserConsts : Type := {
  INTENT : string;
  FILEREF : string;
  ENTITY : string;
  CONDITION : string;
  DEFAULT : string;
  ELSE : string
}.

(** The functions of [utils/validation] called by the parser.  A validator
    either returns or throws. *)
Record Validators : Type := {
  validateCondition : string -> bool -> Completion unit;
  validateVariationItem : string -> Completion bool
}.

(** The collaborators of [LGObject.js] whose files are not at hand: the
    marker constants, the validators, the entity scanner
    [helpers.parseEntity] (the list [entities] of its result), the name
    validation run by the constructor of [LGTemplate], and the two ways
    [LGEntity] obtains an entity type: from the optional constructor
    argument and through [LGEntity.getEntityType]. *)
Record Collaborators : Type := {
  parserConsts : ParserConsts;
  validators : Validators;
  parseEntity : string -> list string;
  validateTemplateName : string -> Completion unit;
  EntityType : Type;
  entityTypeOfArgument : option string -> EntityType;
  getEntityType : string -> Completion EntityType
}.

(** Argument of [toLG]: any JavaScript value; the elements of an array
    are the chunks. *)
Inductive JSValue : Type :=
| JSUndefined
| JSNull
| JSBoolean (b : bool)
| JSNumber (n : Z)
| JSString (s : string)
| JSObject
| JSArray (chunks : list string).

(** [!v] *)
Definition falsy (v : JSValue) : bool :=
  match v with
  | JSUndefined | JSNull => true
  | JSBoolean b => negb b
  | JSNumber n => Z.eqb n 0
  | JSString s => String.eqb s ""
  | JSObject | JSArray _ => false
  end.

(** [v instanceof Array] *)
Definition instanceofArray (v : JSValue) : bool :=
  match v with
  | JSArray _ => true
  | _ => false
  end.

(** ** [removeTemplateLinkReferences] *)

(** The loop [for (i = 0; i < parts.length - 1; i += 2) retItem +=
    parts[i] + ']']: it takes the piece at every even index that is not
    the last index. *)
Fixpoint joinLabels (parts : list string) : string :=
  match parts with
  | p :: _ :: rest => p ++ "]" ++ joinLabels rest
  | _ => ""
  end.

Definition removeTemplateLinkReferences (item : string) : string :=
  let itemsSplitByTemplateRef := JS.splitLinkRefs 0 item in
  if Nat.eqb (List.length itemsSplitByTemplateRef) 1 then item
  else joinLabels itemsSplitByTemplateRef.

(** The stripping as the specification words it: every match of
    [\]\((.*?)\)] becomes []], the text before, between and after the
    matches is kept. *)
Fixpoint joinAround (parts : list string) : string :=
  match parts with
  | [] => ""
  | [p] => p
  | p :: _ :: rest => p ++ "]" ++ joinAround rest
  end.

Definition collapseLinkReferences (item : string) : string :=
  joinAround (JS.splitLinkRefs 0 item).

(** ** The parser *)

Section Parser.

Variable env : Collaborators.

Definition Entity : Type := LGEntity.t (EntityType env).

(** [new LGEntity(name)] and [new LGEntity(name, type, attributes)] *)
Definition newLGEntity (name : string) (ty : option string)
           (attributes : list (string * option string)) : Entity :=
  LGEntity.mk name (entityTypeOfArgument env ty) attributes.

(** [new LGTemplate(templateName, null, null)] *)
Definition newLGTemplate (templateName : string) : Completion LGTemplate.t :=
  validateTemplateName env templateName ;;;
  Returns (LGTemplate.new templateName).

(** *** State of the chunk loop

    [LGTemplates] holds references: a template object can be reached
    from several entries and from the variable [cLGTemplate].  Template
    objects live in [heap], a reference is an index into it, allocation
    appends.  Entities are never shared and are kept by value. *)
Record ParserState : Type := {
  heap : list LGTemplate.t;
  LGTemplates : list nat;
  entities : list Entity;
  additionalFilesToParse : list string
}.

Definition deref (h : list LGTemplate.t) (r : nat) : LGTemplate.t :=
  nth r h (LGTemplate.new "").

Fixpoint store (h : list LGTemplate.t) (r : nat) (tpl : LGTemplate.t) :
  list LGTemplate.t :=
  match h, r with
  | [], _ => []
  | _ :: h', O => tpl :: h'
  | x :: h', S r' => x :: store h' r' tpl
  end.

(** *** State of the line loop of one template chunk

    [conditionalResponseItem] is [null], an element of
    [cLGTemplate.conditionalResponses] (known by its index) or an object
    that is not yet in that array.  The line loop reads and writes no
    template but [cLGTemplate]; the state carries the content of that
    object, which the chunk loop writes back into the heap.  An element
    of the array is never pushed a second time ([processLines_Ready],
    [flushItem_blocks]), so the array shares no object. *)
Inductive ItemRef : Type :=
| ItemNull
| ItemAt (index : nat)
| ItemNew (item : LGConditionalResponse.t).

Record BodyState : Type := {
  cLGTemplate : LGTemplate.t;
  bodyEntities : list Entity;
  pushAtEnd : bool;
  inConditionalResponses : bool;
  conditionalResponseItem : ItemRef
}.

(** [entities.forEach(item => { if (... .filter(eItem => eItem.name ===
    item).length === 0) ... .push(new LGEntity(item)) })] *)
Definition hasEntity (name : string) (es : list Entity) : bool :=
  existsb (fun eItem => String.eqb (LGEntity.name eItem) name) es.

Fixpoint addEntities (found : list string) (es : list Entity) : list Entity :=
  match found with
  | [] => es
  | item :: rest =>
      addEntities rest
        (if hasEntity item es then es else (es ++ [newLGEntity item None []])%list)
  end.

(** The test of lines 92-94 negated: the line starts with a list marker. *)
Definition hasListDecoration (item : string) : bool :=
  negb (negb (Z.eqb (JS.indexOf "-" item) 0) &&
        negb (Z.eqb (JS.indexOf "*" item) 0) &&
        negb (Z.eqb (JS.indexOf "+" item) 0)).

Definition noListDecorationText (item : string) : string :=
  "Template item: " ++ JS.dquote ++ item ++ JS.dquote ++
  " does not have list decoration. Prefix line with " ++
  JS.dquote ++ "-" ++ JS.dquote ++ " or " ++
  JS.dquote ++ "+" ++ JS.dquote ++ " or " ++
  JS.dquote ++ "*" ++ JS.dquote.

(** [if (inConditionalResponses && pushAtEnd)
      cLGTemplate.conditionalResponses.push(conditionalResponseItem)] *)
Definition flushItem (bs : BodyState) : Completion LGTemplate.t :=
  if inConditionalResponses bs && pushAtEnd bs then
    match conditionalResponseItem bs with
    | ItemNew item => Returns (LGTemplate.pushConditionalResponse item (cLGTemplate bs))
    | ItemAt i =>
        match nth_error (LGTemplate.conditionalResponses (cLGTemplate bs)) i with
        | Some item => Returns (LGTemplate.pushConditionalResponse item (cLGTemplate bs))
        | None => Throws ThrownTypeError
        end
    | ItemNull => Throws ThrownTypeError
    end
  else Returns (cLGTemplate bs).

(** Index of the first element of [filter(item => item.condition ==
    condition)], if there is one. *)
Fixpoint findCondition (condition : string) (bs : list LGConditionalResponse.t) :
  option nat :=
  match bs with
  | [] => None
  | b :: rest =>
      if String.eqb (LGConditionalResponse.condition b) condition then Some 0
      else option_map S (findCondition condition rest)
  end.

(** Lines 108-125 and 132-149: reuse the block with this condition or
    validate the condition and create a block. *)
Definition selectItem (tpl : LGTemplate.t) (es : list Entity)
           (condition : string) (isCondition : bool) : Completion BodyState :=
  let fresh :=
    validateCondition (validators env) condition isCondition ;;;
    Returns {| cLGTemplate := tpl; bodyEntities := es; pushAtEnd := true;
               inConditionalResponses := true;
               conditionalResponseItem :=
                 ItemNew (LGConditionalResponse.new condition) |} in
  if Nat.ltb 0 (List.length (LGTemplate.conditionalResponses tpl)) then
    match findCondition condition (LGTemplate.conditionalResponses tpl) with
    | Some i =>
        Returns {| cLGTemplate := tpl; bodyEntities := es; pushAtEnd := false;
                   inConditionalResponses := true;
                   conditionalResponseItem := ItemAt i |}
    | None => fresh
    end
  else fresh.

(** [arr[i].variations.push(v)] *)
Fixpoint pushVariationAt (i : nat) (v : string) (bs : list LGConditionalResponse.t) :
  list LGConditionalResponse.t :=
  match bs, i with
  | [], _ => []
  | b :: rest, O => LGConditionalResponse.pushVariation v b :: rest
  | b :: rest, S j => b :: pushVariationAt j v rest
  end.

(** Lines 151-159: a plain variation line. *)
Definition addVariation (bs : BodyState) (es : list Entity) (item : string) :
  Completion BodyState :=
  let tpl := cLGTemplate bs in
  if inConditionalResponses bs then
    match conditionalResponseItem bs with
    | ItemNull => valid <- validateVariationItem (validators env) item ;;
                  if valid then Throws ThrownTypeError
                  else Returns {| cLGTemplate := tpl; bodyEntities := es;
                                  pushAtEnd := pushAtEnd bs;
                                  inConditionalResponses := true;
                                  conditionalResponseItem := ItemNull |}
    | ItemAt i =>
        match nth_error (LGTemplate.conditionalResponses tpl) i with
        | None => valid <- validateVariationItem (validators env) item ;;
                  if valid then Throws ThrownTypeError
                  else Returns {| cLGTemplate := tpl; bodyEntities := es;
                                  pushAtEnd := pushAtEnd bs;
                                  inConditionalResponses := true;
                                  conditionalResponseItem := ItemAt i |}
        | Some b =>
            valid <- validateVariationItem (validators env) item ;;
            Returns {| cLGTemplate :=
                         if valid && negb (JS.includes (LGConditionalResponse.variations b) item)
                         then LGTemplate.setConditionalResponses
                                (pushVariationAt i item (LGTemplate.conditionalResponses tpl)) tpl
                         else tpl;
                       bodyEntities := es;
                       pushAtEnd := pushAtEnd bs;
                       inConditionalResponses := true;
                       conditionalResponseItem := ItemAt i |}
        end
    | ItemNew b =>
        valid <- validateVariationItem (validators env) item ;;
        Returns {| cLGTemplate := tpl; bodyEntities := es;
                   pushAtEnd := pushAtEnd bs;
                   inConditionalResponses := true;
                   conditionalResponseItem :=
                     ItemNew (if valid && negb (JS.includes (LGConditionalResponse.variations b) item)
                              then LGConditionalResponse.pushVariation item b else b) |}
    end
  else
    valid <- validateVariationItem (validators env) item ;;
    Returns {| cLGTemplate :=
                 if valid && negb (JS.includes (LGTemplate.variations tpl) item)
                 then LGTemplate.pushVariation item tpl else tpl;
               bodyEntities := es;
               pushAtEnd := pushAtEnd bs;
               inConditionalResponses := false;
               conditionalResponseItem := conditionalResponseItem bs |}.

(** The body of [chunkSplitByLine.forEach(function(item) {...})],
    lines 80-161. *)
Definition processLine (bs : BodyState) (line : string) : Completion BodyState :=
  let item := removeTemplateLinkReferences line in
  let es := addEntities (parseEntity env item) (bodyEntities bs) in
  if negb (hasListDecoration item) then
    Throws (ThrownObject NO_LIST_DECORATION_ON_VARIATION (noListDecorationText item))
  else
    let item := JS.trim (JS.slice 1 item) in
    if Z.eqb (JS.indexOf (CONDITION (parserConsts env)) (JS.trim item)) 0 then
      tpl <- flushItem bs ;;
      let condition := JS.trim (JS.replace (CONDITION (parserConsts env)) "" item) in
      selectItem tpl es condition true
    else if Z.eqb (JS.indexOf (DEFAULT (parserConsts env)) (JS.trim item)) 0 then
      tpl <- flushItem bs ;;
      let condition :=
        JS.trim (JS.replace (DEFAULT (parserConsts env)) (ELSE (parserConsts env)) item) in
      selectItem tpl es condition false
    else addVariation bs es item.

Fixpoint processLines (bs : BodyState) (lines : list string) : Completion BodyState :=
  match lines with
  | [] => Returns bs
  | line :: rest => bs' <- processLine bs line ;; processLines bs' rest
  end.

(** *** Vocabulary for the lines of a template chunk *)

(** The first character of the text is one of the three list markers. *)
Definition isListMarker (c : ascii) : bool :=
  Ascii.eqb "-" c || Ascii.eqb "*" c || Ascii.eqb "+" c.

Definition firstIsMarker (item : string) : bool :=
  match item with
  | EmptyString => false
  | String c _ => isListMarker c
  end.

(** What a decorated line carries: [item.slice(1).trim()], computed on
    the line without its link references. *)
Definition payload (line : string) : string :=
  JS.trim (JS.slice 1 (removeTemplateLinkReferences line)).

Definition startsCondition (line : string) : bool :=
  Z.eqb (JS.indexOf (CONDITION (parserConsts env)) (JS.trim (payload line))) 0.

Definition startsDefault (line : string) : bool :=
  Z.eqb (JS.indexOf (DEFAULT (parserConsts env)) (JS.trim (payload line))) 0.

(** A decorated line taken by the first branch of the line loop. *)
Definition isConditionLine (line : string) : bool :=
  hasListDecoration line && startsCondition line.

(** A decorated line taken by the last branch of the line loop. *)
Definition isVariationLine (line : string) : bool :=
  hasListDecoration line && negb (startsCondition line) && negb (startsDefault line).

(** The normalized condition text of a condition line. *)
Definition conditionOf (line : string) : string :=
  JS.trim (JS.replace (CONDITION (parserConsts env)) "" (payload line)).

(** The validator lets the variation of this line through. *)
Definition accepted (line : string) : bool :=
  match validateVariationItem (validators env) (payload line) with
  | Returns true => true
  | _ => false
  end.

(** The validator returns on the variation of this line. *)
Definition variationChecked (line : string) : Prop :=
  exists valid, validateVariationItem (validators env) (payload line) = Returns valid.

(** The variations a run of variation lines contributes. *)
Definition acceptedPayloads (lines : list string) : list string :=
  map payload (filter accepted lines).

(** Strings added one after the other to an array that is searched with
    [includes] first: a concatenation with duplicates suppressed. *)
Fixpoint pushNew (acc : list string) (vs : list string) : list string :=
  match vs with
  | [] => acc
  | v :: rest => pushNew (if JS.includes acc v then acc else (acc ++ [v])%list) rest
  end.

(** A condition line followed by its variation lines. *)
Definition BodySection : Type := (string * list string)%type.

Definition linesOf (sections : list BodySection) : list string :=
  flat_map (fun s => fst s :: snd s) sections.

(** The variations given under condition text [c] by all sections. *)
Definition variationsUnder (c : string) (sections : list BodySection) : list string :=
  flat_map (fun s => if String.eqb (conditionOf (fst s)) c
                     then acceptedPayloads (snd s) else []) sections.

(** The entities known after the lines of a body have been scanned. *)
Definition entitiesAfter (lines : list string) (es : list Entity) : list Entity :=
  fold_left (fun es line =>
               addEntities (parseEntity env (removeTemplateLinkReferences line)) es)
            lines es.

(** *** The line loop seen from the list of conditional responses

    The conditional responses of [cLGTemplate] together with the one that
    is still to be pushed, the position in that list of the one the
    variation lines are added to, and the states in which the loop is
    inside a conditional response. *)
Definition blocksOf (bs : BodyState) : list LGConditionalResponse.t :=
  match conditionalResponseItem bs with
  | ItemNew b => (LGTemplate.conditionalResponses (cLGTemplate bs) ++ [b])%list
  | _ => LGTemplate.conditionalResponses (cLGTemplate bs)
  end.

Definition currentIndex (bs : BodyState) : nat :=
  match conditionalResponseItem bs with
  | ItemAt i => i
  | _ => List.length (LGTemplate.conditionalResponses (cLGTemplate bs))
  end.

Definition InSection (bs : BodyState) : Prop :=
  inConditionalResponses bs = true /\
  match conditionalResponseItem bs with
  | ItemAt i =>
      pushAtEnd bs = false /\
      i < List.length (LGTemplate.conditionalResponses (cLGTemplate bs))
  | ItemNew _ => pushAtEnd bs = true
  | ItemNull => False
  end.

(** The states between two lines of a body: before the first condition
    line, or inside a conditional response. *)
Definition Ready (bs : BodyState) : Prop :=
  (inConditionalResponses bs = false /\ conditionalResponseItem bs = ItemNull) \/
  InSection bs.

(** A condition line that passes the validator, followed by variation
    lines on which the validator returns. *)
Definition wellFormedSection (s : BodySection) : Prop :=
  isConditionLine (fst s) = true /\
  validateCondition (validators env) (conditionOf (fst s)) true = Returns tt /\
  Forall (fun l => isVariationLine l = true /\ variationChecked l) (snd s).

(** The block at position [i] receives the variations [vs]. *)
Fixpoint extendAt (i : nat) (vs : list string) (blocks : list LGConditionalResponse.t) :
  list LGConditionalResponse.t :=
  match blocks, i with
  | [], _ => []
  | b :: rest, O =>
      LGConditionalResponse.mk (LGConditionalResponse.condition b)
                               (pushNew (LGConditionalResponse.variations b) vs) :: rest
  | b :: rest, S j => b :: extendAt j vs rest
  end.

(** A condition with its variations meets a list of blocks: the first
    block with that condition receives them, or a block is added. *)
Definition mergeSection (blocks : list LGConditionalResponse.t)
           (c : string) (vs : list string) : list LGConditionalResponse.t :=
  match findCondition c blocks with
  | Some i => extendAt i vs blocks
  | None => (blocks ++ [LGConditionalResponse.mk c (pushNew [] vs)])%list
  end.

Definition mergeSections (sections : list BodySection)
           (blocks : list LGConditionalResponse.t) : list LGConditionalResponse.t :=
  fold_left (fun bl s => mergeSection bl (conditionOf (fst s)) (acceptedPayloads (snd s)))
            sections blocks.

(** The variations of the first block with condition [c]. *)
Fixpoint varsOf (c : string) (blocks : list LGConditionalResponse.t) : list string :=
  match blocks with
  | [] => []
  | b :: rest =>
      if String.eqb (LGConditionalResponse.condition b) c
      then LGConditionalResponse.variations b
      else varsOf c rest
  end.

(** The name a template chunk declares: the text after the first space
    of its first line, the whole line when it has no space. *)
Definition templateNameOf (chunk : string) : string :=
  let line0 := nth 0 (JS.splitLines (JS.trim chunk)) "" in
  JS.substringFrom (JS.indexOf " " line0 + 1) line0.

Definition bodyOf (chunk : string) : list string :=
  tl (JS.splitLines (JS.trim chunk)).

Definition isTemplateChunk (chunk : string) : bool :=
  Z.eqb (JS.indexOf (INTENT (parserConsts env)) (JS.trim chunk)) 0.

(** *** The chunk loop *)

(** [LGTemplates.filter(item => item.name === templateName)[0]] *)
Definition findTemplate (h : list LGTemplate.t) (templateName : string)
           (refs : list nat) : option nat :=
  find (fun r => String.eqb (LGTemplate.name (deref h r)) templateName) refs.

(** Allocation of the object [new LGTemplate(templateName, null, null)]. *)
Definition allocTemplate (h : list LGTemplate.t) (templateName : string) :
  Completion (list LGTemplate.t * nat) :=
  tpl <- newLGTemplate templateName ;;
  Returns ((h ++ [tpl])%list, List.length h).

Definition invalidTemplateText (name : string) : string :=
  "Template " ++ JS.dquote ++ name ++ JS.dquote ++
  " does not have any variations or conditional response definition".

(** Lines 56-77: the template the chunk writes to, as a heap, the
    reference [cLGTemplate] and the flag [pushAtEnd]. *)
Definition selectTemplate (st : ParserState) (templateName : string) :
  Completion (list LGTemplate.t * nat * bool) :=
  sel <- (if Nat.ltb 0 (List.length (LGTemplates st)) then
            match findTemplate (heap st) templateName (LGTemplates st) with
            | Some r => Returns (heap st, Some r, false)
            | None =>
                a <- allocTemplate (heap st) templateName ;;
                Returns (fst a, Some (snd a), true)
            end
          else Returns (heap st, None, true)) ;;
  let '(h, c, flag) := sel in
  match c with
  | Some r =>
      if String.eqb (LGTemplate.name (deref h r)) ""
      then a <- allocTemplate h templateName ;; Returns (a, flag)
      else Returns (h, r, flag)
  | None => a <- allocTemplate h templateName ;; Returns (a, flag)
  end.

(** The state in which the line loop starts: line 57 and line 79. *)
Definition startOfBody (st : ParserState) (sel : list LGTemplate.t * nat * bool) :
  BodyState :=
  let '(h, r, flag) := sel in
  {| cLGTemplate := deref h r;
     bodyEntities := entities st;
     pushAtEnd := flag;
     inConditionalResponses := false;
     conditionalResponseItem := ItemNull |}.

(** Lines 55-168: a chunk that starts with [parserConsts.INTENT]. *)
Definition templateChunk (st : ParserState) (chunkSplitByLine : list string) :
  Completion ParserState :=
  let line0 := nth 0 chunkSplitByLine "" in
  let templateName := JS.substringFrom (JS.indexOf " " line0 + 1) line0 in
  let body := tl chunkSplitByLine in
  sel <- selectTemplate st templateName ;;
  let '(h, r, flag) := sel in
  bs <- processLines (startOfBody st sel) body ;;
  tpl <- flushItem bs ;;
  let refs := if negb (String.eqb (LGTemplate.name tpl) "") && pushAtEnd bs
              then (LGTemplates st ++ [r])%list else LGTemplates st in
  if Nat.eqb (List.length (LGTemplate.variations tpl)) 0 &&
     Nat.eqb (List.length (LGTemplate.conditionalResponses tpl)) 0
  then Throws (ThrownException INVALID_TEMPLATE (invalidTemplateText (LGTemplate.name tpl)))
  else Returns {| heap := store h r tpl;
                  LGTemplates := refs;
                  entities := bodyEntities bs;
                  additionalFilesToParse := additionalFilesToParse st |}.

(** Lines 169-176: a chunk that starts with [parserConsts.FILEREF]. *)
Definition fileRefChunk (st : ParserState) (chunkSplitByLine : list string) :
  Completion ParserState :=
  let line0 := nth 0 chunkSplitByLine "" in
  match JS.firstParenMatch (JS.trim line0) with
  | None => Throws ThrownTypeError
  | Some first =>
      let linkValue := JS.replace ")" "" (JS.replace "(" "" first) in
      if String.eqb linkValue "" then
        Throws (ThrownException INVALID_LG_FILE_REF
                  ("[ERROR]: " ++ "Invalid LU File Ref: " ++ line0))
      else Returns {| heap := heap st;
                      LGTemplates := LGTemplates st;
                      entities := entities st;
                      additionalFilesToParse :=
                        (additionalFilesToParse st ++ [linkValue])%list |}
  end.

(** [for (i = 1; i < tokens.length; i += 3) push({key: tokens[i],
    value: tokens[i+2]})], on the tokens from index 1 on. *)
Fixpoint attributesFrom (tokens : list string) : list (string * option string) :=
  match tokens with
  | [] => []
  | key :: rest =>
      (key, nth_error rest 1) ::
      match rest with
      | _ :: _ :: rest' => attributesFrom rest'
      | _ => []
      end
  end.

(** [entities.filter(item => item.name === entityName)[0].entityType = ty] *)
Fixpoint setFirstEntityType (entityName : string) (ty : EntityType env)
         (es : list Entity) : list Entity :=
  match es with
  | [] => []
  | e :: rest =>
      if String.eqb (LGEntity.name e) entityName
      then LGEntity.setEntityType ty e :: rest
      else e :: setFirstEntityType entityName ty rest
  end.

Definition invalidEntityText (line0 : string) : string :=
  "Invalid entity definition for " ++ JS.dquote ++ line0 ++ JS.dquote.

(** Lines 177-197: a chunk that starts with [parserConsts.ENTITY]. *)
Definition entityChunk (st : ParserState) (chunkSplitByLine : list string) :
  Completion ParserState :=
  let line0 := nth 0 chunkSplitByLine "" in
  let entityDef := JS.split ":" (JS.replace (ENTITY (parserConsts env)) "" line0) in
  if negb (Nat.eqb (List.length entityDef) 2) then
    Throws (ThrownException INVALID_ENTITY_DEFINITION (invalidEntityText line0))
  else
    let entityName := JS.trim (nth 0 entityDef "") in
    let entityTypeAndAttributes := JS.split " " (JS.trim (nth 1 entityDef "")) in
    let entityType := JS.trim (nth 0 entityTypeAndAttributes "") in
    let entityAttributes :=
      if negb (Nat.eqb (List.length entityTypeAndAttributes) 1)
      then attributesFrom (tl entityTypeAndAttributes) else [] in
    let newEntity := newLGEntity entityName (Some entityType) entityAttributes in
    if hasEntity entityName (entities st) then
      ty <- getEntityType env entityType ;;
      Returns {| heap := heap st;
                 LGTemplates := LGTemplates st;
                 entities := setFirstEntityType entityName ty (entities st);
                 additionalFilesToParse := additionalFilesToParse st |}
    else
      Returns {| heap := heap st;
                 LGTemplates := LGTemplates st;
                 entities := (entities st ++ [newEntity])%list;
                 additionalFilesToParse := additionalFilesToParse st |}.

Definition invalidInputText (chunk : string) : string :=
  "Unidentified template definition. Template definition must start with # <Template Name> :: "
  ++ String JS.LF chunk.

(** The body of [parsedFileContent.forEach(function(chunk) {...})]. *)
Definition processChunk (st : ParserState) (chunk : string) : Completion ParserState :=
  let chunk := JS.trim chunk in
  let chunkSplitByLine := JS.splitLines chunk in
  if Z.eqb (JS.indexOf (INTENT (parserConsts env)) chunk) 0 then
    templateChunk st chunkSplitByLine
  else if Z.eqb (JS.indexOf (FILEREF (parserConsts env)) chunk) 0 then
    fileRefChunk st chunkSplitByLine
  else if Z.eqb (JS.indexOf (ENTITY (parserConsts env)) chunk) 0 then
    entityChunk st chunkSplitByLine
  else Throws (ThrownException INVALID_INPUT (invalidInputText chunk)).

Fixpoint forEachChunk (st : ParserState) (chunks : list string) : Completion ParserState :=
  match chunks with
  | [] => Returns st
  | chunk :: rest => st' <- processChunk st chunk ;; forEachChunk st' rest
  end.

(** The pieces of an entity definition, as the chunk loop reads them. *)
Definition entityDefOf (chunk : string) : list string :=
  JS.split ":" (JS.replace (ENTITY (parserConsts env)) ""
                           (nth 0 (JS.splitLines (JS.trim chunk)) "")).

Definition entityNameOf (chunk : string) : string :=
  JS.trim (nth 0 (entityDefOf chunk) "").

Definition entityTypeOf (chunk : string) : string :=
  JS.trim (nth 0 (JS.split " " (JS.trim (nth 1 (entityDefOf chunk) ""))) "").

Definition entityAttributesOf (chunk : string) : list (string * option string) :=
  let entityTypeAndAttributes := JS.split " " (JS.trim (nth 1 (entityDefOf chunk) "")) in
  if negb (Nat.eqb (List.length entityTypeAndAttributes) 1)
  then attributesFrom (tl entityTypeAndAttributes) else [].

(** A chunk taken by the third branch of the chunk loop. *)
Definition isEntityChunk (chunk : string) : bool :=
  negb (isTemplateChunk chunk) &&
  negb (Z.eqb (JS.indexOf (FILEREF (parserConsts env)) (JS.trim chunk)) 0) &&
  Z.eqb (JS.indexOf (ENTITY (parserConsts env)) (JS.trim chunk)) 0.

(** An entity chunk of the shape [name : type ...] that defines the
    entity [n] with the type text [ty]. *)
Definition entityDefinition (chunk n ty : string) : Prop :=
  isEntityChunk chunk = true /\
  List.length (entityDefOf chunk) = 2 /\
  entityNameOf chunk = n /\
  entityTypeOf chunk = ty.

(** The entities of a state that have the name [n]. *)
Definition entitiesNamed (n : string) (es : list Entity) : list Entity :=
  filter (fun e => String.eqb (LGEntity.name e) n) es.

(** Every entry of [LGTemplates] refers to an object of the heap. *)
Definition wfState (st : ParserState) : Prop :=
  Forall (fun r => r < List.length (heap st)) (LGTemplates st).

(** A template chunk named [n] whose body lines are all variation lines
    on which the validator returns. *)
Definition flatChunk (n : string) (chunk : string) : Prop :=
  isTemplateChunk chunk = true /\
  templateNameOf chunk = n /\
  Forall (fun l => isVariationLine l = true /\ variationChecked l) (bodyOf chunk).

(** A chunk that is no template chunk named [n]. *)
Definition otherChunk (n : string) (chunk : string) : Prop :=
  isTemplateChunk chunk = true -> templateNameOf chunk <> n.

(** The entries of [LGTemplates] whose object is named [n]. *)
Definition namedRefs (n : string) (st : ParserState) : list nat :=
  filter (fun r => String.eqb (LGTemplate.name (deref (heap st) r)) n) (LGTemplates st).

(** [retParserObj.LGObject = new LGObject()], no file to parse yet. *)
Definition initialState : ParserState :=
  {| heap := []; LGTemplates := []; entities := []; additionalFilesToParse := [] |}.

(** What the caller reads from [retParserObj] after the loop: every
    entry of [LGTemplates] with the content of the object it refers to. *)
Definition templatesOf (st : ParserState) : list LGTemplate.t :=
  map (deref (heap st)) (LGTemplates st).

Definition parsedObjOf (st : ParserState) : LGParsedObj.t (EntityType env) :=
  LGParsedObj.mk (Some (LGObject.mk (templatesOf st) (entities st)))
                 (additionalFilesToParse st).

(** [LGObject.toLG] *)
Definition toLG (parsedFileContent : JSValue) : Completion (LGParsedObj.t (EntityType env)) :=
  let retParserObj := LGParsedObj.new in
  if falsy parsedFileContent then Returns retParserObj
  else if negb (instanceofArray parsedFileContent) then Returns retParserObj
  else match parsedFileContent with
       | JSArray chunks =>
           if Nat.eqb (List.length chunks) 0 then Returns retParserObj
           else st <- forEachChunk initialState chunks ;; Returns (parsedObjOf st)
       | _ => Returns retParserObj
       end.

End Parser.

Arguments heap {env} _.
Arguments LGTemplates {env} _.
Arguments entities {env} _.
Arguments additionalFilesToParse {env} _.
Arguments cLGTemplate {env} _.
Arguments bodyEntities {env} _.
Arguments pushAtEnd {env} _.
Arguments inConditionalResponses {env} _.
Arguments conditionalResponseItem {env} _.
Arguments initialState {env}.
Arguments templatesOf {env} _.
Arguments namedRefs {env} _ _.
Arguments wfState {env} _.
Arguments parsedObjOf {env} _.

(** ** A concrete instance of the collaborators *)

Module Sample.

(** Modelled from the spec: the markers of [enums/parserconsts] as the
    table of grammar markers gives them. *)
Definition markers : ParserConsts :=
  {| INTENT := "#"; FILEREF := "["; ENTITY := "$";
     CONDITION := "IF:"; DEFAULT := "ELSE:"; ELSE := "ELSE" |}.

Fixpoint braceDepth (depth : nat) (s : string) : option nat :=
  match s with
  | EmptyString => Some depth
  | String c s' =>
      if Ascii.eqb c "{" then braceDepth (S depth) s'
      else if Ascii.eqb c "}" then
             match depth with
             | O => None
             | S d => braceDepth d s'
             end
      else braceDepth depth s'
  end.

(** Modelled from the spec: [validateCondition] wants an expression on a
    condition line and none on the else line; [validateVariationItem]
    answers [false] on a text that is empty after trimming and throws
    on unbalanced interpolation delimiters. *)
Definition checks : Validators :=
  {| validateCondition := fun text requiresExpression =>
       if requiresExpression then
         if String.eqb (JS.trim text) ""
         then Throws (ThrownException INVALID_CONDITION text)
         else Returns tt
       else
         if String.eqb text (ELSE markers) then Returns tt
         else Throws (ThrownException INVALID_CONDITION text);
     validateVariationItem := fun text =>
       match braceDepth 0 text with
       | Some O => Returns (negb (String.eqb (JS.trim text) ""))
       | _ => Throws (ThrownException INVALID_VARIATION text)
       end |}.

(** Modelled from the spec: [helpers.parseEntity], the names written
    between braces in a line. *)
Fixpoint parseEntityAux (inside : option string) (s : string) : list string :=
  match s with
  | EmptyString => []
  | String c s' =>
      match inside with
      | None => if Ascii.eqb c "{" then parseEntityAux (Some "") s'
                else parseEntityAux None s'
      | Some acc =>
          if Ascii.eqb c "}" then acc :: parseEntityAux None s'
          else parseEntityAux (Some (acc ++ String c "")) s'
      end
  end.
Definition scanEntities (s : string) : list string := parseEntityAux None s.

(** Modelled from the spec: template names are not validated further,
    an entity type is the text of its declaration, the type of an
    entity found in a line is the empty text. *)
Definition env : Collaborators :=
  {| parserConsts := markers;
     validators := checks;
     parseEntity := scanEntities;
     validateTemplateName := fun _ => Returns tt;
     EntityType := string;
     entityTypeOfArgument := fun ty => match ty with Some t => t | None => "" end;
     getEntityType := fun ty => Returns ty |}.

(** A line feed between two lines of a chunk. *)
Definition nl : string := String JS.LF "".

End Sample.

(** ** Further vocabulary: what a parse returns *)

(** Number of occurrences of a character in a text. *)
Fixpoint countChar (c : ascii) (s : string) : nat :=
  match s with
  | EmptyString => 0
  | String d s' => (if Ascii.eqb d c then 1 else 0) + countChar c s'
  end.

(** No character of the text is a line terminator. *)
Fixpoint onOneLine (s : string) : bool :=
  match s with
  | EmptyString => true
  | String c s' => negb (JS.isLineTerminator c) && onOneLine s'
  end.

Section Vocabulary.

Variable env : Collaborators.

(** A chunk taken by the second branch of the chunk loop. *)
Definition isFileRefChunk (chunk : string) : bool :=
  negb (isTemplateChunk env chunk) &&
  Z.eqb (JS.indexOf (FILEREF (parserConsts env)) (JS.trim chunk)) 0.

(** The link value line 172 computes, the empty text when [match]
    finds nothing. *)
Definition linkValueOf (chunk : string) : string :=
  match JS.firstParenMatch (JS.trim (nth 0 (JS.splitLines (JS.trim chunk)) "")) with
  | Some first => JS.replace ")" "" (JS.replace "(" "" first)
  | None => ""
  end.

(** A decorated line taken by the first or the second branch of the line
    loop: a condition line or a default line. *)
Definition isBranchLine (line : string) : bool :=
  hasListDecoration line && (startsCondition env line || startsDefault env line).

(** What holds of every template a parse returns. *)
Definition namedAndFilled (tpl : LGTemplate.t) : Prop :=
  LGTemplate.name tpl <> "" /\
  (LGTemplate.variations tpl <> [] \/ LGTemplate.conditionalResponses tpl <> []).

Definition withoutDuplicates (tpl : LGTemplate.t) : Prop :=
  NoDup (LGTemplate.variations tpl) /\
  NoDup (map LGConditionalResponse.condition (LGTemplate.conditionalResponses tpl)) /\
  Forall (fun b => NoDup (LGConditionalResponse.variations b))
         (LGTemplate.conditionalResponses tpl).

(** The same of the line loop: the list of blocks counts the block that
    is still to be pushed. *)
Definition bodyWithoutDuplicates (bs : BodyState env) : Prop :=
  NoDup (LGTemplate.variations (cLGTemplate bs)) /\
  NoDup (map LGConditionalResponse.condition (blocksOf env bs)) /\
  Forall (fun b => NoDup (LGConditionalResponse.variations b)) (blocksOf env bs).

End Vocabulary.

Section Thrown.

Variable env : Collaborators.

(** A decorated line taken by the second branch of the line loop, and
    the condition text it gives. *)
Definition isDefaultLine (line : string) : bool :=
  hasListDecoration line && negb (startsCondition env line) && startsDefault env line.

Definition defaultOf (line : string) : string :=
  JS.trim (JS.replace (DEFAULT (parserConsts env)) (ELSE (parserConsts env))
                      (payload line)).

(** The thrown values of a body line: the object of lines 95-98, or what
    a validator throws on the text the line gives it. *)
Definition lineError (line : string) (e : Thrown) : Prop :=
  (hasListDecoration line = false /\
   e = ThrownObject NO_LIST_DECORATION_ON_VARIATION
         (noListDecorationText (removeTemplateLinkReferences line))) \/
  (isConditionLine env line = true /\
   validateCondition (validators env) (conditionOf env line) true = Throws e) \/
  (isDefaultLine line = true /\
   validateCondition (validators env) (defaultOf line) false = Throws e) \/
  (isVariationLine env line = true /\
   validateVariationItem (validators env) (payload line) = Throws e).

(** The thrown values of a template chunk: what the constructor of
    [LGTemplate] throws on its name, what one of its body lines throws,
    or the exception of line 167. *)
Definition templateChunkError (chunk : string) (e : Thrown) : Prop :=
  validateTemplateName env (templateNameOf chunk) = Throws e \/
  (exists line, In line (bodyOf chunk) /\ lineError line e) \/
  e = ThrownException INVALID_TEMPLATE (invalidTemplateText (templateNameOf chunk)).

(** The thrown values of a chunk, by the branch of the chunk loop that
    takes the chunk. *)
Definition chunkError (chunk : string) (e : Thrown) : Prop :=
  let line0 := nth 0 (JS.splitLines (JS.trim chunk)) "" in
  if isTemplateChunk env chunk then templateChunkError chunk e
  else if isFileRefChunk env chunk then
    (JS.firstParenMatch (JS.trim line0) = None /\ e = ThrownTypeError) \/
    (linkValueOf chunk = "" /\
     e = ThrownException INVALID_LG_FILE_REF
           ("[ERROR]: " ++ "Invalid LU File Ref: " ++ line0))
  else if isEntityChunk env chunk then
    (List.length (entityDefOf env chunk) <> 2 /\
     e = ThrownException INVALID_ENTITY_DEFINITION (invalidEntityText line0)) \/
    getEntityType env (entityTypeOf env chunk) = Throws e
  else e = ThrownException INVALID_INPUT (invalidInputText (JS.trim chunk)).

End Thrown.

(** ** [LGObject.fromJSON] and the constructor of [LGObject]

    [fromJSON] takes any value.  Values are modelled as JSON data with
    [undefined]; numbers are integers, which the code only tests for
    being zero; an object is the list of its own properties in insertion
    order, with no key twice. *)

Module Json.

Unset Elimination Schemes.
Inductive t : Type :=
| Undefined
| Null
| Boolean (b : bool)
| Number (n : Z)
| Str (s : string)
| Array (items : list t)
| Object (fields : list (string * t)).
Set Elimination Schemes.

(** [!!v] *)
Definition truthy (v : t) : bool :=
  match v with
  | Undefined | Null => false
  | Boolean b => b
  | Number n => negb (Z.eqb n 0)
  | Str s => negb (String.eqb s "")
  | Array _ | Object _ => true
  end.

(** [v || undefined] *)
Definition orUndefined (v : t) : t := if truthy v then v else Undefined.

(** [o.key] on the properties of an object: [undefined] when there is no
    such property. *)
Fixpoint get (key : string) (fields : list (string * t)) : t :=
  match fields with
  | [] => Undefined
  | (k, v) :: rest => if String.eqb k key then v else get key rest
  end.

(** [o.key = v]: the property is overwritten in place, a new property
    comes last. *)
Fixpoint set (key : string) (v : t) (fields : list (string * t)) : list (string * t) :=
  match fields with
  | [] => [(key, v)]
  | (k, w) :: rest =>
      if String.eqb k key then (k, v) :: rest else (k, w) :: set key v rest
  end.

End Json.

(** An instance of the class: its two properties hold whatever values the
    constructor has been given. *)
Module LGObjectInstance.
Record t : Type := mk { LGTemplates : Json.t; entities : Json.t }.
End LGObjectInstance.

(** Lines 25-28: a parameter that is [undefined] takes its default [[]];
    a parameter that is falsy is replaced by [[]]. *)
Definition newLGObject (LGTemplates entities : Json.t) : LGObjectInstance.t :=
  let withDefault (v : Json.t) :=
    match v with
    | Json.Undefined => Json.Array []
    | _ => v
    end in
  let LGTemplates := withDefault LGTemplates in
  let entities := withDefault entities in
  LGObjectInstance.mk
    (if Json.truthy LGTemplates then LGTemplates else Json.Array [])
    (if Json.truthy entities then entities else Json.Array []).

(** What [fromJSON] returns: [null], an array of what it returns on the
    elements, or an instance. *)
Unset Elimination Schemes.
Inductive FromJSONResult : Type :=
| ResultNull
| ResultArray (items : list FromJSONResult)
| ResultObject (o : LGObjectInstance.t).
Set Elimination Schemes.

(** The properties of the source after lines 38 and 39. *)
Definition normalized (fields : list (string * Json.t)) : list (string * Json.t) :=
  let fields :=
    Json.set "LGTemplates" (Json.orUndefined (Json.get "LGTemplates" fields)) fields in
  Json.set "entities" (Json.orUndefined (Json.get "entities" fields)) fields.

(** Lines 31-42.  On a truthy value that is neither an array nor an
    object the two assignments have no effect and the two properties read
    as [undefined]. *)
Fixpoint fromJSON (source : Json.t) : FromJSONResult :=
  if negb (Json.truthy source) then ResultNull
  else
    match source with
    | Json.Array items => ResultArray (map fromJSON items)
    | Json.Object fields =>
        let fields := normalized fields in
        ResultObject (newLGObject (Json.get "LGTemplates" fields)
                                  (Json.get "entities" fields))
    | _ => ResultObject (newLGObject Json.Undefined Json.Undefined)
    end.

(** The source after the call: [fromJSON] writes the two properties of
    every object it is applied to. *)
Fixpoint sourceAfter (source : Json.t) : Json.t :=
  if negb (Json.truthy source) then source
  else
    match source with
    | Json.Array items => Json.Array (map sourceAfter items)
    | Json.Object fields => Json.Object (normalized fields)
    | _ => source
    end.

(** A result read as a source again: an instance is an object with the
    properties [LGTemplates] and [entities], in the order in which the
    constructor writes them. *)
Fixpoint asSource (r : FromJSONResult) : Json.t :=
  match r with
  | ResultNull => Json.Null
  | ResultArray items => Json.Array (map asSource items)
  | ResultObject o =>
      Json.Object [("LGTemplates", LGObjectInstance.LGTemplates o);
                   ("entities", LGObjectInstance.entities o)]
  end.

(** The instances of a result. *)
Fixpoint instancesOf (r : FromJSONResult) : list LGObjectInstance.t :=
  match r with
  | ResultNull => []
  | ResultArray items => flat_map instancesOf items
  | ResultObject o => [o]
  end.

(** ** [translate.translateFile]

    The file [lib/utils/translate.js].  [translateFile] reads its input
    line by line, sends the texts to be translated to the service and
    builds the translated content.  Further string primitives first. *)

Module JSText.

Definition TAB : string := String (ascii_of_nat 9) EmptyString.
Definition NEWLINE : string := String JS.CR (String JS.LF EmptyString).
Definition NL : string := String JS.LF EmptyString.

(** [s.split(/\n|\r\n/)]: a carriage return that no line feed follows
    stays in its line. *)
Fixpoint splitNewlines (s : string) : list string :=
  match s with
  | EmptyString => [EmptyString]
  | String c s' =>
      if Ascii.eqb c JS.LF then EmptyString :: splitNewlines s'
      else if Ascii.eqb c JS.CR then
        match s' with
        | String d s'' =>
            if Ascii.eqb d JS.LF then EmptyString :: splitNewlines s''
            else JS.consHead c (splitNewlines s')
        | EmptyString => JS.consHead c (splitNewlines s')
        end
      else JS.consHead c (splitNewlines s')
  end.

(** The tail [.*\]] of [/\[.*\]/] matched at the start of [s]: the
    longest run of non-terminator characters that is followed by a
    closing bracket.  Returns the run. *)
Fixpoint greedyUntilBracket (s : string) : option string :=
  match s with
  | EmptyString => None
  | String c s' =>
      if JS.isLineTerminator c then None
      else match greedyUntilBracket s' with
           | Some cap => Some (String c cap)
           | None => if Ascii.eqb c "]" then Some EmptyString else None
           end
  end.

(** [s.match(/\[.*\]/g)[0]]: the first match, [None] when [match]
    returns [null]. *)
Fixpoint firstBracketMatch (s : string) : option string :=
  match s with
  | EmptyString => None
  | String c s' =>
      if Ascii.eqb c "[" then
        match greedyUntilBracket s' with
        | Some cap => Some ("[" ++ cap ++ "]")
        | None => firstBracketMatch s'
        end
      else firstBracketMatch s'
  end.

(** [s.charAt(0)] *)
Definition charAt0 (s : string) : string :=
  match s with
  | EmptyString => EmptyString
  | String c _ => String c EmptyString
  end.

End JSText.

(** What a run of [translateFile] has done: the content built so far, the
    texts sent to the service, and the texts written to the console
    (their colour aside). *)
Module Run.
Record t : Type := mk {
  localizedContent : string;
  requests : list string;
  written : list string
}.
Definition start : t := mk "" [] [].
End Run.

Section TranslateFile.

Variable env : Collaborators.

(** The constant [parserConsts.COMMENT], which the parser does not read. *)
Variable COMMENT : string.

(** [this.translateText(content, toLang, translateKey, srcLang)] followed
    by [data[0].translations[0].text], for the language arguments and the
    key of this call of [translateFile]: the service answers with a text
    or the call throws; what it does can depend on the requests sent
    before. *)
Variable translateText : list string -> string -> Completion string.

Definition callService (run : Run.t) (content : string) : Run.t * Completion string :=
  (Run.mk (Run.localizedContent run) (Run.requests run ++ [content])%list (Run.written run),
   translateText (Run.requests run) content).

(** [localizedContent += content + NEWLINE; if (log)
    process.stdout.write(chalk.default.gray(logged + NL))] *)
Definition emit (log : bool) (run : Run.t) (content logged : string) : Run.t :=
  Run.mk (Run.localizedContent run ++ content ++ JSText.NEWLINE)
         (Run.requests run)
         (if log then (Run.written run ++ [(logged ++ JSText.NL)%string])%list else Run.written run).

Definition invalidLineText (currentLine : string) : string :=
  "Invalid line detected: " ++ JS.dquote ++ currentLine ++ JS.dquote.

(** The body of [for (lineIndex in linesInFile)], lines 109-171 of
    [translate.js].  The second component is the thrown value when the
    line throws. *)
Definition translateLine (translateComments translateLinkText log : bool)
           (run : Run.t) (line : string) : Run.t * option Thrown :=
  let currentLine := JS.trim line in
  if Z.eqb (JS.indexOf COMMENT currentLine) 0 then
    if translateComments then
      let (run, data) := callService run currentLine in
      match data with
      | Returns text => (emit log run text text, None)
      | Throws e => (run, Some e)
      end
    else (emit log run currentLine currentLine, None)
  else if Z.eqb (JS.indexOf (FILEREF (parserConsts env)) currentLine) 0 then
    if translateLinkText then
      match JS.firstParenMatch (JS.trim currentLine) with
      | None => (run, Some ThrownTypeError)
      | Some first =>
          let linkValue := JS.replace ")" "" (JS.replace "(" "" first) in
          match JSText.firstBracketMatch (JS.trim currentLine) with
          | None => (run, Some ThrownTypeError)
          | Some firstText =>
              let linkTextValue := JS.replace "]" "" (JS.replace "[" "" firstText) in
              let (run, data) := callService run linkTextValue in
              match data with
              | Returns lText =>
                  (emit log run ("[" ++ lText ++ "]" ++ "(" ++ linkValue ++ ")")
                                ("[" ++ lText ++ "]" ++ "(" ++ linkValue ++ ")"), None)
              | Throws e => (run, Some e)
              end
          end
      end
    else (emit log run currentLine currentLine, None)
  else if Z.eqb (JS.indexOf (ENTITY (parserConsts env)) currentLine) 0 then
    (emit log run currentLine currentLine, None)
  else if Z.eqb (JS.indexOf (INTENT (parserConsts env)) currentLine) 0 then
    (emit log run currentLine currentLine, None)
  else if Z.eqb (JS.indexOf "-" currentLine) 0 ||
          Z.eqb (JS.indexOf "*" currentLine) 0 ||
          Z.eqb (JS.indexOf "+" currentLine) 0 then
    let listSeparator := JSText.charAt0 currentLine in
    let content := JS.trim (JS.slice 1 currentLine) in
    if Z.eqb (JS.indexOf (CONDITION (parserConsts env)) content) 0 ||
       Z.eqb (JS.indexOf (DEFAULT (parserConsts env)) content) 0 then
      (emit log run currentLine currentLine, None)
    else
      let (run, data) := callService run content in
      match data with
      | Returns text =>
          (emit log run (JSText.TAB ++ listSeparator ++ " " ++ text)
                        (listSeparator ++ " " ++ text), None)
      | Throws e => (run, Some e)
      end
  else if String.eqb currentLine "" then (emit log run "" "", None)
  else (run, Some (ThrownException INVALID_INPUT (invalidLineText currentLine))).

Fixpoint forEachLine (translateComments translateLinkText log : bool)
         (run : Run.t) (lines : list string) : Run.t * option Thrown :=
  match lines with
  | [] => (run, None)
  | line :: rest =>
      match translateLine translateComments translateLinkText log run line with
      | (run', None) => forEachLine translateComments translateLinkText log run' rest
      | thrown => thrown
      end
  end.

(** [translateFile]: the run, and the thrown value when it throws; a run
    that does not throw returns its [localizedContent]. *)
Definition translateFile (inputFileContent : string)
           (translateComments translateLinkText log : bool) : Run.t * option Thrown :=
  forEachLine translateComments translateLinkText log Run.start
              (JSText.splitNewlines inputFileContent).

(** *** Vocabulary for the lines of a file *)

Inductive LineKind : Type :=
| CommentLine
| FileRefLine
| EntityLine
| IntentLine
| BranchLine
| VariationLine
| EmptyLine
| InvalidLine.

(** The branch of the loop that takes a line. *)
Definition kindOf (line : string) : LineKind :=
  let currentLine := JS.trim line in
  if JS.startsWith COMMENT currentLine then CommentLine
  else if JS.startsWith (FILEREF (parserConsts env)) currentLine then FileRefLine
  else if JS.startsWith (ENTITY (parserConsts env)) currentLine then EntityLine
  else if JS.startsWith (INTENT (parserConsts env)) currentLine then IntentLine
  else if firstIsMarker currentLine then
    if JS.startsWith (CONDITION (parserConsts env)) (JS.trim (JS.slice 1 currentLine)) ||
       JS.startsWith (DEFAULT (parserConsts env)) (JS.trim (JS.slice 1 currentLine))
    then BranchLine else VariationLine
  else if String.eqb currentLine "" then EmptyLine
  else InvalidLine.

(** The lines whose text goes to the service, and the text that goes. *)
Definition translated (translateComments translateLinkText : bool) (line : string) : bool :=
  match kindOf line with
  | CommentLine => translateComments
  | FileRefLine => translateLinkText
  | VariationLine => true
  | _ => false
  end.

Definition linkTextOf (line : string) : string :=
  match JSText.firstBracketMatch (JS.trim line) with
  | Some firstText => JS.replace "]" "" (JS.replace "[" "" firstText)
  | None => ""
  end.

Definition requestOf (line : string) : string :=
  match kindOf line with
  | CommentLine => JS.trim line
  | FileRefLine => linkTextOf line
  | _ => JS.trim (JS.slice 1 (JS.trim line))
  end.

(** The lines that are copied, trimmed, into the content. *)
Definition copied (translateComments translateLinkText : bool) (line : string) : bool :=
  match kindOf line with
  | InvalidLine => false
  | _ => negb (translated translateComments translateLinkText line)
  end.

Fixpoint concatLines (ending : string) (lines : list string) : string :=
  match lines with
  | [] => ""
  | line :: rest => JS.trim line ++ ending ++ concatLines ending rest
  end.

End TranslateFile.

(** ** A sample file and a sample translation service *)

Module SampleRun.

Definition greetChunk : string :=
  "# greet" ++ Sample.nl ++ "- hi" ++ Sample.nl ++
  "- IF: morning" ++ Sample.nl ++ "- good morning {person}".

Definition chunks : list string :=
  [greetChunk; "$ person : builtin"; "[more](./more.lg)"].

Definition greet : LGTemplate.t :=
  LGTemplate.mk "greet" ["hi"]
    [LGConditionalResponse.mk "morning" ["good morning {person}"]].

Definition person : LGEntity.t (EntityType Sample.env) :=
  LGEntity.mk "person" "builtin" [].

Definition object : LGObject.t (EntityType Sample.env) :=
  LGObject.mk [greet] [person].

Definition result : LGParsedObj.t (EntityType Sample.env) :=
  LGParsedObj.mk (Some object) ["./more.lg"].

(** The object of the parse of [greetChunk] alone. *)
Definition objectAfterGreet : LGObject.t (EntityType Sample.env) :=
  LGObject.mk [greet] [LGEntity.mk "person" "" []].

(** The line loop at the start of the body of a new template. *)
Definition bodyStart : BodyState Sample.env :=
  Build_BodyState Sample.env (LGTemplate.new "greet") [] true false ItemNull.

Definition bodyEnd : BodyState Sample.env :=
  Build_BodyState Sample.env (LGTemplate.mk "greet" ["hi"] []) [] true true
    (ItemNew (LGConditionalResponse.mk "morning" ["good morning"])).

(** A service that answers every request with the text it was sent. *)
Definition echo : list string -> string -> Completion string :=
  fun _ content => Returns content.

(** Modelled from the spec: the marker of a comment line. *)
Definition COMMENT : string := ">".

End SampleRun.

(** ** Facts about the string primitives *)

Lemma indexOfFrom_ge (pat s : string) :
  forall i j, JS.indexOfFrom pat s i = Some j -> i <= j.
Proof.
  induction s as [|c s IH]; intros i j; simpl.
  - destruct (JS.startsWith pat ""); intro H; inversion H; lia.
  - destruct (JS.startsWith pat (String c s)).
    + intro H; inversion H; lia.
    + intro H. apply IH in H. lia.
Qed.

(** The test [s.indexOf(pat) === 0] holds when [s] starts with [pat]. *)
Lemma indexOf_zero (pat s : string) :
  Z.eqb (JS.indexOf pat s) 0 = JS.startsWith pat s.
Proof.
  unfold JS.indexOf.
  destruct s as [|c s]; simpl.
  - destruct (JS.startsWith pat ""); reflexivity.
  - destruct (JS.startsWith pat (String c s)); [reflexivity|].
    destruct (JS.indexOfFrom pat s 1) as [j|] eqn:E; [|reflexivity].
    apply indexOfFrom_ge in E.
    apply Z.eqb_neq. lia.
Qed.

Lemma hasListDecoration_first (item : string) :
  hasListDecoration item = firstIsMarker item.
Proof.
  unfold hasListDecoration. rewrite !indexOf_zero.
  destruct item as [|c item]; cbn [JS.startsWith firstIsMarker]; [reflexivity|].
  unfold isListMarker. rewrite !andb_true_r.
  destruct (Ascii.eqb "-" c), (Ascii.eqb "*" c), (Ascii.eqb "+" c); reflexivity.
Qed.

Lemma splitLinkRefs_nonempty (s : string) :
  forall skip, JS.splitLinkRefs skip s <> [].
Proof.
  induction s as [|c s IH]; intros skip; cbn [JS.splitLinkRefs]; [discriminate|].
  destruct skip as [|k]; [|apply IH].
  destruct (JS.linkRefAt (String c s)); [discriminate|].
  destruct (JS.splitLinkRefs 0 s); discriminate.
Qed.

Lemma linkRefAt_bracket (s cap : string) :
  JS.linkRefAt s = Some cap -> exists s', s = String "]" s'.
Proof.
  destruct s as [|a [|b s]]; simpl; try discriminate.
  destruct (Ascii.eqb a "]") eqn:Ea; simpl; [|discriminate].
  apply Ascii.eqb_eq in Ea. subst a. intros _. eauto.
Qed.

(** Stripping the link references of a line leaves its first character
    a list marker or not a list marker, as it was. *)
Lemma removeTemplateLinkReferences_first (line : string) :
  firstIsMarker (removeTemplateLinkReferences line) = firstIsMarker line.
Proof.
  destruct line as [|c s]; [reflexivity|].
  unfold removeTemplateLinkReferences.
  cbn [JS.splitLinkRefs].
  destruct (JS.linkRefAt (String c s)) as [cap|] eqn:E.
  - destruct (linkRefAt_bracket _ _ E) as [s' Hs]. inversion Hs; subst.
    reflexivity.
  - pose proof (splitLinkRefs_nonempty s 0) as Hne.
    destruct (JS.splitLinkRefs 0 s) as [|p ps]; [congruence|].
    destruct ps as [|q rest]; reflexivity.
Qed.

Lemma hasListDecoration_removeTemplateLinkReferences (line : string) :
  hasListDecoration (removeTemplateLinkReferences line) = hasListDecoration line.
Proof.
  rewrite !hasListDecoration_first. apply removeTemplateLinkReferences_first.
Qed.

(** A line that has no list marker after its leading white space has none
    as its first character. *)
Lemma no_marker_after_whitespace (line : string) :
  firstIsMarker (JS.trimStart line) = false -> hasListDecoration line = false.
Proof.
  rewrite hasListDecoration_first.
  destruct line as [|c s]; [reflexivity|].
  cbn [JS.trimStart firstIsMarker].
  destruct (JS.isWhiteSpace c) eqn:Ew; [|intros H; exact H].
  intros _. unfold isListMarker.
  destruct (Ascii.eqb "-" c) eqn:E1; [apply Ascii.eqb_eq in E1; subst; discriminate|].
  destruct (Ascii.eqb "*" c) eqn:E2; [apply Ascii.eqb_eq in E2; subst; discriminate|].
  destruct (Ascii.eqb "+" c) eqn:E3; [apply Ascii.eqb_eq in E3; subst; discriminate|].
  reflexivity.
Qed.

Lemma append_assoc (a b c : string) : (a ++ b) ++ c = a ++ (b ++ c).
Proof.
  induction a as [|x a IH]; cbn [append]; [reflexivity|]. rewrite IH. reflexivity.
Qed.

Lemma append_empty_r (a : string) : a ++ "" = a.
Proof.
  induction a as [|x a IH]; cbn [append]; [reflexivity|]. rewrite IH. reflexivity.
Qed.






(** ** Properties of the parser *)

Section Properties.

Variable env : Collaborators.

(** *** The two loops over a concatenation *)

Lemma forEachChunk_app (pre post : list string) :
  forall st : ParserState env,
    forEachChunk env st (pre ++ post) =
      (st' <- forEachChunk env st pre ;; forEachChunk env st' post).
Proof.
  induction pre as [|chunk pre IH]; intros st; cbn [forEachChunk app bind]; [reflexivity|].
  destruct (processChunk env st chunk) as [st'|e]; cbn [bind]; [apply IH|reflexivity].
Qed.

Lemma processLines_app (pre post : list string) :
  forall bs : BodyState env,
    processLines env bs (pre ++ post) =
      (bs' <- processLines env bs pre ;; processLines env bs' post).
Proof.
  induction pre as [|line pre IH]; intros bs; cbn [processLines app bind]; [reflexivity|].
  destruct (processLine env bs line) as [bs'|e]; cbn [bind]; [apply IH|reflexivity].
Qed.

(** *** Input without chunks *)

(** C10. Given [null], [undefined], a value that is no array or an empty
    array, [toLG] returns a fresh [LGParsedObj] whose [LGObject] is not
    set, and does not throw; on an array with a chunk the result is the
    one the chunk loop builds from an [LGObject] with no template and no
    entity, and every such result has its [LGObject] set. *)
Theorem toLG_without_chunks :
  forall v : JSValue,
    v = JSNull \/ v = JSUndefined \/ instanceofArray v = false \/ v = JSArray [] ->
    toLG env v = Returns LGParsedObj.new /\
    LGParsedObj.LGObject (@LGParsedObj.new (EntityType env)) = None /\
    (forall chunk rest,
        toLG env (JSArray (chunk :: rest)) =
          (st <- forEachChunk env initialState (chunk :: rest) ;;
           Returns (parsedObjOf st)) /\
        @templatesOf env initialState = [] /\
        @entities env initialState = [] /\
        forall res, toLG env (JSArray (chunk :: rest)) = Returns res ->
                    LGParsedObj.LGObject res <> None).
Proof.
  intros v Hv. split; [|split; [reflexivity|]].
  - destruct Hv as [-> | [-> | [Hv | ->]]]; try reflexivity.
    unfold toLG. destruct (falsy v); [reflexivity|]. rewrite Hv. reflexivity.
  - intros chunk rest. repeat split.
    intros res. unfold toLG. cbn [falsy instanceofArray negb List.length Nat.eqb].
    destruct (forEachChunk env initialState (chunk :: rest)) as [st|e]; cbn [bind].
    + intros H. inversion H. discriminate.
    + discriminate.
Qed.

(** *** Chunks of no known kind *)

(** C9. A chunk that, once trimmed, starts with none of the markers of a
    template, a file reference or an entity definition makes [toLG]
    throw an [Exception] with code [INVALID_INPUT]; its text ends with the
    trimmed chunk.  The chunks before it are those that were processed
    without a throw, the chunks after it are never looked at. *)
Theorem unrecognized_chunk_throws :
  forall (pre post : list string) (st : ParserState env) (chunk : string),
    forEachChunk env initialState pre = Returns st ->
    JS.startsWith (INTENT (parserConsts env)) (JS.trim chunk) = false ->
    JS.startsWith (FILEREF (parserConsts env)) (JS.trim chunk) = false ->
    JS.startsWith (ENTITY (parserConsts env)) (JS.trim chunk) = false ->
    processChunk env st chunk =
      Throws (ThrownException INVALID_INPUT (invalidInputText (JS.trim chunk))) /\
    toLG env (JSArray (pre ++ chunk :: post)) =
      Throws (ThrownException INVALID_INPUT (invalidInputText (JS.trim chunk))) /\
    exists intro, invalidInputText (JS.trim chunk) = intro ++ JS.trim chunk.
Proof.
  intros pre post st chunk Hpre Hi Hf He.
  assert (Hc : processChunk env st chunk =
               Throws (ThrownException INVALID_INPUT (invalidInputText (JS.trim chunk)))).
  { unfold processChunk. rewrite !indexOf_zero, Hi, Hf, He. reflexivity. }
  split; [exact Hc|]. split.
  - unfold toLG. cbn [falsy instanceofArray negb].
    destruct (pre ++ chunk :: post)%list as [|c0 l0] eqn:El.
    { destruct pre; discriminate. }
    cbn [List.length Nat.eqb]. rewrite <- El. clear El c0 l0.
    rewrite (forEachChunk_app pre (chunk :: post) initialState), Hpre.
    cbn [bind forEachChunk]. rewrite Hc. reflexivity.
  - unfold invalidInputText.
    exists ("Unidentified template definition. Template definition must start with # <Template Name> :: "
            ++ String JS.LF "").
    reflexivity.
Qed.

(** *** Template chunks: how [processChunk] runs them *)

Lemma processChunk_template (st : ParserState env) (chunk : string) :
  isTemplateChunk env chunk = true ->
  processChunk env st chunk =
    templateChunk env st (JS.splitLines (JS.trim chunk)).
Proof.
  unfold isTemplateChunk, processChunk. intros ->. reflexivity.
Qed.

Lemma templateChunk_unfold (st : ParserState env) (chunk : string) :
  templateChunk env st (JS.splitLines (JS.trim chunk)) =
    (sel <- selectTemplate env st (templateNameOf chunk) ;;
     bs <- processLines env (startOfBody env st sel) (bodyOf chunk) ;;
     tpl <- flushItem env bs ;;
     if Nat.eqb (List.length (LGTemplate.variations tpl)) 0 &&
        Nat.eqb (List.length (LGTemplate.conditionalResponses tpl)) 0
     then Throws (ThrownException INVALID_TEMPLATE
                    (invalidTemplateText (LGTemplate.name tpl)))
     else Returns {| heap := store (fst (fst sel)) (snd (fst sel)) tpl;
                     LGTemplates :=
                       if negb (String.eqb (LGTemplate.name tpl) "") && pushAtEnd bs
                       then (LGTemplates st ++ [snd (fst sel)])%list
                       else LGTemplates st;
                     entities := bodyEntities bs;
                     additionalFilesToParse := additionalFilesToParse st |}).
Proof.
  unfold templateChunk, templateNameOf, bodyOf.
  destruct (selectTemplate env st _) as [[[h r] flag]|e]; reflexivity.
Qed.


(** *** Lines without list decoration *)


(** *** The line loop keeps the name of the template *)

Lemma flushItem_name (bs : BodyState env) (tpl : LGTemplate.t) :
  flushItem env bs = Returns tpl ->
  LGTemplate.name tpl = LGTemplate.name (cLGTemplate bs).
Proof.
  unfold flushItem.
  destruct (inConditionalResponses bs && pushAtEnd bs).
  - destruct (conditionalResponseItem bs) as [|i|item]; try discriminate.
    + destruct (nth_error _ i); [|discriminate].
      intros H; inversion H; reflexivity.
    + intros H; inversion H; reflexivity.
  - intros H; inversion H; reflexivity.
Qed.

Lemma selectItem_template (tpl : LGTemplate.t) (es : list (Entity env))
      (condition : string) (isCondition : bool) (bs : BodyState env) :
  selectItem env tpl es condition isCondition = Returns bs ->
  cLGTemplate bs = tpl /\ bodyEntities bs = es.
Proof.
  unfold selectItem.
  destruct (Nat.ltb 0 _);
    [destruct (findCondition condition _)|];
    try destruct (validateCondition (validators env) condition isCondition);
    cbn [bind]; intros H; inversion H; split; reflexivity.
Qed.

Lemma addVariation_name (bs : BodyState env) (es : list (Entity env))
      (item : string) (bs' : BodyState env) :
  addVariation env bs es item = Returns bs' ->
  LGTemplate.name (cLGTemplate bs') = LGTemplate.name (cLGTemplate bs) /\
  bodyEntities bs' = es.
Proof.
  unfold addVariation.
  destruct (inConditionalResponses bs).
  - destruct (conditionalResponseItem bs) as [|i|b].
    + destruct (validateVariationItem (validators env) item) as [[|]|e];
        cbn [bind]; intros H; inversion H; split; reflexivity.
    + destruct (nth_error _ i);
        destruct (validateVariationItem (validators env) item) as [[|]|e];
        cbn [bind]; intros H; inversion H; split; try reflexivity.
      cbn [cLGTemplate andb]. destruct (negb _); reflexivity.
    + destruct (validateVariationItem (validators env) item) as [valid|e];
        cbn [bind]; intros H; inversion H; split; reflexivity.
  - destruct (validateVariationItem (validators env) item) as [valid|e];
      cbn [bind]; intros H; inversion H; split; [|reflexivity].
    cbn [cLGTemplate]. destruct (valid && _); reflexivity.
Qed.

Lemma processLine_name (bs : BodyState env) (line : string) (bs' : BodyState env) :
  processLine env bs line = Returns bs' ->
  LGTemplate.name (cLGTemplate bs') = LGTemplate.name (cLGTemplate bs).
Proof.
  unfold processLine.
  destruct (negb (hasListDecoration _)); [discriminate|].
  destruct (Z.eqb (JS.indexOf (CONDITION (parserConsts env)) _) 0).
  - destruct (flushItem env bs) as [tpl|e] eqn:Ef; cbn [bind]; [|discriminate].
    intros H. apply selectItem_template in H. destruct H as [-> _].
    apply flushItem_name; assumption.
  - destruct (Z.eqb (JS.indexOf (DEFAULT (parserConsts env)) _) 0).
    + destruct (flushItem env bs) as [tpl|e] eqn:Ef; cbn [bind]; [|discriminate].
      intros H. apply selectItem_template in H. destruct H as [-> _].
      apply flushItem_name; assumption.
    + intros H. apply addVariation_name in H. tauto.
Qed.

Lemma processLines_name (lines : list string) :
  forall bs bs' : BodyState env,
    processLines env bs lines = Returns bs' ->
    LGTemplate.name (cLGTemplate bs') = LGTemplate.name (cLGTemplate bs).
Proof.
  induction lines as [|line lines IH]; intros bs bs'; cbn [processLines].
  - intros H; inversion H; reflexivity.
  - destruct (processLine env bs line) as [bs1|e] eqn:E; cbn [bind]; [|discriminate].
    intros H. rewrite (IH _ _ H). apply processLine_name with (line := line). exact E.
Qed.

(** *** Templates without content *)

(** C6. When the lines of a template chunk have been processed and the
    pending conditional response has been flushed, a template with no
    variation and no conditional response makes the chunk throw an
    [Exception] of code [INVALID_TEMPLATE] whose text quotes the name of
    the template; a template with a variation or a conditional response
    makes the chunk return.  The name is the one of the template the
    chunk started with. *)
Theorem empty_template_throws :
  forall (st : ParserState env) (chunk : string)
         (sel : list LGTemplate.t * nat * bool) (bs : BodyState env) (tpl : LGTemplate.t),
    isTemplateChunk env chunk = true ->
    selectTemplate env st (templateNameOf chunk) = Returns sel ->
    processLines env (startOfBody env st sel) (bodyOf chunk) = Returns bs ->
    flushItem env bs = Returns tpl ->
    LGTemplate.name tpl = LGTemplate.name (deref (fst (fst sel)) (snd (fst sel))) /\
    (LGTemplate.variations tpl = [] /\ LGTemplate.conditionalResponses tpl = [] ->
     processChunk env st chunk =
       Throws (ThrownException INVALID_TEMPLATE (invalidTemplateText (LGTemplate.name tpl)))) /\
    (LGTemplate.variations tpl <> [] \/ LGTemplate.conditionalResponses tpl <> [] ->
     exists st', processChunk env st chunk = Returns st').
Proof.
  intros st chunk sel bs tpl Ht Hs Hp Hf.
  assert (E := templateChunk_unfold st chunk).
  rewrite Hs in E. cbn [bind] in E. rewrite Hp in E. cbn [bind] in E.
  rewrite Hf in E. cbn [bind] in E.
  rewrite <- (processChunk_template st chunk Ht) in E.
  split; [|split].
  - rewrite (flushItem_name bs tpl Hf), (processLines_name _ _ _ Hp).
    destruct sel as [[h r] flag]. reflexivity.
  - intros [Hv Hc]. rewrite E, Hv, Hc. reflexivity.
  - intros Hne. rewrite E.
    destruct (LGTemplate.variations tpl) as [|v vs];
      destruct (LGTemplate.conditionalResponses tpl) as [|c cs];
      cbn [List.length Nat.eqb andb]; eauto.
    destruct Hne as [Hne|Hne]; congruence.
Qed.

(** *** The branches of the line loop *)

Lemma processLine_condition (bs : BodyState env) (line : string) :
  isConditionLine env line = true ->
  processLine env bs line =
    (tpl <- flushItem env bs ;;
     selectItem env tpl
       (addEntities env (parseEntity env (removeTemplateLinkReferences line))
                    (bodyEntities bs))
       (conditionOf env line) true).
Proof.
  unfold isConditionLine, startsCondition, processLine, conditionOf, payload.
  intros H. apply andb_prop in H. destruct H as [Hd Hc].
  rewrite hasListDecoration_removeTemplateLinkReferences, Hd. cbn [negb].
  rewrite Hc. reflexivity.
Qed.

Lemma processLine_variation (bs : BodyState env) (line : string) :
  isVariationLine env line = true ->
  processLine env bs line =
    addVariation env bs
      (addEntities env (parseEntity env (removeTemplateLinkReferences line))
                   (bodyEntities bs))
      (payload line).
Proof.
  unfold isVariationLine, startsCondition, startsDefault, processLine, payload.
  intros H. apply andb_prop in H. destruct H as [H Hdef].
  apply andb_prop in H. destruct H as [Hd Hc].
  apply negb_true_iff in Hc. apply negb_true_iff in Hdef.
  rewrite hasListDecoration_removeTemplateLinkReferences, Hd. cbn [negb].
  rewrite Hc, Hdef. reflexivity.
Qed.

(** *** Adding with [includes] first *)

Lemma pushNew_app (vs ws : list string) :
  forall acc, pushNew acc (vs ++ ws) = pushNew (pushNew acc vs) ws.
Proof.
  induction vs as [|v vs IH]; intros acc; cbn [pushNew app]; [reflexivity|apply IH].
Qed.

Lemma includes_In (xs : list string) (x : string) :
  JS.includes xs x = true <-> In x xs.
Proof.
  unfold JS.includes. rewrite existsb_exists. split.
  - intros [y [Hy E]]. apply String.eqb_eq in E. subst. assumption.
  - intros H. exists x. split; [assumption|apply String.eqb_refl].
Qed.

Lemma pushNew_NoDup (vs : list string) :
  forall acc, NoDup acc -> NoDup (pushNew acc vs).
Proof.
  induction vs as [|v vs IH]; intros acc Hacc; cbn [pushNew]; [assumption|].
  apply IH. destruct (JS.includes acc v) eqn:E; [assumption|].
  apply NoDup_app; [assumption|repeat constructor; intros []|].
  intros x Hx [<-|[]].
  apply includes_In in Hx. congruence.
Qed.

Lemma pushNew_twice (vs : list string) :
  forall acc, (forall v, In v vs -> In v acc) -> pushNew acc vs = acc.
Proof.
  induction vs as [|v vs IH]; intros acc H; cbn [pushNew]; [reflexivity|].
  assert (Hv : JS.includes acc v = true) by (apply includes_In, H; left; reflexivity).
  rewrite Hv. apply IH. intros w Hw. apply H. right. assumption.
Qed.

Lemma pushNew_incl (vs : list string) :
  forall acc v, In v acc \/ In v vs -> In v (pushNew acc vs).
Proof.
  induction vs as [|w vs IH]; intros acc v; cbn [pushNew].
  - intros [H|[]]. assumption.
  - intros H. apply IH.
    destruct (JS.includes acc w) eqn:E.
    + destruct H as [H|[<-|H]]; [left; assumption| |right; assumption].
      left. apply includes_In. assumption.
    + destruct H as [H|[<-|H]]; [left|left|right; assumption];
        apply in_or_app; [left; assumption|right; left; reflexivity].
Qed.

(** Adding the same strings a second time changes nothing. *)
Lemma pushNew_idempotent (vs : list string) (acc : list string) :
  pushNew (pushNew acc vs) vs = pushNew acc vs.
Proof.
  apply pushNew_twice. intros v Hv. apply pushNew_incl. right. assumption.
Qed.

(** *** Variation lines outside a conditional response *)

Lemma flat_lines (lines : list string) :
  forall bs : BodyState env,
    inConditionalResponses bs = false ->
    Forall (fun l => isVariationLine env l = true /\ variationChecked env l) lines ->
    processLines env bs lines =
      Returns {| cLGTemplate :=
                   LGTemplate.mk (LGTemplate.name (cLGTemplate bs))
                     (pushNew (LGTemplate.variations (cLGTemplate bs))
                              (acceptedPayloads env lines))
                     (LGTemplate.conditionalResponses (cLGTemplate bs));
                 bodyEntities := entitiesAfter env lines (bodyEntities bs);
                 pushAtEnd := pushAtEnd bs;
                 inConditionalResponses := false;
                 conditionalResponseItem := conditionalResponseItem bs |}.
Proof.
  induction lines as [|line lines IH]; intros bs Hin Hall.
  - destruct bs as [[n vs cs] es flag inc item]. cbn in Hin. subst inc. reflexivity.
  - inversion Hall as [|l ls [Hv [valid Hc]] Hrest]; subst.
    cbn [processLines]. rewrite (processLine_variation bs line Hv).
    unfold addVariation. rewrite Hin, Hc. cbn [bind].
    rewrite IH; [|reflexivity|assumption].
    cbn [cLGTemplate bodyEntities pushAtEnd conditionalResponseItem].
    unfold acceptedPayloads, entitiesAfter. cbn [filter fold_left].
    unfold accepted at 2. rewrite Hc.
    destruct valid; cbn [andb map pushNew].
    + destruct (JS.includes (LGTemplate.variations (cLGTemplate bs)) (payload line));
        cbn [negb]; destruct (cLGTemplate bs); reflexivity.
    + destruct (cLGTemplate bs); reflexivity.
Qed.

(** *** The heap of template objects *)

Lemma store_length (h : list LGTemplate.t) :
  forall r tpl, List.length (store h r tpl) = List.length h.
Proof.
  induction h as [|x h IH]; intros [|r] tpl; cbn [store List.length]; try reflexivity.
  rewrite IH. reflexivity.
Qed.

Lemma deref_store_same (h : list LGTemplate.t) :
  forall r tpl, r < List.length h -> deref (store h r tpl) r = tpl.
Proof.
  unfold deref.
  induction h as [|x h IH]; intros [|r] tpl; cbn [store List.length nth]; try lia.
  - reflexivity.
  - intros H. apply IH. lia.
Qed.

Lemma deref_store_other (h : list LGTemplate.t) :
  forall r r' tpl, r <> r' -> deref (store h r tpl) r' = deref h r'.
Proof.
  unfold deref.
  induction h as [|x h IH]; intros [|r] [|r'] tpl H; cbn [store nth]; try reflexivity.
  - congruence.
  - apply IH. congruence.
Qed.

Lemma deref_app (h extra : list LGTemplate.t) (r : nat) :
  r < List.length h -> deref (h ++ extra) r = deref h r.
Proof.
  unfold deref. intros H. apply app_nth1. assumption.
Qed.

Lemma deref_app_last (h : list LGTemplate.t) (tpl : LGTemplate.t) :
  deref (h ++ [tpl]) (List.length h) = tpl.
Proof.
  unfold deref. rewrite app_nth2, Nat.sub_diag; [reflexivity|lia].
Qed.

Lemma store_app_last (h : list LGTemplate.t) (old tpl : LGTemplate.t) :
  store (h ++ [old]) (List.length h) tpl = (h ++ [tpl])%list.
Proof.
  induction h as [|x h IH]; cbn [store List.length app]; [reflexivity|].
  rewrite IH. reflexivity.
Qed.

(** *** The choice of the template of a chunk *)

Lemma findTemplate_Some (h : list LGTemplate.t) (n : string) (refs : list nat) (r : nat) :
  findTemplate h n refs = Some r ->
  In r refs /\ LGTemplate.name (deref h r) = n.
Proof.
  unfold findTemplate. intros H. apply find_some in H. destruct H as [Hin E].
  apply String.eqb_eq in E. split; assumption.
Qed.

Lemma selectTemplate_new (st : ParserState env) (n : string) :
  n <> "" ->
  validateTemplateName env n = Returns tt ->
  findTemplate (heap st) n (LGTemplates st) = None ->
  selectTemplate env st n =
    Returns ((heap st ++ [LGTemplate.new n])%list, List.length (heap st), true).
Proof.
  intros Hn Hv Hf. unfold selectTemplate, allocTemplate, newLGTemplate.
  rewrite Hf, Hv. cbn [bind fst snd].
  apply String.eqb_neq in Hn.
  destruct (Nat.ltb 0 (List.length (LGTemplates st))); cbn [bind fst snd].
  - rewrite deref_app_last. cbn [LGTemplate.new LGTemplate.name]. rewrite Hn. reflexivity.
  - reflexivity.
Qed.

Lemma selectTemplate_existing (st : ParserState env) (n : string) (r : nat) :
  n <> "" ->
  findTemplate (heap st) n (LGTemplates st) = Some r ->
  selectTemplate env st n = Returns (heap st, r, false).
Proof.
  intros Hn Hf. unfold selectTemplate. rewrite Hf.
  destruct (findTemplate_Some _ _ _ _ Hf) as [Hin Hname].
  destruct (LGTemplates st) as [|r0 refs]; [destruct Hin|].
  cbn [List.length Nat.ltb Nat.leb bind]. rewrite Hname.
  apply String.eqb_neq in Hn. rewrite Hn. reflexivity.
Qed.

(** Whatever the choice, the heap grows at its end only and the chosen
    reference is an entry of [LGTemplates] or an object allocated now. *)
Lemma selectTemplate_heap (st : ParserState env) (n : string)
      (h : list LGTemplate.t) (r : nat) (flag : bool) :
  wfState st ->
  selectTemplate env st n = Returns (h, r, flag) ->
  (exists extra, h = (heap st ++ extra)%list) /\
  r < List.length h /\
  (In r (LGTemplates st) \/ List.length (heap st) <= r).
Proof.
  intros Hwf.
  unfold selectTemplate, allocTemplate, newLGTemplate.
  destruct (Nat.ltb 0 (List.length (LGTemplates st))).
  - destruct (findTemplate (heap st) n (LGTemplates st)) as [r0|] eqn:Ef; cbn [bind].
    + destruct (findTemplate_Some _ _ _ _ Ef) as [Hin _].
      destruct (String.eqb (LGTemplate.name (deref (heap st) r0)) "").
      * destruct (validateTemplateName env n); cbn [bind]; [|discriminate].
        intros H; inversion H; subst. repeat split.
        -- eexists; reflexivity.
        -- rewrite length_app. cbn. lia.
        -- right. lia.
      * intros H; inversion H; subst. repeat split.
        -- exists []. rewrite app_nil_r. reflexivity.
        -- unfold wfState in Hwf. rewrite Forall_forall in Hwf. apply Hwf. assumption.
        -- left. assumption.
    + destruct (validateTemplateName env n); cbn [bind fst snd]; [|discriminate].
      destruct (String.eqb _ "").
      * cbn [bind]. intros H; inversion H; subst. repeat split.
        -- exists [LGTemplate.new n; LGTemplate.new n]. rewrite <- app_assoc. reflexivity.
        -- rewrite !length_app. cbn. lia.
        -- right. rewrite length_app. lia.
      * intros H; inversion H; subst. repeat split.
        -- eexists; reflexivity.
        -- rewrite length_app. cbn. lia.
        -- right. lia.
  - cbn [bind]. destruct (validateTemplateName env n); cbn [bind]; [|discriminate].
    intros H; inversion H; subst. repeat split.
    + eexists; reflexivity.
    + rewrite length_app. cbn. lia.
    + right. lia.
Qed.

(** *** References stay within the heap *)

Lemma processChunk_wf (st st' : ParserState env) (chunk : string) :
  wfState st ->
  processChunk env st chunk = Returns st' ->
  wfState st'.
Proof.
  intros Hwf.
  destruct (isTemplateChunk env chunk) eqn:Ht.
  - rewrite (processChunk_template st chunk Ht), templateChunk_unfold.
    destruct (selectTemplate env st (templateNameOf chunk)) as [[[h r] flag]|e] eqn:Es;
      cbn [bind]; [|discriminate].
    destruct (selectTemplate_heap st _ h r flag Hwf Es) as [[extra Hh] [Hr _]].
    destruct (processLines env _ (bodyOf chunk)) as [bs|e]; cbn [bind]; [|discriminate].
    destruct (flushItem env bs) as [tpl|e]; cbn [bind]; [|discriminate].
    destruct (Nat.eqb _ 0 && Nat.eqb _ 0); [discriminate|].
    intros H; inversion H; subst st'; clear H.
    unfold wfState. cbn [heap LGTemplates fst snd]. rewrite store_length.
    assert (Hold : Forall (fun r0 => r0 < List.length h) (LGTemplates st)).
    { unfold wfState in Hwf. rewrite Forall_forall in *. intros x Hx.
      specialize (Hwf x Hx). subst h. rewrite length_app. lia. }
    destruct (negb _ && pushAtEnd bs); [|assumption].
    apply Forall_app. split; [assumption|]. constructor; [assumption|constructor].
  - unfold processChunk. unfold isTemplateChunk in Ht. rewrite Ht.
    destruct (Z.eqb (JS.indexOf (FILEREF (parserConsts env)) _) 0).
    + unfold fileRefChunk. destruct (JS.firstParenMatch _); [|discriminate].
      destruct (String.eqb _ ""); [discriminate|].
      intros H; inversion H; subst st'. exact Hwf.
    + destruct (Z.eqb (JS.indexOf (ENTITY (parserConsts env)) _) 0); [|discriminate].
      unfold entityChunk. destruct (negb _); [discriminate|].
      destruct (hasEntity env _ _).
      * destruct (getEntityType env _); cbn [bind]; [|discriminate].
        intros H; inversion H; subst st'. exact Hwf.
      * intros H; inversion H; subst st'. exact Hwf.
Qed.

Lemma forEachChunk_wf (chunks : list string) :
  forall st st' : ParserState env,
    wfState st ->
    forEachChunk env st chunks = Returns st' ->
    wfState st'.
Proof.
  induction chunks as [|chunk chunks IH]; intros st st' Hwf; cbn [forEachChunk].
  - intros H; inversion H; subst; assumption.
  - destruct (processChunk env st chunk) as [st1|e] eqn:E; cbn [bind]; [|discriminate].
    apply IH. apply (processChunk_wf st st1 chunk Hwf E).
Qed.

Lemma initialState_wf : wfState (@initialState env).
Proof. constructor. Qed.

(** *** Template chunks made of variation lines *)

Lemma pushNew_nil_inv (vs acc : list string) :
  pushNew acc vs = [] -> acc = [] /\ vs = [].
Proof.
  revert acc. induction vs as [|v vs IH]; intros acc; cbn [pushNew].
  - intros ->. split; reflexivity.
  - intros H. apply IH in H. destruct H as [H _].
    destruct (JS.includes acc v) eqn:E.
    + subst acc. discriminate.
    + destruct acc; discriminate.
Qed.

(** The chunk declares a template that no entry of [LGTemplates] is
    named after: an object is allocated, filled and referred to by a new
    last entry. *)
Lemma flatChunk_new (st : ParserState env) (chunk n : string) :
  flatChunk env n chunk ->
  n <> "" ->
  validateTemplateName env n = Returns tt ->
  findTemplate (heap st) n (LGTemplates st) = None ->
  acceptedPayloads env (bodyOf chunk) <> [] ->
  processChunk env st chunk =
    Returns {| heap := (heap st ++
                        [LGTemplate.mk n (pushNew [] (acceptedPayloads env (bodyOf chunk))) []])%list;
               LGTemplates := (LGTemplates st ++ [List.length (heap st)])%list;
               entities := entitiesAfter env (bodyOf chunk) (entities st);
               additionalFilesToParse := additionalFilesToParse st |}.
Proof.
  intros [Ht [Hname Hlines]] Hn Hv Hf Hacc.
  rewrite (processChunk_template st chunk Ht), templateChunk_unfold, Hname.
  rewrite (selectTemplate_new st n Hn Hv Hf). cbn [bind].
  rewrite (flat_lines _ (startOfBody env st (_, _, _)) eq_refl Hlines). cbn [bind].
  unfold flushItem, startOfBody.
  cbn [inConditionalResponses andb cLGTemplate pushAtEnd bodyEntities fst snd].
  rewrite deref_app_last.
  cbn [bind LGTemplate.new LGTemplate.name LGTemplate.variations
       LGTemplate.conditionalResponses].
  destruct (pushNew [] (acceptedPayloads env (bodyOf chunk))) as [|v vs] eqn:Ep.
  { apply pushNew_nil_inv in Ep. tauto. }
  cbn [List.length Nat.eqb andb].
  apply String.eqb_neq in Hn. rewrite Hn. cbn [negb andb].
  rewrite store_app_last. reflexivity.
Qed.

(** The chunk declares a template an entry of [LGTemplates] is named
    after: the object of the first such entry receives the variations,
    [LGTemplates] stays as it is. *)
Lemma flatChunk_existing (st : ParserState env) (chunk n : string) (r : nat) :
  flatChunk env n chunk ->
  n <> "" ->
  findTemplate (heap st) n (LGTemplates st) = Some r ->
  LGTemplate.variations (deref (heap st) r) <> [] ->
  processChunk env st chunk =
    Returns {| heap := store (heap st) r
                         (LGTemplate.mk n
                            (pushNew (LGTemplate.variations (deref (heap st) r))
                                     (acceptedPayloads env (bodyOf chunk)))
                            (LGTemplate.conditionalResponses (deref (heap st) r)));
               LGTemplates := LGTemplates st;
               entities := entitiesAfter env (bodyOf chunk) (entities st);
               additionalFilesToParse := additionalFilesToParse st |}.
Proof.
  intros [Ht [Hname Hlines]] Hn Hf Hvars.
  rewrite (processChunk_template st chunk Ht), templateChunk_unfold, Hname.
  rewrite (selectTemplate_existing st n r Hn Hf). cbn [bind].
  rewrite (flat_lines _ (startOfBody env st (_, _, _)) eq_refl Hlines). cbn [bind].
  unfold flushItem, startOfBody.
  cbn [inConditionalResponses andb cLGTemplate pushAtEnd bodyEntities fst snd].
  destruct (findTemplate_Some _ _ _ _ Hf) as [_ Hnm]. rewrite Hnm.
  cbn [bind LGTemplate.name LGTemplate.variations LGTemplate.conditionalResponses].
  destruct (pushNew (LGTemplate.variations (deref (heap st) r))
                    (acceptedPayloads env (bodyOf chunk))) as [|v vs] eqn:Ep.
  { apply pushNew_nil_inv in Ep. tauto. }
  cbn [List.length Nat.eqb andb]. rewrite andb_false_r. reflexivity.
Qed.

Lemma map_deref_app (h extra : list LGTemplate.t) (refs : list nat) :
  Forall (fun r => r < List.length h) refs ->
  map (deref (h ++ extra)) refs = map (deref h) refs.
Proof.
  induction 1 as [|r refs Hr _ IH]; cbn [map]; [reflexivity|].
  rewrite IH, (deref_app h extra r Hr). reflexivity.
Qed.

Lemma findTemplate_after_new (h : list LGTemplate.t) (n : string) (refs : list nat)
      (tpl : LGTemplate.t) :
  Forall (fun r => r < List.length h) refs ->
  findTemplate h n refs = None ->
  LGTemplate.name tpl = n ->
  findTemplate (h ++ [tpl]) n (refs ++ [List.length h]) = Some (List.length h).
Proof.
  unfold findTemplate. intros Hwf Hf Hn.
  induction Hwf as [|r refs Hr _ IH]; cbn [find app].
  - rewrite deref_app_last, Hn, String.eqb_refl. reflexivity.
  - cbn [find] in Hf. rewrite (deref_app h [tpl] r Hr).
    destruct (String.eqb (LGTemplate.name (deref h r)) n); [discriminate|].
    apply IH. assumption.
Qed.

Lemma findTemplate_None_filter (h : list LGTemplate.t) (n : string) (refs : list nat) :
  findTemplate h n refs = None ->
  filter (fun tpl => String.eqb (LGTemplate.name tpl) n) (map (deref h) refs) = [].
Proof.
  unfold findTemplate.
  induction refs as [|r refs IH]; cbn [find map filter]; [reflexivity|].
  destruct (String.eqb (LGTemplate.name (deref h r)) n); [discriminate|].
  assumption.
Qed.

Lemma pushNew_In (vs : list string) :
  forall acc v, In v (pushNew acc vs) <-> In v acc \/ In v vs.
Proof.
  intros acc v. split; [|apply pushNew_incl].
  revert acc. induction vs as [|w vs IH]; intros acc; cbn [pushNew].
  - intros H. left. assumption.
  - intros H. apply IH in H. destruct H as [H|H]; [|right; right; assumption].
    destruct (JS.includes acc w); [left; assumption|].
    apply in_app_or in H. destruct H as [H|[<-|[]]]; [left; assumption|].
    right. left. reflexivity.
Qed.

Lemma toLG_array (chunks : list string) :
  chunks <> [] ->
  toLG env (JSArray chunks) =
    (st <- forEachChunk env initialState chunks ;; Returns (parsedObjOf st)).
Proof.
  intros H. unfold toLG. cbn [falsy instanceofArray negb].
  destruct chunks; [congruence|reflexivity].
Qed.

(** *** Two chunks for one template *)

(** Two chunks of variation lines for one template name, one right after
    the other at the end of the chunk list. *)
Lemma same_name_adjacent :
  forall (pre : list string) (st : ParserState env) (c1 c2 n : string),
    forEachChunk env initialState pre = Returns st ->
    findTemplate (heap st) n (LGTemplates st) = None ->
    flatChunk env n c1 ->
    flatChunk env n c2 ->
    n <> "" ->
    validateTemplateName env n = Returns tt ->
    acceptedPayloads env (bodyOf c1) <> [] ->
    let vs := pushNew [] (acceptedPayloads env (bodyOf c1) ++
                          acceptedPayloads env (bodyOf c2)) in
    exists res obj,
      toLG env (JSArray (pre ++ [c1; c2])) = Returns res /\
      LGParsedObj.LGObject res = Some obj /\
      LGObject.LGTemplates obj = (templatesOf st ++ [LGTemplate.mk n vs []])%list /\
      List.length (filter (fun tpl => String.eqb (LGTemplate.name tpl) n)
                          (LGObject.LGTemplates obj)) = 1 /\
      NoDup vs /\
      (forall v, In v vs <->
                 In v (acceptedPayloads env (bodyOf c1)) \/
                 In v (acceptedPayloads env (bodyOf c2))) /\
      (c2 = c1 ->
       exists res1 obj1,
         toLG env (JSArray (pre ++ [c1])) = Returns res1 /\
         LGParsedObj.LGObject res1 = Some obj1 /\
         LGObject.LGTemplates obj1 = LGObject.LGTemplates obj).
Proof.
  intros pre st c1 c2 n Hpre Hf H1 H2 Hn Hv Hacc vs.
  assert (Hwf : wfState st) by (apply (forEachChunk_wf pre _ _ initialState_wf Hpre)).
  pose proof (flatChunk_new st c1 n H1 Hn Hv Hf Hacc) as E1.
  set (t1 := LGTemplate.mk n (pushNew [] (acceptedPayloads env (bodyOf c1))) []) in *.
  set (st1 := {| heap := (heap st ++ [t1])%list;
                 LGTemplates := (LGTemplates st ++ [List.length (heap st)])%list;
                 entities := entitiesAfter env (bodyOf c1) (entities st);
                 additionalFilesToParse := additionalFilesToParse st |}) in *.
  assert (Hf1 : findTemplate (heap st1) n (LGTemplates st1) = Some (List.length (heap st))).
  { apply findTemplate_after_new; [exact Hwf|exact Hf|reflexivity]. }
  assert (Hd1 : deref (heap st1) (List.length (heap st)) = t1) by apply deref_app_last.
  assert (Hne1 : LGTemplate.variations (deref (heap st1) (List.length (heap st))) <> []).
  { rewrite Hd1. cbn [t1 LGTemplate.variations]. intros Ep.
    apply pushNew_nil_inv in Ep. tauto. }
  assert (Hstep : forall c, flatChunk env n c ->
            processChunk env st1 c =
              Returns {| heap := (heap st ++
                           [LGTemplate.mk n
                              (pushNew [] (acceptedPayloads env (bodyOf c1) ++
                                           acceptedPayloads env (bodyOf c))) []])%list;
                         LGTemplates := LGTemplates st1;
                         entities := entitiesAfter env (bodyOf c) (entities st1);
                         additionalFilesToParse := additionalFilesToParse st1 |}).
  { intros c Hc. rewrite (flatChunk_existing st1 c n _ Hc Hn Hf1 Hne1).
    rewrite Hd1. cbn [t1 LGTemplate.variations LGTemplate.conditionalResponses].
    cbn [st1 heap]. rewrite store_app_last, pushNew_app. reflexivity. }
  assert (Htpl : forall tpl : LGTemplate.t,
            map (deref (heap st ++ [tpl])) (LGTemplates st ++ [List.length (heap st)]) =
            (templatesOf st ++ [tpl])%list).
  { intros tpl. rewrite map_app. cbn [map]. rewrite deref_app_last.
    rewrite (map_deref_app _ _ _ Hwf). reflexivity. }
  eexists. eexists. split; [|split; [|split; [|split; [|split; [|split]]]]].
  - rewrite toLG_array by (destruct pre; discriminate).
    rewrite forEachChunk_app, Hpre. cbn [bind forEachChunk].
    rewrite E1. cbn [bind]. rewrite (Hstep c2 H2). cbn [bind]. reflexivity.
  - reflexivity.
  - cbn [LGObject.LGTemplates]. unfold templatesOf at 1.
    cbn [heap LGTemplates st1]. apply Htpl.
  - cbn [LGObject.LGTemplates]. unfold templatesOf at 1.
    cbn [heap LGTemplates st1]. rewrite Htpl, filter_app.
    unfold templatesOf. rewrite (findTemplate_None_filter _ _ _ Hf).
    cbn [filter LGTemplate.name app]. rewrite String.eqb_refl. reflexivity.
  - apply pushNew_NoDup. constructor.
  - intros v. unfold vs. rewrite pushNew_In, in_app_iff. cbn [In]. tauto.
  - intros ->. eexists. eexists. split; [|split].
    + rewrite toLG_array by (destruct pre; discriminate).
      rewrite forEachChunk_app, Hpre. cbn [bind forEachChunk].
      rewrite E1. cbn [bind]. reflexivity.
    + reflexivity.
    + cbn [LGObject.LGTemplates]. unfold templatesOf.
      cbn [heap LGTemplates st1]. rewrite !Htpl. f_equal. f_equal.
      unfold t1. f_equal. rewrite pushNew_app. symmetry. apply pushNew_idempotent.
Qed.

(** *** Blocks that receive variations *)

Lemma block_eta (b : LGConditionalResponse.t) :
  LGConditionalResponse.mk (LGConditionalResponse.condition b)
                           (LGConditionalResponse.variations b) = b.
Proof. destruct b; reflexivity. Qed.

Lemma extendAt_nil (blocks : list LGConditionalResponse.t) :
  forall i, extendAt i [] blocks = blocks.
Proof.
  induction blocks as [|b blocks IH]; intros [|i]; cbn [extendAt pushNew]; try reflexivity.
  - rewrite block_eta. reflexivity.
  - rewrite IH. reflexivity.
Qed.

Lemma extendAt_app (vs ws : list string) (blocks : list LGConditionalResponse.t) :
  forall i, extendAt i (vs ++ ws) blocks = extendAt i ws (extendAt i vs blocks).
Proof.
  induction blocks as [|b blocks IH]; intros [|i]; cbn [extendAt]; try reflexivity.
  - cbn [LGConditionalResponse.condition LGConditionalResponse.variations].
    rewrite pushNew_app. reflexivity.
  - rewrite IH. reflexivity.
Qed.

Lemma extendAt_length (vs : list string) (blocks : list LGConditionalResponse.t) :
  forall i, List.length (extendAt i vs blocks) = List.length blocks.
Proof.
  induction blocks as [|b blocks IH]; intros [|i]; cbn [extendAt List.length]; try reflexivity.
  rewrite IH. reflexivity.
Qed.

Lemma extendAt_conditions (vs : list string) (blocks : list LGConditionalResponse.t) :
  forall i, map LGConditionalResponse.condition (extendAt i vs blocks) =
            map LGConditionalResponse.condition blocks.
Proof.
  induction blocks as [|b blocks IH]; intros [|i]; cbn [extendAt map]; try reflexivity.
  rewrite IH. reflexivity.
Qed.

Lemma extendAt_one (p : string) (blocks : list LGConditionalResponse.t) :
  forall i b,
    nth_error blocks i = Some b ->
    extendAt i [p] blocks =
      if JS.includes (LGConditionalResponse.variations b) p then blocks
      else pushVariationAt i p blocks.
Proof.
  induction blocks as [|x blocks IH]; intros [|i] b; cbn [nth_error]; try discriminate.
  - intros H; inversion H; subst x. cbn [extendAt pushNew pushVariationAt].
    destruct (JS.includes (LGConditionalResponse.variations b) p).
    + rewrite block_eta. reflexivity.
    + reflexivity.
  - intros H. cbn [extendAt pushVariationAt]. rewrite (IH i b H).
    destruct (JS.includes (LGConditionalResponse.variations b) p); reflexivity.
Qed.

Lemma extendAt_last (vs : list string) (blocks : list LGConditionalResponse.t)
      (b : LGConditionalResponse.t) :
  extendAt (List.length blocks) vs (blocks ++ [b]) =
    (blocks ++ [LGConditionalResponse.mk (LGConditionalResponse.condition b)
                  (pushNew (LGConditionalResponse.variations b) vs)])%list.
Proof.
  induction blocks as [|x blocks IH]; cbn [extendAt app List.length]; [reflexivity|].
  rewrite IH. reflexivity.
Qed.

Lemma pushVariationAt_length (p : string) (blocks : list LGConditionalResponse.t) :
  forall i, List.length (pushVariationAt i p blocks) = List.length blocks.
Proof.
  induction blocks as [|b blocks IH]; intros [|i]; cbn [pushVariationAt List.length];
    try reflexivity.
  rewrite IH. reflexivity.
Qed.

Lemma findCondition_lt (c : string) (blocks : list LGConditionalResponse.t) :
  forall i, findCondition c blocks = Some i -> i < List.length blocks.
Proof.
  induction blocks as [|b blocks IH]; intros i; cbn [findCondition List.length];
    [discriminate|].
  destruct (String.eqb (LGConditionalResponse.condition b) c).
  - intros H; inversion H; lia.
  - destruct (findCondition c blocks) as [j|]; cbn [option_map]; [|discriminate].
    intros H; inversion H. specialize (IH j eq_refl). lia.
Qed.

(** *** Inside a conditional response *)

Lemma addVariation_section (bs : BodyState env) (es : list (Entity env))
      (p : string) (valid : bool) :
  InSection env bs ->
  validateVariationItem (validators env) p = Returns valid ->
  exists bs',
    addVariation env bs es p = Returns bs' /\
    InSection env bs' /\
    currentIndex env bs' = currentIndex env bs /\
    blocksOf env bs' =
      extendAt (currentIndex env bs) (if valid then [p] else []) (blocksOf env bs) /\
    LGTemplate.name (cLGTemplate bs') = LGTemplate.name (cLGTemplate bs) /\
    LGTemplate.variations (cLGTemplate bs') = LGTemplate.variations (cLGTemplate bs) /\
    bodyEntities bs' = es /\
    pushAtEnd bs' = pushAtEnd bs.
Proof.
  destruct bs as [tpl es0 flag inc item].
  unfold InSection, addVariation, currentIndex, blocksOf.
  cbn [inConditionalResponses conditionalResponseItem pushAtEnd cLGTemplate].
  intros [-> Hitem] Hv. rewrite Hv. cbn [bind].
  destruct item as [|i|b]; [destruct Hitem| |].
  - destruct Hitem as [-> Hi].
    destruct (nth_error (LGTemplate.conditionalResponses tpl) i) as [b|] eqn:En.
    2:{ apply nth_error_None in En. lia. }
    cbn [bind]. eexists. split; [reflexivity|].
    cbn [inConditionalResponses conditionalResponseItem pushAtEnd cLGTemplate bodyEntities].
    destruct valid; cbn [andb].
    + rewrite (extendAt_one p _ i b En).
      destruct (JS.includes (LGConditionalResponse.variations b) p); cbn [negb].
      * repeat split; assumption.
      * cbn [LGTemplate.setConditionalResponses LGTemplate.conditionalResponses
             LGTemplate.name LGTemplate.variations].
        rewrite pushVariationAt_length. repeat split; assumption.
    + rewrite extendAt_nil. repeat split; assumption.
  - eexists. split; [reflexivity|].
    cbn [inConditionalResponses conditionalResponseItem pushAtEnd cLGTemplate bodyEntities].
    rewrite extendAt_last.
    destruct valid; cbn [andb pushNew].
    + destruct (JS.includes (LGConditionalResponse.variations b) p); cbn [negb].
      * rewrite block_eta. repeat split; assumption.
      * repeat split; assumption.
    + rewrite block_eta. repeat split; assumption.
Qed.

Lemma section_lines (lines : list string) :
  forall bs : BodyState env,
    InSection env bs ->
    Forall (fun l => isVariationLine env l = true /\ variationChecked env l) lines ->
    exists bs',
      processLines env bs lines = Returns bs' /\
      InSection env bs' /\
      currentIndex env bs' = currentIndex env bs /\
      blocksOf env bs' =
        extendAt (currentIndex env bs) (acceptedPayloads env lines) (blocksOf env bs) /\
      LGTemplate.name (cLGTemplate bs') = LGTemplate.name (cLGTemplate bs) /\
      LGTemplate.variations (cLGTemplate bs') = LGTemplate.variations (cLGTemplate bs) /\
      pushAtEnd bs' = pushAtEnd bs.
Proof.
  induction lines as [|line lines IH]; intros bs Hin Hall.
  - exists bs. cbn [processLines]. unfold acceptedPayloads. cbn [filter map].
    rewrite extendAt_nil. auto 10.
  - inversion Hall as [|l ls [Hv [valid Hc]] Hrest]; subst.
    cbn [processLines]. rewrite (processLine_variation bs line Hv).
    destruct (addVariation_section bs
                (addEntities env (parseEntity env (removeTemplateLinkReferences line))
                             (bodyEntities bs))
                (payload line) valid Hin Hc)
      as [bs1 [E1 [Hin1 [Hcur1 [Hb1 [Hn1 [Hv1 [_ Hp1]]]]]]]].
    rewrite E1. cbn [bind].
    destruct (IH bs1 Hin1 Hrest) as [bs2 [E2 [Hin2 [Hcur2 [Hb2 [Hn2 [Hv2 Hp2]]]]]]].
    exists bs2. rewrite E2. split; [reflexivity|]. split; [assumption|].
    split; [congruence|]. split; [|split; [|split]; congruence].
    rewrite Hb2, Hb1, Hcur1, <- extendAt_app. f_equal.
    unfold acceptedPayloads. cbn [filter]. unfold accepted at 2. rewrite Hc.
    destruct valid; reflexivity.
Qed.

(** *** Condition lines *)

Lemma flushItem_blocks (bs : BodyState env) :
  Ready env bs ->
  exists tpl,
    flushItem env bs = Returns tpl /\
    LGTemplate.conditionalResponses tpl = blocksOf env bs /\
    LGTemplate.name tpl = LGTemplate.name (cLGTemplate bs) /\
    LGTemplate.variations tpl = LGTemplate.variations (cLGTemplate bs).
Proof.
  destruct bs as [tpl es flag inc item].
  unfold Ready, InSection, flushItem, blocksOf.
  cbn [inConditionalResponses conditionalResponseItem pushAtEnd cLGTemplate].
  intros [[-> ->]|[-> Hitem]]; cbn [andb].
  - exists tpl. auto.
  - destruct item as [|i|b]; [destruct Hitem| |].
    + destruct Hitem as [-> _]. exists tpl. auto.
    + rewrite Hitem. eexists. split; [reflexivity|]. auto.
Qed.

Lemma condition_step (bs : BodyState env) (line : string) :
  Ready env bs ->
  isConditionLine env line = true ->
  validateCondition (validators env) (conditionOf env line) true = Returns tt ->
  exists bs',
    processLine env bs line = Returns bs' /\
    InSection env bs' /\
    blocksOf env bs' =
      match findCondition (conditionOf env line) (blocksOf env bs) with
      | Some _ => blocksOf env bs
      | None => (blocksOf env bs ++
                 [LGConditionalResponse.new (conditionOf env line)])%list
      end /\
    currentIndex env bs' =
      match findCondition (conditionOf env line) (blocksOf env bs) with
      | Some i => i
      | None => List.length (blocksOf env bs)
      end /\
    LGTemplate.name (cLGTemplate bs') = LGTemplate.name (cLGTemplate bs) /\
    LGTemplate.variations (cLGTemplate bs') = LGTemplate.variations (cLGTemplate bs) /\
    pushAtEnd bs' =
      match findCondition (conditionOf env line) (blocksOf env bs) with
      | Some _ => false
      | None => true
      end.
Proof.
  intros Hr Hl Hv. rewrite (processLine_condition bs line Hl).
  destruct (flushItem_blocks bs Hr) as [tpl [Ef [Hb [Hn Hvs]]]].
  rewrite Ef. cbn [bind]. unfold selectItem. rewrite Hv, Hb. cbn [bind].
  destruct (findCondition (conditionOf env line) (blocksOf env bs)) as [i|] eqn:Efc.
  - pose proof (findCondition_lt _ _ _ Efc) as Hlt.
    assert (Hpos : Nat.ltb 0 (List.length (blocksOf env bs)) = true)
      by (apply Nat.ltb_lt; lia).
    rewrite Hpos. eexists. split; [reflexivity|].
    unfold InSection, blocksOf, currentIndex.
    cbn [inConditionalResponses conditionalResponseItem pushAtEnd cLGTemplate].
    rewrite Hb. auto 10.
  - eexists. split.
    + destruct (Nat.ltb 0 (List.length (blocksOf env bs))); reflexivity.
    + unfold InSection, blocksOf, currentIndex.
      cbn [inConditionalResponses conditionalResponseItem pushAtEnd cLGTemplate].
      rewrite Hb. auto 10.
Qed.

(** A condition line and its variation lines act on the list of blocks
    as [mergeSection] says. *)
Lemma section_run (bs : BodyState env) (s : BodySection) :
  Ready env bs ->
  wellFormedSection env s ->
  exists bs',
    processLines env bs (fst s :: snd s) = Returns bs' /\
    Ready env bs' /\
    blocksOf env bs' =
      mergeSection (blocksOf env bs) (conditionOf env (fst s))
                   (acceptedPayloads env (snd s)) /\
    LGTemplate.name (cLGTemplate bs') = LGTemplate.name (cLGTemplate bs) /\
    LGTemplate.variations (cLGTemplate bs') = LGTemplate.variations (cLGTemplate bs) /\
    pushAtEnd bs' =
      match findCondition (conditionOf env (fst s)) (blocksOf env bs) with
      | Some _ => false
      | None => true
      end.
Proof.
  intros Hr [Hl [Hv Hlines]]. cbn [processLines].
  destruct (condition_step bs (fst s) Hr Hl Hv)
    as [bs1 [E1 [Hin1 [Hb1 [Hc1 [Hn1 [Hv1 Hp1]]]]]]].
  rewrite E1. cbn [bind].
  destruct (section_lines (snd s) bs1 Hin1 Hlines)
    as [bs2 [E2 [Hin2 [Hc2 [Hb2 [Hn2 [Hv2 Hp2]]]]]]].
  exists bs2. split; [exact E2|]. split; [right; exact Hin2|].
  split; [|split; [|split]; congruence].
  rewrite Hb2, Hb1, Hc1. unfold mergeSection.
  destruct (findCondition (conditionOf env (fst s)) (blocksOf env bs)); [reflexivity|].
  rewrite extendAt_last. reflexivity.
Qed.

Lemma sections_run (sections : list BodySection) :
  forall bs : BodyState env,
    Ready env bs ->
    Forall (wellFormedSection env) sections ->
    exists bs',
      processLines env bs (linesOf sections) = Returns bs' /\
      Ready env bs' /\
      blocksOf env bs' = mergeSections env sections (blocksOf env bs) /\
      LGTemplate.name (cLGTemplate bs') = LGTemplate.name (cLGTemplate bs) /\
      LGTemplate.variations (cLGTemplate bs') = LGTemplate.variations (cLGTemplate bs).
Proof.
  induction sections as [|s sections IH]; intros bs Hr Hall.
  - exists bs. cbn. auto.
  - inversion Hall as [|x xs Hs Hrest]; subst.
    destruct (section_run bs s Hr Hs) as [bs1 [E1 [Hr1 [Hb1 [Hn1 [Hv1 _]]]]]].
    destruct (IH bs1 Hr1 Hrest) as [bs2 [E2 [Hr2 [Hb2 [Hn2 Hv2]]]]].
    exists bs2. split; [|split; [assumption|split; [|split; congruence]]].
    + unfold linesOf. cbn [flat_map].
      change (fst s :: snd s ++ flat_map (fun s0 => fst s0 :: snd s0) sections)%list
        with ((fst s :: snd s) ++ linesOf sections)%list.
      rewrite processLines_app, E1. cbn [bind]. exact E2.
    + rewrite Hb2, Hb1. reflexivity.
Qed.

(** *** What [mergeSections] builds *)

Lemma includes_conditions (c : string) (blocks : list LGConditionalResponse.t) :
  JS.includes (map LGConditionalResponse.condition blocks) c =
    match findCondition c blocks with
    | Some _ => true
    | None => false
    end.
Proof.
  unfold JS.includes.
  induction blocks as [|b blocks IH]; cbn [map existsb findCondition]; [reflexivity|].
  rewrite String.eqb_sym.
  destruct (String.eqb (LGConditionalResponse.condition b) c); cbn [orb]; [reflexivity|].
  rewrite IH. destruct (findCondition c blocks); reflexivity.
Qed.

Lemma mergeSection_conditions (blocks : list LGConditionalResponse.t)
      (c : string) (vs : list string) :
  map LGConditionalResponse.condition (mergeSection blocks c vs) =
    pushNew (map LGConditionalResponse.condition blocks) [c].
Proof.
  unfold mergeSection. cbn [pushNew]. rewrite includes_conditions.
  destruct (findCondition c blocks).
  - apply extendAt_conditions.
  - rewrite map_app. reflexivity.
Qed.

Lemma mergeSections_conditions (sections : list BodySection) :
  forall blocks,
    map LGConditionalResponse.condition (mergeSections env sections blocks) =
      pushNew (map LGConditionalResponse.condition blocks)
              (map (fun s => conditionOf env (fst s)) sections).
Proof.
  unfold mergeSections.
  induction sections as [|s sections IH]; intros blocks; cbn [fold_left map pushNew];
    [reflexivity|].
  rewrite IH, mergeSection_conditions. reflexivity.
Qed.

Lemma varsOf_absent (c : string) (blocks : list LGConditionalResponse.t) :
  findCondition c blocks = None -> varsOf c blocks = [].
Proof.
  induction blocks as [|b blocks IH]; cbn [findCondition varsOf]; [reflexivity|].
  destruct (String.eqb (LGConditionalResponse.condition b) c); [discriminate|].
  destruct (findCondition c blocks); [discriminate|]. intros _. apply IH. reflexivity.
Qed.

Lemma varsOf_app (c : string) (blocks extra : list LGConditionalResponse.t) :
  varsOf c (blocks ++ extra) =
    match findCondition c blocks with
    | Some _ => varsOf c blocks
    | None => varsOf c extra
    end.
Proof.
  induction blocks as [|b blocks IH]; cbn [findCondition varsOf app]; [reflexivity|].
  destruct (String.eqb (LGConditionalResponse.condition b) c); [reflexivity|].
  rewrite IH. destruct (findCondition c blocks); reflexivity.
Qed.

Lemma varsOf_extendAt (c c' : string) (vs : list string)
      (blocks : list LGConditionalResponse.t) :
  forall i,
    findCondition c blocks = Some i ->
    varsOf c' (extendAt i vs blocks) =
      if String.eqb c c' then pushNew (varsOf c' blocks) vs else varsOf c' blocks.
Proof.
  induction blocks as [|b blocks IH]; intros i; cbn [findCondition]; [discriminate|].
  destruct (String.eqb (LGConditionalResponse.condition b) c) eqn:Eb.
  - intros H; inversion H; subst i. cbn [extendAt varsOf LGConditionalResponse.condition
                                         LGConditionalResponse.variations].
    apply String.eqb_eq in Eb. rewrite Eb.
    destruct (String.eqb c c'); reflexivity.
  - destruct (findCondition c blocks) as [j|]; cbn [option_map]; [|discriminate].
    intros H; inversion H; subst i. cbn [extendAt varsOf].
    rewrite (IH j eq_refl).
    destruct (String.eqb (LGConditionalResponse.condition b) c') eqn:Eb'; [|reflexivity].
    apply String.eqb_eq in Eb'. rewrite Eb' in Eb. rewrite String.eqb_sym, Eb. reflexivity.
Qed.

Lemma varsOf_mergeSection (blocks : list LGConditionalResponse.t)
      (c c' : string) (vs : list string) :
  varsOf c' (mergeSection blocks c vs) =
    if String.eqb c c' then pushNew (varsOf c' blocks) vs else varsOf c' blocks.
Proof.
  unfold mergeSection.
  destruct (findCondition c blocks) as [i|] eqn:Ef.
  - apply varsOf_extendAt. assumption.
  - rewrite varsOf_app.
    destruct (String.eqb c c') eqn:Ec.
    + apply String.eqb_eq in Ec. subst c'. rewrite Ef, (varsOf_absent c blocks Ef).
      cbn [varsOf LGConditionalResponse.condition LGConditionalResponse.variations].
      rewrite String.eqb_refl. reflexivity.
    + destruct (findCondition c' blocks) eqn:Ef'; [reflexivity|].
      cbn [varsOf LGConditionalResponse.condition]. rewrite Ec.
      symmetry. apply varsOf_absent. assumption.
Qed.

Lemma varsOf_mergeSections (c : string) (sections : list BodySection) :
  forall blocks,
    varsOf c (mergeSections env sections blocks) =
      pushNew (varsOf c blocks) (variationsUnder env c sections).
Proof.
  unfold mergeSections, variationsUnder.
  induction sections as [|s sections IH]; intros blocks; cbn [fold_left flat_map];
    [reflexivity|].
  rewrite IH, varsOf_mergeSection, pushNew_app.
  destruct (String.eqb (conditionOf env (fst s)) c); reflexivity.
Qed.

Lemma varsOf_In (blocks : list LGConditionalResponse.t) (b : LGConditionalResponse.t) :
  NoDup (map LGConditionalResponse.condition blocks) ->
  In b blocks ->
  varsOf (LGConditionalResponse.condition b) blocks = LGConditionalResponse.variations b.
Proof.
  induction blocks as [|x blocks IH]; cbn [map In varsOf]; [intros _ []|].
  intros Hnd [->|Hin].
  - rewrite String.eqb_refl. reflexivity.
  - inversion Hnd as [|y ys Hx Hrest]; subst.
    destruct (String.eqb (LGConditionalResponse.condition x)
                         (LGConditionalResponse.condition b)) eqn:E.
    + apply String.eqb_eq in E. exfalso. apply Hx. rewrite E.
      apply in_map. assumption.
    + apply IH; assumption.
Qed.

(** *** Condition lines of one template *)

(** On the template object the line loop writes to: the body of a
    template that has no conditional response yet, made
    of condition lines each followed by variation lines: the template
    gets one conditional response for each condition text, in the order
    in which the texts are first met, and the variations of a conditional
    response are those given under its text by all the sections, in
    their order, each string once.  Lines with the same condition text
    thus share one conditional response, lines with different texts have
    one each. *)
Theorem condition_lines_merge :
  forall (bs0 : BodyState env) (sections : list BodySection),
    inConditionalResponses bs0 = false ->
    conditionalResponseItem bs0 = ItemNull ->
    LGTemplate.conditionalResponses (cLGTemplate bs0) = [] ->
    Forall (wellFormedSection env) sections ->
    exists bs tpl,
      processLines env bs0 (linesOf sections) = Returns bs /\
      flushItem env bs = Returns tpl /\
      LGTemplate.name tpl = LGTemplate.name (cLGTemplate bs0) /\
      LGTemplate.variations tpl = LGTemplate.variations (cLGTemplate bs0) /\
      map LGConditionalResponse.condition (LGTemplate.conditionalResponses tpl) =
        pushNew [] (map (fun s => conditionOf env (fst s)) sections) /\
      forall b,
        In b (LGTemplate.conditionalResponses tpl) ->
        LGConditionalResponse.variations b =
          pushNew [] (variationsUnder env (LGConditionalResponse.condition b) sections).
Proof.
  intros bs0 sections Hinc Hitem Hnil Hall.
  assert (Hr0 : Ready env bs0) by (left; split; assumption).
  assert (Hb0 : blocksOf env bs0 = []) by (unfold blocksOf; rewrite Hitem; exact Hnil).
  destruct (sections_run sections bs0 Hr0 Hall) as [bs [E [Hr [Hb [Hn Hv]]]]].
  destruct (flushItem_blocks bs Hr) as [tpl [Ef [Hbt [Hnt Hvt]]]].
  exists bs, tpl. rewrite Hb0 in Hb.
  assert (Hconds : map LGConditionalResponse.condition (LGTemplate.conditionalResponses tpl) =
                   pushNew [] (map (fun s => conditionOf env (fst s)) sections)).
  { rewrite Hbt, Hb. apply (mergeSections_conditions sections []). }
  repeat (split; [first [assumption|congruence]|]).
  intros b Hin.
  rewrite <- (varsOf_In (LGTemplate.conditionalResponses tpl) b).
  - rewrite Hbt, Hb. apply (varsOf_mergeSections _ sections []).
  - rewrite Hconds. apply pushNew_NoDup. constructor.
  - assumption.
Qed.

(** Two condition lines with the same condition text: one conditional
    response, with the variations of both. *)
Corollary same_condition_twice :
  forall (bs0 : BodyState env) (s1 s2 : BodySection),
    inConditionalResponses bs0 = false ->
    conditionalResponseItem bs0 = ItemNull ->
    LGTemplate.conditionalResponses (cLGTemplate bs0) = [] ->
    wellFormedSection env s1 ->
    wellFormedSection env s2 ->
    conditionOf env (fst s1) = conditionOf env (fst s2) ->
    exists bs tpl,
      processLines env bs0 (linesOf [s1; s2]) = Returns bs /\
      flushItem env bs = Returns tpl /\
      LGTemplate.conditionalResponses tpl =
        [LGConditionalResponse.mk (conditionOf env (fst s1))
           (pushNew [] (acceptedPayloads env (snd s1) ++
                        acceptedPayloads env (snd s2)))].
Proof.
  intros bs0 s1 s2 Hinc Hitem Hnil H1 H2 Heq.
  assert (Hr0 : Ready env bs0) by (left; split; assumption).
  assert (Hb0 : blocksOf env bs0 = []) by (unfold blocksOf; rewrite Hitem; exact Hnil).
  destruct (sections_run [s1; s2] bs0 Hr0 (Forall_cons _ H1 (Forall_cons _ H2 (Forall_nil _))))
    as [bs [E [Hr [Hb _]]]].
  destruct (flushItem_blocks bs Hr) as [tpl [Ef [Hbt _]]].
  exists bs, tpl. split; [assumption|]. split; [assumption|].
  rewrite Hbt, Hb, Hb0. unfold mergeSections. cbn [fold_left].
  unfold mergeSection at 2. cbn [findCondition app].
  unfold mergeSection. cbn [findCondition LGConditionalResponse.condition].
  rewrite <- Heq, String.eqb_refl. cbn [extendAt LGConditionalResponse.condition
                                         LGConditionalResponse.variations].
  rewrite pushNew_app. reflexivity.
Qed.

(** Two condition lines with different condition texts: two conditional
    responses, in the order of the lines. *)
Corollary different_conditions :
  forall (bs0 : BodyState env) (s1 s2 : BodySection),
    inConditionalResponses bs0 = false ->
    conditionalResponseItem bs0 = ItemNull ->
    LGTemplate.conditionalResponses (cLGTemplate bs0) = [] ->
    wellFormedSection env s1 ->
    wellFormedSection env s2 ->
    conditionOf env (fst s1) <> conditionOf env (fst s2) ->
    exists bs tpl,
      processLines env bs0 (linesOf [s1; s2]) = Returns bs /\
      flushItem env bs = Returns tpl /\
      LGTemplate.conditionalResponses tpl =
        [LGConditionalResponse.mk (conditionOf env (fst s1))
           (pushNew [] (acceptedPayloads env (snd s1)));
         LGConditionalResponse.mk (conditionOf env (fst s2))
           (pushNew [] (acceptedPayloads env (snd s2)))].
Proof.
  intros bs0 s1 s2 Hinc Hitem Hnil H1 H2 Hne.
  assert (Hr0 : Ready env bs0) by (left; split; assumption).
  assert (Hb0 : blocksOf env bs0 = []) by (unfold blocksOf; rewrite Hitem; exact Hnil).
  destruct (sections_run [s1; s2] bs0 Hr0 (Forall_cons _ H1 (Forall_cons _ H2 (Forall_nil _))))
    as [bs [E [Hr [Hb _]]]].
  destruct (flushItem_blocks bs Hr) as [tpl [Ef [Hbt _]]].
  exists bs, tpl. split; [assumption|]. split; [assumption|].
  rewrite Hbt, Hb, Hb0. unfold mergeSections. cbn [fold_left].
  unfold mergeSection at 2. cbn [findCondition app].
  unfold mergeSection. cbn [findCondition LGConditionalResponse.condition].
  apply String.eqb_neq in Hne. rewrite Hne. reflexivity.
Qed.

(** *** Entities *)

Lemma hasEntity_In (n : string) (es : list (Entity env)) :
  hasEntity env n es = true <-> In n (map LGEntity.name es).
Proof.
  unfold hasEntity. rewrite existsb_exists, in_map_iff. split.
  - intros [e [Hin E]]. apply String.eqb_eq in E. exists e. split; assumption.
  - intros [e [E Hin]]. exists e. split; [assumption|]. apply String.eqb_eq. assumption.
Qed.

Lemma addEntities_grows (found : list string) :
  forall es : list (Entity env),
    NoDup (map LGEntity.name es) ->
    NoDup (map LGEntity.name (addEntities env found es)) /\
    exists extra, addEntities env found es = (es ++ extra)%list.
Proof.
  induction found as [|item found IH]; intros es Hnd; cbn [addEntities].
  - split; [assumption|]. exists []. rewrite app_nil_r. reflexivity.
  - destruct (hasEntity env item es) eqn:E.
    + apply IH. assumption.
    + destruct (IH (es ++ [newLGEntity env item None []])%list) as [Hnd' [extra Hx]].
      * rewrite map_app. cbn [map newLGEntity LGEntity.name].
        apply NoDup_app; [assumption|repeat constructor; intros []|].
        intros x Hx [<-|[]]. apply hasEntity_In in Hx. congruence.
      * split; [assumption|]. eexists. rewrite Hx, <- app_assoc. reflexivity.
Qed.

Lemma entitiesAfter_grows (lines : list string) :
  forall es : list (Entity env),
    NoDup (map LGEntity.name es) ->
    NoDup (map LGEntity.name (entitiesAfter env lines es)) /\
    exists extra, entitiesAfter env lines es = (es ++ extra)%list.
Proof.
  unfold entitiesAfter.
  induction lines as [|line lines IH]; intros es Hnd; cbn [fold_left].
  - split; [assumption|]. exists []. rewrite app_nil_r. reflexivity.
  - destruct (addEntities_grows (parseEntity env (removeTemplateLinkReferences line)) es Hnd)
      as [Hnd1 [x1 E1]].
    destruct (IH _ Hnd1) as [Hnd2 [x2 E2]].
    split; [assumption|]. exists (x1 ++ x2)%list. rewrite E2, E1, <- app_assoc. reflexivity.
Qed.

Lemma processLine_entities (bs bs' : BodyState env) (line : string) :
  processLine env bs line = Returns bs' ->
  bodyEntities bs' =
    addEntities env (parseEntity env (removeTemplateLinkReferences line)) (bodyEntities bs).
Proof.
  unfold processLine.
  destruct (negb (hasListDecoration _)); [discriminate|].
  destruct (Z.eqb (JS.indexOf (CONDITION (parserConsts env)) _) 0).
  - destruct (flushItem env bs) as [tpl|e]; cbn [bind]; [|discriminate].
    intros H. apply selectItem_template in H. tauto.
  - destruct (Z.eqb (JS.indexOf (DEFAULT (parserConsts env)) _) 0).
    + destruct (flushItem env bs) as [tpl|e]; cbn [bind]; [|discriminate].
      intros H. apply selectItem_template in H. tauto.
    + intros H. apply addVariation_name in H. tauto.
Qed.

Lemma processLines_entities (lines : list string) :
  forall bs bs' : BodyState env,
    processLines env bs lines = Returns bs' ->
    bodyEntities bs' = entitiesAfter env lines (bodyEntities bs).
Proof.
  unfold entitiesAfter.
  induction lines as [|line lines IH]; intros bs bs'; cbn [processLines fold_left].
  - intros H; inversion H; reflexivity.
  - destruct (processLine env bs line) as [bs1|e] eqn:E; cbn [bind]; [|discriminate].
    intros H. rewrite (IH _ _ H), (processLine_entities _ _ _ E). reflexivity.
Qed.

Lemma setFirstEntityType_names (n : string) (ty : EntityType env) (es : list (Entity env)) :
  map LGEntity.name (setFirstEntityType env n ty es) = map LGEntity.name es /\
  map LGEntity.attributes (setFirstEntityType env n ty es) = map LGEntity.attributes es.
Proof.
  induction es as [|e es [IHn IHa]]; cbn [setFirstEntityType map]; [split; reflexivity|].
  destruct (String.eqb (LGEntity.name e) n); cbn [map]; [split; reflexivity|].
  rewrite IHn, IHa. split; reflexivity.
Qed.

Lemma entitiesNamed_absent (n : string) (es : list (Entity env)) :
  ~ In n (map LGEntity.name es) -> entitiesNamed env n es = [].
Proof.
  unfold entitiesNamed.
  induction es as [|e es IH]; cbn [map In filter]; [reflexivity|].
  intros H. destruct (String.eqb (LGEntity.name e) n) eqn:E.
  - apply String.eqb_eq in E. tauto.
  - apply IH. tauto.
Qed.

(** With names that are all different, the entity named [n] is the only
    one of that name after its type has been set, and it keeps the
    attributes it had. *)
Lemma setFirstEntityType_named (n : string) (ty : EntityType env) (es : list (Entity env)) :
  NoDup (map LGEntity.name es) ->
  hasEntity env n es = true ->
  exists e,
    In e es /\ LGEntity.name e = n /\
    entitiesNamed env n (setFirstEntityType env n ty es) =
      [LGEntity.mk n ty (LGEntity.attributes e)].
Proof.
  unfold entitiesNamed.
  induction es as [|e es IH]; cbn [map hasEntity existsb setFirstEntityType];
    [discriminate|].
  intros Hnd Hhas. inversion Hnd as [|x xs Hx Hrest]; subst.
  destruct (String.eqb (LGEntity.name e) n) eqn:E.
  - apply String.eqb_eq in E. exists e. split; [left; reflexivity|]. split; [assumption|].
    unfold LGEntity.setEntityType. cbn [filter LGEntity.name].
    rewrite E, String.eqb_refl.
    fold (entitiesNamed env n es). rewrite entitiesNamed_absent; [reflexivity|].
    rewrite <- E. assumption.
  - cbn [orb] in Hhas. destruct (IH Hrest Hhas) as [e' [Hin [Hn Hf]]].
    exists e'. split; [right; assumption|]. split; [assumption|].
    cbn [filter]. rewrite E. assumption.
Qed.

Lemma entityChunk_unfold (st : ParserState env) (chunk : string) :
  isEntityChunk env chunk = true ->
  processChunk env st chunk =
    if negb (Nat.eqb (List.length (entityDefOf env chunk)) 2) then
      Throws (ThrownException INVALID_ENTITY_DEFINITION
                (invalidEntityText (nth 0 (JS.splitLines (JS.trim chunk)) "")))
    else if hasEntity env (entityNameOf env chunk) (entities st) then
      ty <- getEntityType env (entityTypeOf env chunk) ;;
      Returns {| heap := heap st;
                 LGTemplates := LGTemplates st;
                 entities := setFirstEntityType env (entityNameOf env chunk) ty (entities st);
                 additionalFilesToParse := additionalFilesToParse st |}
    else
      Returns {| heap := heap st;
                 LGTemplates := LGTemplates st;
                 entities := (entities st ++
                              [newLGEntity env (entityNameOf env chunk)
                                 (Some (entityTypeOf env chunk))
                                 (entityAttributesOf env chunk)])%list;
                 additionalFilesToParse := additionalFilesToParse st |}.
Proof.
  unfold isEntityChunk, isTemplateChunk, processChunk. intros H.
  apply andb_prop in H. destruct H as [H He]. apply andb_prop in H. destruct H as [Ht Hf].
  apply negb_true_iff in Ht. apply negb_true_iff in Hf.
  rewrite Ht, Hf, He. reflexivity.
Qed.

(** The chunk loop keeps the names of the entities different from one
    another and keeps every entity name it has met. *)
Lemma processChunk_entities (st st' : ParserState env) (chunk : string) :
  NoDup (map LGEntity.name (entities st)) ->
  processChunk env st chunk = Returns st' ->
  NoDup (map LGEntity.name (entities st')) /\
  forall n, hasEntity env n (entities st) = true -> hasEntity env n (entities st') = true.
Proof.
  intros Hnd.
  destruct (isTemplateChunk env chunk) eqn:Ht.
  - rewrite (processChunk_template st chunk Ht), templateChunk_unfold.
    destruct (selectTemplate env st (templateNameOf chunk)) as [sel|e]; cbn [bind];
      [|discriminate].
    destruct (processLines env _ (bodyOf chunk)) as [bs|e] eqn:Ep; cbn [bind];
      [|discriminate].
    destruct (flushItem env bs) as [tpl|e]; cbn [bind]; [|discriminate].
    destruct (Nat.eqb _ 0 && Nat.eqb _ 0); [discriminate|].
    intros H; inversion H; subst st'; clear H. cbn [entities].
    rewrite (processLines_entities _ _ _ Ep).
    assert (Hs : bodyEntities (startOfBody env st sel) = entities st)
      by (destruct sel as [[h r] flag]; reflexivity).
    rewrite Hs.
    destruct (entitiesAfter_grows (bodyOf chunk) (entities st) Hnd) as [Hnd' [extra Hx]].
    split; [assumption|].
    intros n Hn. rewrite Hx. apply hasEntity_In. rewrite map_app. apply in_or_app.
    left. apply hasEntity_In. assumption.
  - destruct (isEntityChunk env chunk) eqn:He.
    + rewrite (entityChunk_unfold st chunk He).
      destruct (negb _); [discriminate|].
      destruct (hasEntity env (entityNameOf env chunk) (entities st)) eqn:Eh.
      * destruct (getEntityType env _) as [ty|e]; cbn [bind]; [|discriminate].
        intros H; inversion H; subst st'; clear H. cbn [entities].
        destruct (setFirstEntityType_names (entityNameOf env chunk) ty (entities st))
          as [Hn _].
        split; [rewrite Hn; assumption|].
        intros n Hin. apply hasEntity_In. rewrite Hn. apply hasEntity_In. assumption.
      * intros H; inversion H; subst st'; clear H. cbn [entities]. split.
        -- rewrite map_app. cbn [map newLGEntity LGEntity.name].
           apply NoDup_app; [assumption|repeat constructor; intros []|].
           intros x Hx [<-|[]]. apply hasEntity_In in Hx. congruence.
        -- intros n Hn. apply hasEntity_In. rewrite map_app. apply in_or_app. left.
           apply hasEntity_In. assumption.
    + unfold processChunk. unfold isEntityChunk in He. unfold isTemplateChunk in Ht, He.
      rewrite Ht in *. cbn [negb andb] in He.
      destruct (Z.eqb (JS.indexOf (FILEREF (parserConsts env)) _) 0).
      * unfold fileRefChunk. destruct (JS.firstParenMatch _); [|discriminate].
        destruct (String.eqb _ ""); [discriminate|].
        intros H; inversion H; subst st'. cbn [entities]. split; [assumption|auto].
      * cbn [negb andb] in He. rewrite He. discriminate.
Qed.

Lemma forEachChunk_entities (chunks : list string) :
  forall st st' : ParserState env,
    NoDup (map LGEntity.name (entities st)) ->
    forEachChunk env st chunks = Returns st' ->
    NoDup (map LGEntity.name (entities st')) /\
    forall n, hasEntity env n (entities st) = true -> hasEntity env n (entities st') = true.
Proof.
  induction chunks as [|chunk chunks IH]; intros st st' Hnd; cbn [forEachChunk].
  - intros H; inversion H; subst. split; [assumption|auto].
  - destruct (processChunk env st chunk) as [st1|e] eqn:E; cbn [bind]; [|discriminate].
    intros H. destruct (processChunk_entities st st1 chunk Hnd E) as [Hnd1 Hm1].
    destruct (IH st1 st' Hnd1 H) as [Hnd2 Hm2]. split; [assumption|auto].
Qed.

Lemma initialState_entities : NoDup (map LGEntity.name (entities (@initialState env))).
Proof. constructor. Qed.

Lemma entityChunk_existing (st : ParserState env) (chunk n ty : string) (t : EntityType env) :
  entityDefinition env chunk n ty ->
  hasEntity env n (entities st) = true ->
  getEntityType env ty = Returns t ->
  processChunk env st chunk =
    Returns {| heap := heap st;
               LGTemplates := LGTemplates st;
               entities := setFirstEntityType env n t (entities st);
               additionalFilesToParse := additionalFilesToParse st |}.
Proof.
  intros [He [Hlen [Hn Hty]]] Hhas Ht.
  rewrite (entityChunk_unfold st chunk He), Hlen, Hn, Hty, Hhas, Ht. reflexivity.
Qed.

(** After an entity definition the state has an entity of that name. *)
Lemma entityChunk_defines (st st' : ParserState env) (chunk n ty : string) :
  entityDefinition env chunk n ty ->
  processChunk env st chunk = Returns st' ->
  hasEntity env n (entities st') = true.
Proof.
  intros [He [Hlen [Hn Hty]]].
  rewrite (entityChunk_unfold st chunk He), Hlen, Hn, Hty. cbn [Nat.eqb negb].
  destruct (hasEntity env n (entities st)) eqn:Eh.
  - destruct (getEntityType env ty) as [t|e]; cbn [bind]; [|discriminate].
    intros H; inversion H; subst st'. cbn [entities].
    apply hasEntity_In. destruct (setFirstEntityType_names n t (entities st)) as [-> _].
    apply hasEntity_In. assumption.
  - intros H; inversion H; subst st'. cbn [entities].
    apply hasEntity_In. rewrite map_app. apply in_or_app. right. left. reflexivity.
Qed.

(** *** An entity defined twice *)

(** C8. An entity definition whose name an entity of the state already
    has sets the type of that entity and nothing else: the names and the
    attributes of all entities stay as they are, those of the new
    definition are dropped, and exactly one entity has that name.  With
    the markers [#], [[] and [$], a chunk list in which
    [$ person : builtin] is followed, at once or later, by
    [$ person : custom] as its last chunk gives exactly one entity named
    [person], of the type [getEntityType] returns for [custom]. *)
Theorem entity_redeclaration :
  (forall (pre : list string) (st : ParserState env) (chunk n ty : string)
          (t : EntityType env),
      forEachChunk env initialState pre = Returns st ->
      entityDefinition env chunk n ty ->
      hasEntity env n (entities st) = true ->
      getEntityType env ty = Returns t ->
      exists e,
        In e (entities st) /\
        LGEntity.name e = n /\
        processChunk env st chunk =
          Returns {| heap := heap st;
                     LGTemplates := LGTemplates st;
                     entities := setFirstEntityType env n t (entities st);
                     additionalFilesToParse := additionalFilesToParse st |} /\
        map LGEntity.name (setFirstEntityType env n t (entities st)) =
          map LGEntity.name (entities st) /\
        map LGEntity.attributes (setFirstEntityType env n t (entities st)) =
          map LGEntity.attributes (entities st) /\
        entitiesNamed env n (setFirstEntityType env n t (entities st)) =
          [LGEntity.mk n t (LGEntity.attributes e)]) /\
  (INTENT (parserConsts env) = "#" ->
   FILEREF (parserConsts env) = "[" ->
   ENTITY (parserConsts env) = "$" ->
   forall (pre mid : list string) (st : ParserState env) (t : EntityType env),
     forEachChunk env initialState (pre ++ "$ person : builtin" :: mid) = Returns st ->
     getEntityType env "custom" = Returns t ->
     exists res obj e,
       toLG env (JSArray (pre ++ "$ person : builtin" :: mid ++ ["$ person : custom"])) =
         Returns res /\
       LGParsedObj.LGObject res = Some obj /\
       entitiesNamed env "person" (LGObject.entities obj) = [e] /\
       LGEntity.name e = "person" /\
       LGEntity.entityType e = t).
Proof.
  assert (General : forall (st : ParserState env) (chunk n ty : string) (t : EntityType env),
             NoDup (map LGEntity.name (entities st)) ->
             entityDefinition env chunk n ty ->
             hasEntity env n (entities st) = true ->
             getEntityType env ty = Returns t ->
             exists e,
               In e (entities st) /\
               LGEntity.name e = n /\
               processChunk env st chunk =
                 Returns {| heap := heap st;
                            LGTemplates := LGTemplates st;
                            entities := setFirstEntityType env n t (entities st);
                            additionalFilesToParse := additionalFilesToParse st |} /\
               map LGEntity.name (setFirstEntityType env n t (entities st)) =
                 map LGEntity.name (entities st) /\
               map LGEntity.attributes (setFirstEntityType env n t (entities st)) =
                 map LGEntity.attributes (entities st) /\
               entitiesNamed env n (setFirstEntityType env n t (entities st)) =
                 [LGEntity.mk n t (LGEntity.attributes e)]).
  { intros st chunk n ty t Hnd Hdef Hhas Ht.
    destruct (setFirstEntityType_named n t (entities st) Hnd Hhas) as [e [Hin [Hn Hf]]].
    destruct (setFirstEntityType_names n t (entities st)) as [Hnames Hattrs].
    exists e. repeat (split; [assumption|]).
    split; [apply (entityChunk_existing st chunk n ty t Hdef Hhas Ht)|].
    repeat (split; [assumption|]). assumption. }
  split.
  - intros pre st chunk n ty t Hpre. apply General.
    apply (forEachChunk_entities pre _ _ initialState_entities Hpre).
  - intros Hi Hf He pre mid st t Hrun Ht.
    assert (Hdef : forall ty, ty = "builtin" \/ ty = "custom" ->
               entityDefinition env ("$ person : " ++ ty) "person" ty).
    { intros ty Hty.
      unfold entityDefinition, isEntityChunk, isTemplateChunk, entityDefOf,
        entityNameOf, entityTypeOf, entityDefOf.
      rewrite Hi, Hf, He. destruct Hty as [-> | ->]; repeat split; reflexivity. }
    rewrite forEachChunk_app in Hrun.
    destruct (forEachChunk env initialState pre) as [st0|e0] eqn:E0; cbn [bind] in Hrun;
      [|discriminate].
    cbn [forEachChunk] in Hrun.
    destruct (processChunk env st0 "$ person : builtin") as [st1|e1] eqn:E1;
      cbn [bind] in Hrun; [|discriminate].
    destruct (forEachChunk_entities pre _ _ initialState_entities E0) as [Hnd0 _].
    destruct (processChunk_entities st0 st1 _ Hnd0 E1) as [Hnd1 _].
    destruct (forEachChunk_entities mid _ _ Hnd1 Hrun) as [Hnd Hmono].
    pose proof (entityChunk_defines st0 st1 _ _ _ (Hdef "builtin" (or_introl eq_refl)) E1)
      as Hhas1.
    pose proof (Hmono _ Hhas1) as Hhas.
    destruct (General st "$ person : custom" "person" "custom" t Hnd
                (Hdef "custom" (or_intror eq_refl)) Hhas Ht)
      as [e [Hin [Hn [Hstep [_ [_ Hone]]]]]].
    eexists. eexists. eexists. split; [|split; [|split; [|split]]].
    + rewrite toLG_array by (destruct pre; discriminate).
      change (pre ++ "$ person : builtin" :: mid ++ ["$ person : custom"])%list
        with (pre ++ ("$ person : builtin" :: mid) ++ ["$ person : custom"])%list.
      rewrite app_assoc, forEachChunk_app, forEachChunk_app, E0.
      cbn [bind forEachChunk]. rewrite E1. cbn [bind]. rewrite Hrun. cbn [bind].
      rewrite Hstep. cbn [bind]. reflexivity.
    + reflexivity.
    + cbn [LGObject.entities entities]. exact Hone.
    + reflexivity.
    + reflexivity.
Qed.

(** *** When the template of a chunk is pushed

    [pushAtEnd] is set by the choice of the template and set again by
    every condition line; the test of line 164 reads what the last
    condition line has left. *)

Lemma linesOf_app (xs ys : list BodySection) :
  linesOf (xs ++ ys) = (linesOf xs ++ linesOf ys)%list.
Proof. unfold linesOf. apply flat_map_app. Qed.

Lemma sections_then_last (sections : list BodySection) (s : BodySection)
      (bs : BodyState env) :
  Ready env bs ->
  Forall (wellFormedSection env) (sections ++ [s]) ->
  exists bs' tpl,
    processLines env bs (linesOf (sections ++ [s])) = Returns bs' /\
    flushItem env bs' = Returns tpl /\
    LGTemplate.conditionalResponses tpl =
      mergeSections env (sections ++ [s]) (blocksOf env bs) /\
    LGTemplate.name tpl = LGTemplate.name (cLGTemplate bs) /\
    LGTemplate.variations tpl = LGTemplate.variations (cLGTemplate bs) /\
    pushAtEnd bs' =
      match findCondition (conditionOf env (fst s))
                          (mergeSections env sections (blocksOf env bs)) with
      | Some _ => false
      | None => true
      end.
Proof.
  intros Hr Hall. apply Forall_app in Hall. destruct Hall as [Hall Hs].
  inversion Hs as [|x xs Hs' _]; subst.
  destruct (sections_run sections bs Hr Hall) as [bs1 [E1 [Hr1 [Hb1 [Hn1 Hv1]]]]].
  destruct (section_run bs1 s Hr1 Hs') as [bs2 [E2 [Hr2 [Hb2 [Hn2 [Hv2 Hp2]]]]]].
  destruct (flushItem_blocks bs2 Hr2) as [tpl [Ef [Hbt [Hnt Hvt]]]].
  exists bs2, tpl. split; [|split; [exact Ef|]].
  - rewrite linesOf_app, processLines_app, E1. cbn [bind].
    unfold linesOf. cbn [flat_map]. rewrite app_nil_r. exact E2.
  - split; [|split; [congruence|split; [congruence|]]].
    + rewrite Hbt, Hb2, Hb1. unfold mergeSections. rewrite fold_left_app. reflexivity.
    + rewrite Hp2, Hb1. reflexivity.
Qed.

Lemma mergeSections_last_nonempty (sections : list BodySection) (s : BodySection)
      (blocks : list LGConditionalResponse.t) :
  mergeSections env (sections ++ [s]) blocks <> [].
Proof.
  intros H.
  assert (Hm := mergeSections_conditions (sections ++ [s]) blocks).
  rewrite H, map_app in Hm. cbn [map] in Hm. symmetry in Hm.
  apply pushNew_nil_inv in Hm. destruct Hm as [_ Hm].
  apply app_eq_nil in Hm. destruct Hm as [_ Hm]. discriminate.
Qed.

(** A chunk for a template of a new name, made of condition lines with
    their variation lines: the template object is built, and it becomes
    an entry of [LGTemplates] when the condition text of the last
    condition line is met for the first time in that line, and only
    then. *)
Lemma new_template_commit (st : ParserState env) (chunk n : string)
      (sections : list BodySection) (s : BodySection) :
  isTemplateChunk env chunk = true ->
  templateNameOf chunk = n ->
  n <> "" ->
  validateTemplateName env n = Returns tt ->
  findTemplate (heap st) n (LGTemplates st) = None ->
  bodyOf chunk = linesOf (sections ++ [s]) ->
  Forall (wellFormedSection env) (sections ++ [s]) ->
  exists st',
    processChunk env st chunk = Returns st' /\
    heap st' = (heap st ++
                [LGTemplate.mk n [] (mergeSections env (sections ++ [s]) [])])%list /\
    LGTemplates st' =
      match findCondition (conditionOf env (fst s)) (mergeSections env sections []) with
      | Some _ => LGTemplates st
      | None => (LGTemplates st ++ [List.length (heap st)])%list
      end.
Proof.
  intros Ht Hname Hn Hv Hf Hbody Hall.
  rewrite (processChunk_template st chunk Ht), templateChunk_unfold, Hname, Hbody.
  rewrite (selectTemplate_new st n Hn Hv Hf). cbn [bind].
  assert (Hr : Ready env (startOfBody env st
                 ((heap st ++ [LGTemplate.new n])%list, List.length (heap st), true)))
    by (left; split; reflexivity).
  destruct (sections_then_last sections s _ Hr Hall)
    as [bs [tpl [E [Ef [Hb [Hnm [Hvs Hp]]]]]]].
  rewrite E. cbn [bind]. rewrite Ef. cbn [bind].
  unfold startOfBody, blocksOf in Hb, Hnm, Hvs, Hp.
  cbn [cLGTemplate conditionalResponseItem] in Hb, Hnm, Hvs, Hp.
  rewrite deref_app_last in Hb, Hnm, Hvs, Hp.
  cbn [LGTemplate.new LGTemplate.name LGTemplate.variations
       LGTemplate.conditionalResponses] in Hb, Hnm, Hvs, Hp.
  rewrite Hvs, Hb, Hnm, Hp.
  pose proof (mergeSections_last_nonempty sections s []) as Hne.
  destruct (mergeSections env (sections ++ [s]) []) as [|b0 bl] eqn:Em; [congruence|].
  cbn [List.length Nat.eqb andb fst snd].
  apply String.eqb_neq in Hn. rewrite Hn. cbn [negb andb].
  eexists. split; [reflexivity|]. cbn [heap LGTemplates].
  rewrite store_app_last. split.
  - destruct tpl as [tn tv tc]. cbn in Hb, Hnm, Hvs. subst. reflexivity.
  - destruct (findCondition _ _); reflexivity.
Qed.

(** A chunk for a template that an entry of [LGTemplates] is named
    after, made of condition lines with their variation lines: the
    object of that entry receives the lines, and a further entry for the
    same object is added when the condition text of the last condition
    line is new to the template in that line. *)
Lemma existing_template_commit (st : ParserState env) (chunk n : string) (r : nat)
      (sections : list BodySection) (s : BodySection) :
  isTemplateChunk env chunk = true ->
  templateNameOf chunk = n ->
  n <> "" ->
  findTemplate (heap st) n (LGTemplates st) = Some r ->
  bodyOf chunk = linesOf (sections ++ [s]) ->
  Forall (wellFormedSection env) (sections ++ [s]) ->
  exists st',
    processChunk env st chunk = Returns st' /\
    heap st' =
      store (heap st) r
            (LGTemplate.mk n (LGTemplate.variations (deref (heap st) r))
               (mergeSections env (sections ++ [s])
                  (LGTemplate.conditionalResponses (deref (heap st) r)))) /\
    LGTemplates st' =
      match findCondition (conditionOf env (fst s))
              (mergeSections env sections
                 (LGTemplate.conditionalResponses (deref (heap st) r))) with
      | Some _ => LGTemplates st
      | None => (LGTemplates st ++ [r])%list
      end.
Proof.
  intros Ht Hname Hn Hf Hbody Hall.
  rewrite (processChunk_template st chunk Ht), templateChunk_unfold, Hname, Hbody.
  rewrite (selectTemplate_existing st n r Hn Hf). cbn [bind].
  assert (Hr : Ready env (startOfBody env st (heap st, r, false)))
    by (left; split; reflexivity).
  destruct (sections_then_last sections s _ Hr Hall)
    as [bs [tpl [E [Ef [Hb [Hnm [Hvs Hp]]]]]]].
  rewrite E. cbn [bind]. rewrite Ef. cbn [bind].
  unfold startOfBody, blocksOf in Hb, Hnm, Hvs, Hp.
  cbn [cLGTemplate conditionalResponseItem] in Hb, Hnm, Hvs, Hp.
  destruct (findTemplate_Some _ _ _ _ Hf) as [_ Hnr]. rewrite Hnr in Hnm.
  rewrite Hvs, Hb, Hnm, Hp.
  pose proof (mergeSections_last_nonempty sections s
                (LGTemplate.conditionalResponses (deref (heap st) r))) as Hne.
  destruct (mergeSections env (sections ++ [s]) _) as [|b0 bl] eqn:Em; [congruence|].
  cbn [List.length Nat.eqb andb fst snd]. rewrite andb_false_r.
  apply String.eqb_neq in Hn. rewrite Hn. cbn [negb andb].
  eexists. split; [reflexivity|]. cbn [heap LGTemplates]. split.
  - destruct tpl as [tn tv tc]. cbn in Hb, Hnm, Hvs. subst. reflexivity.
  - destruct (findCondition _ _); reflexivity.
Qed.

(** *** The states the line loop goes through

    Every body starts in a state that is [Ready] and every line keeps the
    state so.  In such a state the conditional response that is flushed
    is one that is not yet in the array, and a variation line inside a
    conditional response finds its item: the [TypeError] branches of
    [flushItem] and [addVariation] are not taken. *)

Lemma startOfBody_Ready (st : ParserState env) (sel : list LGTemplate.t * nat * bool) :
  Ready env (startOfBody env st sel).
Proof. destruct sel as [[h r] flag]. left. split; reflexivity. Qed.

Lemma selectItem_InSection (tpl : LGTemplate.t) (es : list (Entity env))
      (condition : string) (isCondition : bool) (bs : BodyState env) :
  selectItem env tpl es condition isCondition = Returns bs ->
  InSection env bs.
Proof.
  unfold selectItem, InSection.
  destruct (Nat.ltb 0 _);
    [destruct (findCondition condition _) as [i|] eqn:Ef|];
    try destruct (validateCondition (validators env) condition isCondition);
    cbn [bind]; intros H; inversion H; subst; clear H;
    cbn [inConditionalResponses conditionalResponseItem pushAtEnd cLGTemplate]; auto.
  all: split; [reflexivity|]; split; [reflexivity|]; apply (findCondition_lt _ _ _ Ef).
Qed.

Lemma processLine_Ready (bs bs' : BodyState env) (line : string) :
  Ready env bs ->
  processLine env bs line = Returns bs' ->
  Ready env bs'.
Proof.
  intros Hr. unfold processLine.
  destruct (negb (hasListDecoration _)); [discriminate|].
  destruct (Z.eqb (JS.indexOf (CONDITION (parserConsts env)) _) 0).
  - destruct (flushItem env bs) as [tpl|e]; cbn [bind]; [|discriminate].
    intros H. right. apply (selectItem_InSection _ _ _ _ _ H).
  - destruct (Z.eqb (JS.indexOf (DEFAULT (parserConsts env)) _) 0).
    + destruct (flushItem env bs) as [tpl|e]; cbn [bind]; [|discriminate].
      intros H. right. apply (selectItem_InSection _ _ _ _ _ H).
    + destruct Hr as [[Hinc Hitem]|Hin].
      * unfold addVariation. rewrite Hinc.
        destruct (validateVariationItem (validators env) _) as [valid|e]; cbn [bind];
          [|discriminate].
        intros H; inversion H; subst; clear H. left. split; [reflexivity|exact Hitem].
      * destruct (validateVariationItem (validators env)
                    (JS.trim (JS.slice 1 (removeTemplateLinkReferences line))))
          as [valid|e] eqn:Ev.
        -- destruct (addVariation_section bs
                       (addEntities env (parseEntity env (removeTemplateLinkReferences line))
                                    (bodyEntities bs))
                       _ valid Hin Ev) as [bs1 [E1 [Hin1 _]]].
           rewrite E1. intros H; inversion H; subst. right. assumption.
        -- unfold addVariation. destruct Hin as [-> Hitem].
           destruct (conditionalResponseItem bs) as [|i|b]; [destruct Hitem| |].
           ++ destruct (nth_error _ i); rewrite Ev; discriminate.
           ++ rewrite Ev. discriminate.
Qed.

Lemma processLines_Ready (lines : list string) :
  forall bs bs' : BodyState env,
    Ready env bs ->
    processLines env bs lines = Returns bs' ->
    Ready env bs'.
Proof.
  induction lines as [|line lines IH]; intros bs bs' Hr; cbn [processLines].
  - intros H; inversion H; subst; assumption.
  - destruct (processLine env bs line) as [bs1|e] eqn:E; cbn [bind]; [|discriminate].
    apply IH. apply (processLine_Ready bs bs1 line Hr E).
Qed.

(** *** File references *)

Lemma fileRefChunk_unfold (st : ParserState env) (chunk : string) :
  isTemplateChunk env chunk = false ->
  JS.startsWith (FILEREF (parserConsts env)) (JS.trim chunk) = true ->
  processChunk env st chunk =
    fileRefChunk env st (JS.splitLines (JS.trim chunk)).
Proof.
  unfold isTemplateChunk, processChunk. intros -> Hf.
  rewrite indexOf_zero, Hf. reflexivity.
Qed.

(** A file reference chunk whose first line has no parenthesized part:
    [match] returns [null] and reading its first element throws. *)
Lemma fileRef_without_parentheses (st : ParserState env) (chunk : string) :
  isTemplateChunk env chunk = false ->
  JS.startsWith (FILEREF (parserConsts env)) (JS.trim chunk) = true ->
  JS.firstParenMatch (JS.trim (nth 0 (JS.splitLines (JS.trim chunk)) "")) = None ->
  processChunk env st chunk = Throws ThrownTypeError.
Proof.
  intros Ht Hf Hm. rewrite (fileRefChunk_unfold st chunk Ht Hf).
  unfold fileRefChunk. rewrite Hm. reflexivity.
Qed.

Lemma replace_closing (s : string) :
  forall cap, JS.lazyUntilParen s = Some cap -> JS.replace ")" "" (cap ++ ")") = cap.
Proof.
  induction s as [|c s IH]; intros cap; cbn [JS.lazyUntilParen]; [discriminate|].
  destruct (Ascii.eqb c ")") eqn:Ec.
  - intros H; inversion H; subst. reflexivity.
  - destruct (JS.isLineTerminator c); [discriminate|].
    destruct (JS.lazyUntilParen s) as [cap'|]; [|discriminate].
    intros H; inversion H; subst. cbn [append JS.replace JS.startsWith].
    rewrite Ascii.eqb_sym, Ec. cbn [andb]. rewrite (IH cap' eq_refl). reflexivity.
Qed.

Lemma firstParenMatch_shape (s : string) :
  forall first,
    JS.firstParenMatch s = Some first ->
    exists target,
      first = "(" ++ target ++ ")" /\
      JS.replace ")" "" (JS.replace "(" "" first) = target.
Proof.
  induction s as [|c s IH]; intros first; cbn [JS.firstParenMatch]; [discriminate|].
  destruct (Ascii.eqb c "("); [|apply IH].
  destruct (JS.lazyUntilParen s) as [cap|] eqn:El; [|apply IH].
  intros H; inversion H; subst. exists cap. split; [reflexivity|].
  cbn [append JS.replace JS.startsWith Ascii.eqb Bool.eqb andb String.length JS.drop].
  apply (replace_closing s cap El).
Qed.

(** A file reference chunk whose first line has a parenthesized part:
    the text between the first opening parenthesis that is closed on the
    line and the closing parenthesis is the link value; an empty one is
    refused, any other one is added to the files to parse. *)
Lemma fileRef_with_parentheses (st : ParserState env) (chunk first : string) :
  isTemplateChunk env chunk = false ->
  JS.startsWith (FILEREF (parserConsts env)) (JS.trim chunk) = true ->
  JS.firstParenMatch (JS.trim (nth 0 (JS.splitLines (JS.trim chunk)) "")) = Some first ->
  exists target,
    first = "(" ++ target ++ ")" /\
    processChunk env st chunk =
      if String.eqb target "" then
        Throws (ThrownException INVALID_LG_FILE_REF
                  ("[ERROR]: " ++ "Invalid LU File Ref: " ++
                   nth 0 (JS.splitLines (JS.trim chunk)) ""))
      else Returns {| heap := heap st;
                      LGTemplates := LGTemplates st;
                      entities := entities st;
                      additionalFilesToParse :=
                        (additionalFilesToParse st ++ [target])%list |}.
Proof.
  intros Ht Hf Hm. destruct (firstParenMatch_shape _ _ Hm) as [target [Hfirst Hrep]].
  exists target. split; [assumption|].
  rewrite (fileRefChunk_unfold st chunk Ht Hf). unfold fileRefChunk.
  rewrite Hm, Hrep. reflexivity.
Qed.

(** *** Chunks that leave a template alone *)

Lemma selectTemplate_name (st : ParserState env) (m : string)
      (h : list LGTemplate.t) (r : nat) (flag : bool) :
  selectTemplate env st m = Returns (h, r, flag) ->
  LGTemplate.name (deref h r) = m.
Proof.
  unfold selectTemplate, allocTemplate, newLGTemplate.
  destruct (Nat.ltb 0 (List.length (LGTemplates st))).
  - destruct (findTemplate (heap st) m (LGTemplates st)) as [r0|] eqn:Ef; cbn [bind].
    + destruct (findTemplate_Some _ _ _ _ Ef) as [_ Hn].
      destruct (String.eqb (LGTemplate.name (deref (heap st) r0)) "").
      * destruct (validateTemplateName env m); cbn [bind]; [|discriminate].
        intros H; inversion H; subst. rewrite deref_app_last. reflexivity.
      * intros H; inversion H; subst. reflexivity.
    + destruct (validateTemplateName env m); cbn [bind fst snd]; [|discriminate].
      destruct (String.eqb _ "").
      * cbn [bind]. intros H; inversion H; subst. rewrite deref_app_last. reflexivity.
      * intros H; inversion H; subst. rewrite deref_app_last. reflexivity.
  - cbn [bind]. destruct (validateTemplateName env m); cbn [bind]; [|discriminate].
    intros H; inversion H; subst. rewrite deref_app_last. reflexivity.
Qed.

(** What a template chunk that returns has done to the heap and to
    [LGTemplates]. *)
Lemma templateChunk_effect (st st' : ParserState env) (chunk : string) :
  wfState st ->
  isTemplateChunk env chunk = true ->
  processChunk env st chunk = Returns st' ->
  exists h r tpl,
    heap st' = store h r tpl /\
    (exists extra, h = (heap st ++ extra)%list) /\
    r < List.length h /\
    LGTemplate.name (deref h r) = templateNameOf chunk /\
    LGTemplate.name tpl = templateNameOf chunk /\
    (LGTemplates st' = LGTemplates st \/ LGTemplates st' = (LGTemplates st ++ [r])%list).
Proof.
  intros Hwf Ht.
  rewrite (processChunk_template st chunk Ht), templateChunk_unfold.
  destruct (selectTemplate env st (templateNameOf chunk)) as [[[h r] flag]|e] eqn:Es;
    cbn [bind]; [|discriminate].
  destruct (selectTemplate_heap st _ h r flag Hwf Es) as [Hext [Hr _]].
  pose proof (selectTemplate_name st _ h r flag Es) as Hname.
  destruct (processLines env _ (bodyOf chunk)) as [bs|e] eqn:Ep; cbn [bind]; [|discriminate].
  destruct (flushItem env bs) as [tpl|e] eqn:Ef; cbn [bind]; [|discriminate].
  destruct (Nat.eqb _ 0 && Nat.eqb _ 0); [discriminate|].
  intros H; inversion H; subst st'; clear H. cbn [heap LGTemplates fst snd].
  exists h, r, tpl. split; [reflexivity|]. split; [assumption|]. split; [assumption|].
  split; [assumption|]. split.
  - rewrite (flushItem_name bs tpl Ef), (processLines_name _ _ _ Ep). exact Hname.
  - destruct (negb _ && pushAtEnd bs); [right|left]; reflexivity.
Qed.

Lemma otherKinds_effect (st st' : ParserState env) (chunk : string) :
  isTemplateChunk env chunk = false ->
  processChunk env st chunk = Returns st' ->
  heap st' = heap st /\ LGTemplates st' = LGTemplates st.
Proof.
  intros Ht. unfold processChunk. unfold isTemplateChunk in Ht. rewrite Ht.
  destruct (Z.eqb (JS.indexOf (FILEREF (parserConsts env)) _) 0).
  - unfold fileRefChunk. destruct (JS.firstParenMatch _); [|discriminate].
    destruct (String.eqb _ ""); [discriminate|].
    intros H; inversion H; subst st'. split; reflexivity.
  - destruct (Z.eqb (JS.indexOf (ENTITY (parserConsts env)) _) 0); [|discriminate].
    unfold entityChunk. destruct (negb _); [discriminate|].
    destruct (hasEntity env _ _).
    + destruct (getEntityType env _); cbn [bind]; [|discriminate].
      intros H; inversion H; subst st'. split; reflexivity.
    + intros H; inversion H; subst st'. split; reflexivity.
Qed.

(** A chunk never renames an object of the heap. *)
Lemma processChunk_names (st st' : ParserState env) (chunk : string) :
  wfState st ->
  processChunk env st chunk = Returns st' ->
  forall r0, r0 < List.length (heap st) ->
             LGTemplate.name (deref (heap st') r0) = LGTemplate.name (deref (heap st) r0).
Proof.
  intros Hwf Hrun r0 Hr0.
  destruct (isTemplateChunk env chunk) eqn:Ht.
  - destruct (templateChunk_effect st st' chunk Hwf Ht Hrun)
      as [h [r [tpl [Hh [[extra Hext] [Hr [Hn [Htn _]]]]]]]].
    rewrite Hh. destruct (Nat.eq_dec r r0) as [->|Hne].
    + rewrite deref_store_same by assumption. rewrite Htn, <- Hn, Hext.
      rewrite deref_app by assumption. reflexivity.
    + rewrite deref_store_other by assumption. rewrite Hext.
      rewrite deref_app by assumption. reflexivity.
  - destruct (otherKinds_effect st st' chunk Ht Hrun) as [-> _]. reflexivity.
Qed.

Lemma filter_ext_Forall {A : Type} (f g : A -> bool) (l : list A) :
  Forall (fun x => f x = g x) l -> filter f l = filter g l.
Proof.
  induction 1 as [|x l Hx _ IH]; cbn [filter]; [reflexivity|].
  rewrite Hx, IH. reflexivity.
Qed.

(** A chunk that is no template chunk named [n] keeps the objects named
    [n] as they are and keeps the entries of [LGTemplates] that refer to
    them. *)
Lemma processChunk_other (st st' : ParserState env) (chunk n : string) :
  wfState st ->
  otherChunk env n chunk ->
  processChunk env st chunk = Returns st' ->
  (forall r0, r0 < List.length (heap st) ->
              LGTemplate.name (deref (heap st) r0) = n ->
              deref (heap st') r0 = deref (heap st) r0) /\
  namedRefs n st' = namedRefs n st.
Proof.
  intros Hwf Hother Hrun.
  pose proof (processChunk_names st st' chunk Hwf Hrun) as Hnames.
  assert (Hold : filter (fun r => String.eqb (LGTemplate.name (deref (heap st') r)) n)
                        (LGTemplates st) = namedRefs n st).
  { unfold namedRefs. apply filter_ext_Forall.
    unfold wfState in Hwf. rewrite Forall_forall in *. intros r Hr.
    rewrite (Hnames r (Hwf r Hr)). reflexivity. }
  destruct (isTemplateChunk env chunk) eqn:Ht.
  - specialize (Hother Ht).
    destruct (templateChunk_effect st st' chunk Hwf Ht Hrun)
      as [h [r [tpl [Hh [[extra Hext] [Hr [Hn [Htn Hrefs]]]]]]]].
    split.
    + intros r0 Hr0 Hn0. rewrite Hh.
      assert (Hne : r <> r0).
      { intros ->. apply Hother. rewrite <- Hn, Hext.
        rewrite deref_app by assumption. assumption. }
      rewrite deref_store_other by assumption. rewrite Hext.
      apply deref_app. assumption.
    + unfold namedRefs at 1. destruct Hrefs as [-> | ->]; [exact Hold|].
      rewrite filter_app, Hold. cbn [filter].
      rewrite Hh, deref_store_same by assumption. rewrite Htn.
      apply String.eqb_neq in Hother. rewrite Hother. apply app_nil_r.
  - destruct (otherKinds_effect st st' chunk Ht Hrun) as [Hh Hrefs].
    split.
    + intros r0 _ _. rewrite Hh. reflexivity.
    + unfold namedRefs at 1. rewrite Hrefs. exact Hold.
Qed.

Lemma processChunk_heap_grows (st st' : ParserState env) (chunk : string) :
  wfState st ->
  processChunk env st chunk = Returns st' ->
  List.length (heap st) <= List.length (heap st').
Proof.
  intros Hwf Hrun.
  destruct (isTemplateChunk env chunk) eqn:Ht.
  - destruct (templateChunk_effect st st' chunk Hwf Ht Hrun)
      as [h [r [tpl [Hh [[extra Hext] _]]]]].
    rewrite Hh, store_length, Hext, length_app. lia.
  - destruct (otherKinds_effect st st' chunk Ht Hrun) as [-> _]. lia.
Qed.

Lemma forEachChunk_other (chunks : list string) (n : string) :
  forall st st' : ParserState env,
    wfState st ->
    Forall (otherChunk env n) chunks ->
    forEachChunk env st chunks = Returns st' ->
    wfState st' /\
    (forall r0, r0 < List.length (heap st) ->
                LGTemplate.name (deref (heap st) r0) = n ->
                deref (heap st') r0 = deref (heap st) r0) /\
    namedRefs n st' = namedRefs n st.
Proof.
  induction chunks as [|chunk chunks IH]; intros st st' Hwf Hall; cbn [forEachChunk].
  - intros H; inversion H; subst. auto.
  - inversion Hall as [|c cs Hc Hrest]; subst.
    destruct (processChunk env st chunk) as [st1|e] eqn:E; cbn [bind]; [|discriminate].
    intros Hrun.
    pose proof (processChunk_wf st st1 chunk Hwf E) as Hwf1.
    destruct (processChunk_other st st1 chunk n Hwf Hc E) as [Hd1 Hr1].
    pose proof (processChunk_heap_grows st st1 chunk Hwf E) as Hlen.
    destruct (IH st1 st' Hwf1 Hrest Hrun) as [Hwf' [Hd' Hr']].
    split; [assumption|]. split; [|congruence].
    intros r0 Hr0 Hn0. rewrite Hd'.
    + apply Hd1; assumption.
    + lia.
    + rewrite Hd1; assumption.
Qed.

Lemma forEachChunk_app_inv (pre post : list string) (st st' : ParserState env) :
  forEachChunk env st (pre ++ post) = Returns st' ->
  exists st1, forEachChunk env st pre = Returns st1 /\ forEachChunk env st1 post = Returns st'.
Proof.
  rewrite forEachChunk_app.
  destruct (forEachChunk env st pre) as [st1|e]; cbn [bind]; [|discriminate].
  intros H. exists st1. split; [reflexivity|assumption].
Qed.

Lemma forEachChunk_cons_inv (chunk : string) (rest : list string) (st st' : ParserState env) :
  forEachChunk env st (chunk :: rest) = Returns st' ->
  exists st1, processChunk env st chunk = Returns st1 /\ forEachChunk env st1 rest = Returns st'.
Proof.
  cbn [forEachChunk].
  destruct (processChunk env st chunk) as [st1|e]; cbn [bind]; [|discriminate].
  intros H. exists st1. split; [reflexivity|assumption].
Qed.

Lemma findTemplate_namedRefs (st : ParserState env) (n : string) :
  findTemplate (heap st) n (LGTemplates st) = hd_error (namedRefs n st).
Proof.
  unfold findTemplate, namedRefs.
  induction (LGTemplates st) as [|r refs IH]; cbn [find filter]; [reflexivity|].
  destruct (String.eqb (LGTemplate.name (deref (heap st) r)) n); [reflexivity|exact IH].
Qed.

Lemma templatesOf_named (st : ParserState env) (n : string) :
  filter (fun tpl => String.eqb (LGTemplate.name tpl) n) (templatesOf st) =
    map (deref (heap st)) (namedRefs n st).
Proof.
  unfold templatesOf, namedRefs.
  induction (LGTemplates st) as [|r refs IH]; cbn [map filter]; [reflexivity|].
  destruct (String.eqb (LGTemplate.name (deref (heap st) r)) n); cbn [map];
    rewrite IH; reflexivity.
Qed.

(** A chunk of variation lines that returns, for a template of a new
    name: the name has passed the validation and a variation has been
    accepted. *)
Lemma flatChunk_new_returns (st st' : ParserState env) (chunk n : string) :
  flatChunk env n chunk ->
  n <> "" ->
  findTemplate (heap st) n (LGTemplates st) = None ->
  processChunk env st chunk = Returns st' ->
  validateTemplateName env n = Returns tt /\
  acceptedPayloads env (bodyOf chunk) <> [].
Proof.
  intros Hflat Hn Hf Hrun.
  destruct (validateTemplateName env n) as [[]|e] eqn:Ev.
  - split; [reflexivity|]. intros Hacc.
    destruct Hflat as [Ht [Hname Hlines]].
    rewrite (processChunk_template st chunk Ht), templateChunk_unfold, Hname in Hrun.
    rewrite (selectTemplate_new st n Hn Ev Hf) in Hrun. cbn [bind] in Hrun.
    rewrite (flat_lines _ (startOfBody env st (_, _, _)) eq_refl Hlines) in Hrun.
    cbn [bind] in Hrun. unfold flushItem, startOfBody in Hrun.
    cbn [inConditionalResponses andb cLGTemplate pushAtEnd bodyEntities fst snd] in Hrun.
    rewrite deref_app_last, Hacc in Hrun. discriminate.
  - exfalso. destruct Hflat as [Ht [Hname _]].
    rewrite (processChunk_template st chunk Ht), templateChunk_unfold, Hname in Hrun.
    unfold selectTemplate, allocTemplate, newLGTemplate in Hrun.
    rewrite Hf, Ev in Hrun.
    destruct (Nat.ltb 0 (List.length (LGTemplates st))); discriminate.
Qed.

Lemma namedRefs_after_new (st : ParserState env) (n : string) (tpl : LGTemplate.t)
      (es : list (Entity env)) (files : list string) :
  wfState st ->
  LGTemplate.name tpl = n ->
  namedRefs n {| heap := (heap st ++ [tpl])%list;
                 LGTemplates := (LGTemplates st ++ [List.length (heap st)])%list;
                 entities := es;
                 additionalFilesToParse := files |} =
    (namedRefs n st ++ [List.length (heap st)])%list.
Proof.
  intros Hwf Hn. unfold namedRefs. cbn [heap LGTemplates].
  rewrite filter_app. cbn [filter]. rewrite deref_app_last, Hn, String.eqb_refl.
  f_equal. apply filter_ext_Forall.
  unfold wfState in Hwf. rewrite Forall_forall in *. intros r Hr.
  rewrite deref_app by (apply Hwf; assumption). reflexivity.
Qed.

Lemma namedRefs_after_store (st : ParserState env) (n : string) (r : nat)
      (tpl : LGTemplate.t) (es : list (Entity env)) (files : list string) :
  r < List.length (heap st) ->
  LGTemplate.name tpl = LGTemplate.name (deref (heap st) r) ->
  namedRefs n {| heap := store (heap st) r tpl;
                 LGTemplates := LGTemplates st;
                 entities := es;
                 additionalFilesToParse := files |} =
    namedRefs n st.
Proof.
  intros Hr Hn. unfold namedRefs. cbn [heap LGTemplates].
  apply filter_ext_Forall. rewrite Forall_forall. intros r0 _.
  destruct (Nat.eq_dec r r0) as [<-|Hne].
  - rewrite deref_store_same by assumption. rewrite Hn. reflexivity.
  - rewrite deref_store_other by assumption. reflexivity.
Qed.

(** Two chunks of variation lines for one template name anywhere in a
    chunk list that has no other template chunk of that name. *)
Lemma same_name_anywhere (pre mid post : list string) (c1 c2 n : string)
      (res : LGParsedObj.t (EntityType env)) :
  flatChunk env n c1 ->
  flatChunk env n c2 ->
  n <> "" ->
  Forall (otherChunk env n) (pre ++ mid ++ post) ->
  toLG env (JSArray (pre ++ c1 :: mid ++ c2 :: post)) = Returns res ->
  exists obj,
    LGParsedObj.LGObject res = Some obj /\
    filter (fun tpl => String.eqb (LGTemplate.name tpl) n) (LGObject.LGTemplates obj) =
      [LGTemplate.mk n
         (pushNew [] (acceptedPayloads env (bodyOf c1) ++ acceptedPayloads env (bodyOf c2)))
         []].
Proof.
  intros H1 H2 Hn Hother Hrun.
  apply Forall_app in Hother. destruct Hother as [Hpre Hother].
  apply Forall_app in Hother. destruct Hother as [Hmid Hpost].
  rewrite toLG_array in Hrun by (destruct pre; discriminate).
  destruct (forEachChunk env initialState (pre ++ c1 :: mid ++ c2 :: post))
    as [stF|e] eqn:Erun; cbn [bind] in Hrun; [|discriminate].
  inversion Hrun; subst res; clear Hrun.
  destruct (forEachChunk_app_inv _ _ _ _ Erun) as [st0 [E0 Erun1]].
  destruct (forEachChunk_cons_inv _ _ _ _ Erun1) as [st1 [E1 Erun2]].
  destruct (forEachChunk_app_inv _ _ _ _ Erun2) as [st2 [E2 Erun3]].
  destruct (forEachChunk_cons_inv _ _ _ _ Erun3) as [st3 [E3 E4]].
  (* before the first chunk *)
  destruct (forEachChunk_other pre n _ _ initialState_wf Hpre E0) as [Hwf0 [_ Hr0]].
  assert (Hf0 : findTemplate (heap st0) n (LGTemplates st0) = None).
  { rewrite findTemplate_namedRefs, Hr0. reflexivity. }
  (* the first chunk *)
  destruct (flatChunk_new_returns st0 st1 c1 n H1 Hn Hf0 E1) as [Hv Hacc].
  rewrite (flatChunk_new st0 c1 n H1 Hn Hv Hf0 Hacc) in E1.
  inversion E1 as [Est1]; clear E1.
  set (k := List.length (heap st0)) in *.
  set (t1 := LGTemplate.mk n (pushNew [] (acceptedPayloads env (bodyOf c1))) []) in *.
  assert (Hwf1 : wfState st1).
  { subst st1. unfold wfState. cbn [heap LGTemplates]. apply Forall_app. split.
    - unfold wfState in Hwf0. rewrite Forall_forall in *. intros r Hr.
      rewrite length_app. specialize (Hwf0 r Hr). lia.
    - constructor; [|constructor]. rewrite length_app. cbn. lia. }
  assert (Hr1 : namedRefs n st1 = [k]).
  { subst st1. rewrite (namedRefs_after_new st0 n t1 _ _ Hwf0 eq_refl), Hr0. reflexivity. }
  assert (Hk1 : k < List.length (heap st1)).
  { subst st1. cbn [heap]. rewrite length_app. cbn. lia. }
  assert (Hd1 : deref (heap st1) k = t1) by (subst st1; apply deref_app_last).
  (* between the two chunks *)
  destruct (forEachChunk_other mid n _ _ Hwf1 Hmid E2) as [Hwf2 [Hd2 Hr2]].
  specialize (Hd2 k Hk1 ltac:(rewrite Hd1; reflexivity)).
  rewrite Hd1 in Hd2. rewrite Hr1 in Hr2.
  assert (Hf2 : findTemplate (heap st2) n (LGTemplates st2) = Some k).
  { rewrite findTemplate_namedRefs, Hr2. reflexivity. }
  assert (Hk2 : k < List.length (heap st2)).
  { destruct (findTemplate_Some _ _ _ _ Hf2) as [Hin _].
    unfold wfState in Hwf2. rewrite Forall_forall in Hwf2. apply Hwf2. assumption. }
  (* the second chunk *)
  assert (Hne2 : LGTemplate.variations (deref (heap st2) k) <> []).
  { rewrite Hd2. cbn [t1 LGTemplate.variations]. intros Ep.
    apply pushNew_nil_inv in Ep. tauto. }
  pose proof (processChunk_wf st2 st3 c2 Hwf2 E3) as Hwf3.
  rewrite (flatChunk_existing st2 c2 n k H2 Hn Hf2 Hne2) in E3.
  inversion E3 as [Est3]; clear E3.
  rewrite Hd2 in Est3. cbn [t1 LGTemplate.variations LGTemplate.conditionalResponses] in Est3.
  rewrite <- pushNew_app in Est3.
  set (t2 := LGTemplate.mk n
               (pushNew [] (acceptedPayloads env (bodyOf c1) ++
                            acceptedPayloads env (bodyOf c2))) []) in *.
  assert (Hr3 : namedRefs n st3 = [k]).
  { subst st3. rewrite (namedRefs_after_store st2 n k t2 _ _ Hk2); [exact Hr2|].
    rewrite Hd2. reflexivity. }
  assert (Hk3 : k < List.length (heap st3)).
  { subst st3. cbn [heap]. rewrite store_length. assumption. }
  assert (Hd3 : deref (heap st3) k = t2).
  { subst st3. cbn [heap]. apply deref_store_same. assumption. }
  (* after the second chunk *)
  destruct (forEachChunk_other post n _ _ Hwf3 Hpost E4) as [_ [Hd4 Hr4]].
  specialize (Hd4 k Hk3 ltac:(rewrite Hd3; reflexivity)).
  eexists. split; [reflexivity|].
  cbn [LGObject.LGTemplates]. rewrite templatesOf_named, Hr4, Hr3.
  cbn [map]. rewrite Hd4, Hd3. reflexivity.
Qed.

(** X24. Two template chunks with the same name whose body lines are
    variation lines give one template of that name, wherever they stand
    in a chunk list that has no other template chunk of that name and is
    parsed without a throw: its variations are those of the first chunk
    followed by those of the second, each string once, so a string is a
    variation exactly when one of the chunks gives it.  When the two
    chunks end the list, the name passes the validation and the first
    chunk gives a variation, the parse returns; and parsing the same
    chunk twice gives the templates that parsing it once gives. *)
Theorem same_name_chunks_merge :
  forall c1 c2 n : string,
    flatChunk env n c1 ->
    flatChunk env n c2 ->
    n <> "" ->
    let vs := pushNew [] (acceptedPayloads env (bodyOf c1) ++
                          acceptedPayloads env (bodyOf c2)) in
    NoDup vs /\
    (forall v, In v vs <->
               In v (acceptedPayloads env (bodyOf c1)) \/
               In v (acceptedPayloads env (bodyOf c2))) /\
    (forall (pre mid post : list string) (res : LGParsedObj.t (EntityType env)),
        Forall (otherChunk env n) (pre ++ mid ++ post) ->
        toLG env (JSArray (pre ++ c1 :: mid ++ c2 :: post)) = Returns res ->
        exists obj,
          LGParsedObj.LGObject res = Some obj /\
          filter (fun tpl => String.eqb (LGTemplate.name tpl) n)
                 (LGObject.LGTemplates obj) = [LGTemplate.mk n vs []]) /\
    (forall (pre : list string) (st : ParserState env),
        forEachChunk env initialState pre = Returns st ->
        findTemplate (heap st) n (LGTemplates st) = None ->
        validateTemplateName env n = Returns tt ->
        acceptedPayloads env (bodyOf c1) <> [] ->
        exists res obj,
          toLG env (JSArray (pre ++ [c1; c2])) = Returns res /\
          LGParsedObj.LGObject res = Some obj /\
          LGObject.LGTemplates obj = (templatesOf st ++ [LGTemplate.mk n vs []])%list /\
          (c2 = c1 ->
           exists res1 obj1,
             toLG env (JSArray (pre ++ [c1])) = Returns res1 /\
             LGParsedObj.LGObject res1 = Some obj1 /\
             LGObject.LGTemplates obj1 = LGObject.LGTemplates obj)).
Proof.
  intros c1 c2 n H1 H2 Hn vs. split; [|split; [|split]].
  - apply pushNew_NoDup. constructor.
  - intros v. unfold vs. rewrite pushNew_In, in_app_iff. cbn [In]. tauto.
  - intros pre mid post res Hother Hrun.
    apply (same_name_anywhere pre mid post c1 c2 n res H1 H2 Hn Hother Hrun).
  - intros pre st Hpre Hf Hv Hacc.
    destruct (same_name_adjacent pre st c1 c2 n Hpre Hf H1 H2 Hn Hv Hacc)
      as [res [obj [Hrun [Hobj [Htpl [_ [_ [_ Hidem]]]]]]]].
    exists res, obj. auto.
Qed.

End Properties.

(** ** What every parse returns *)

Section Invariants.

Variable env : Collaborators.

(** *** The line loop adds no duplicate *)

Lemma extendAt_NoDup (vs : list string) (blocks : list LGConditionalResponse.t) :
  forall i,
    Forall (fun b => NoDup (LGConditionalResponse.variations b)) blocks ->
    Forall (fun b => NoDup (LGConditionalResponse.variations b)) (extendAt i vs blocks).
Proof.
  induction blocks as [|b blocks IH]; intros [|i] H; cbn [extendAt]; try assumption.
  - inversion H; subst. constructor; [|assumption].
    cbn [LGConditionalResponse.variations]. apply pushNew_NoDup. assumption.
  - inversion H; subst. constructor; [assumption|]. apply IH. assumption.
Qed.

Lemma flushItem_variations (bs : BodyState env) (tpl : LGTemplate.t) :
  flushItem env bs = Returns tpl ->
  LGTemplate.variations tpl = LGTemplate.variations (cLGTemplate bs).
Proof.
  unfold flushItem.
  destruct (inConditionalResponses bs && pushAtEnd bs).
  - destruct (conditionalResponseItem bs) as [|i|item]; try discriminate.
    + destruct (nth_error _ i); [|discriminate].
      intros H; inversion H; reflexivity.
    + intros H; inversion H; reflexivity.
  - intros H; inversion H; reflexivity.
Qed.

(** What [selectItem] leaves: the block of that condition, found in the
    array or created because the array has none. *)
Lemma selectItem_blocks (tpl : LGTemplate.t) (es : list (Entity env))
      (condition : string) (isCondition : bool) (bs : BodyState env) :
  selectItem env tpl es condition isCondition = Returns bs ->
  InSection env bs /\
  cLGTemplate bs = tpl /\
  (blocksOf env bs = LGTemplate.conditionalResponses tpl \/
   (blocksOf env bs =
      (LGTemplate.conditionalResponses tpl ++ [LGConditionalResponse.new condition])%list /\
    findCondition condition (LGTemplate.conditionalResponses tpl) = None)).
Proof.
  intros H. split; [apply (selectItem_InSection env _ _ _ _ _ H)|].
  split; [apply (selectItem_template env _ _ _ _ _ H)|].
  revert H. unfold selectItem, blocksOf.
  destruct (Nat.ltb 0 (List.length (LGTemplate.conditionalResponses tpl))) eqn:El.
  - destruct (findCondition condition _) as [i|] eqn:Ef.
    + intros H; inversion H; subst. left. reflexivity.
    + destruct (validateCondition (validators env) condition isCondition);
        cbn [bind]; [|discriminate].
      intros H; inversion H; subst. right. split; reflexivity.
  - destruct (validateCondition (validators env) condition isCondition);
      cbn [bind]; [|discriminate].
    intros H; inversion H; subst. right. split; [reflexivity|].
    destruct (LGTemplate.conditionalResponses tpl); [reflexivity|discriminate].
Qed.

Lemma processLine_withoutDuplicates (bs bs' : BodyState env) (line : string) :
  Ready env bs ->
  bodyWithoutDuplicates env bs ->
  processLine env bs line = Returns bs' ->
  bodyWithoutDuplicates env bs'.
Proof.
  intros Hr [Hv [Hc Hb]]. unfold processLine.
  destruct (negb (hasListDecoration _)); [discriminate|].
  assert (Branch : forall condition isCondition,
             (tpl <- flushItem env bs ;;
              selectItem env tpl
                (addEntities env (parseEntity env (removeTemplateLinkReferences line))
                             (bodyEntities bs)) condition isCondition) = Returns bs' ->
             bodyWithoutDuplicates env bs').
  { intros condition isCondition.
    destruct (flushItem_blocks env bs Hr) as [tpl [Ef [Hbt [_ Hvt]]]].
    rewrite Ef. cbn [bind]. intros H.
    destruct (selectItem_blocks _ _ _ _ _ H) as [_ [Ht Hblocks]].
    unfold bodyWithoutDuplicates. rewrite Ht, Hvt.
    split; [assumption|].
    destruct Hblocks as [-> | [-> Hnone]]; rewrite Hbt.
    - split; assumption.
    - split.
      + rewrite map_app. cbn [map LGConditionalResponse.new LGConditionalResponse.condition].
        apply NoDup_app; [assumption|repeat constructor; intros []|].
        intros x Hx [<-|[]]. apply includes_In in Hx.
        rewrite includes_conditions, <- Hbt, Hnone in Hx. discriminate.
      + apply Forall_app. split; [assumption|].
        repeat constructor. }
  destruct (Z.eqb (JS.indexOf (CONDITION (parserConsts env)) _) 0); [apply Branch|].
  destruct (Z.eqb (JS.indexOf (DEFAULT (parserConsts env)) _) 0); [apply Branch|].
  clear Branch.
  destruct (validateVariationItem (validators env)
              (JS.trim (JS.slice 1 (removeTemplateLinkReferences line))))
    as [valid|e] eqn:Ev.
  - destruct Hr as [[Hinc Hitem]|Hin].
    + unfold addVariation. rewrite Hinc, Ev. cbn [bind].
      intros H; inversion H; subst; clear H.
      unfold bodyWithoutDuplicates, blocksOf in *.
      cbn [cLGTemplate conditionalResponseItem]. rewrite Hitem in *.
      destruct (valid && negb (JS.includes _ _)) eqn:Ea.
      * cbn [LGTemplate.pushVariation LGTemplate.variations LGTemplate.conditionalResponses].
        split; [|split; assumption].
        apply andb_prop in Ea. destruct Ea as [_ Ea]. apply negb_true_iff in Ea.
        apply NoDup_app; [assumption|repeat constructor; intros []|].
        intros x Hx [<-|[]]. apply includes_In in Hx. congruence.
      * split; [assumption|split; assumption].
    + destruct (addVariation_section env bs
                  (addEntities env (parseEntity env (removeTemplateLinkReferences line))
                               (bodyEntities bs))
                  _ valid Hin Ev) as [bs1 [E1 [_ [_ [Hb1 [_ [Hv1 _]]]]]]].
      rewrite E1. intros H; inversion H; subst bs1; clear H.
      unfold bodyWithoutDuplicates. rewrite Hv1, Hb1, extendAt_conditions.
      split; [assumption|]. split; [assumption|]. apply extendAt_NoDup. assumption.
  - unfold addVariation.
    destruct (inConditionalResponses bs).
    + destruct (conditionalResponseItem bs) as [|i|b].
      * rewrite Ev. discriminate.
      * destruct (nth_error _ i); rewrite Ev; discriminate.
      * rewrite Ev. discriminate.
    + rewrite Ev. discriminate.
Qed.

Lemma processLines_withoutDuplicates (lines : list string) :
  forall bs bs' : BodyState env,
    Ready env bs ->
    bodyWithoutDuplicates env bs ->
    processLines env bs lines = Returns bs' ->
    Ready env bs' /\ bodyWithoutDuplicates env bs'.
Proof.
  induction lines as [|line lines IH]; intros bs bs' Hr Hd; cbn [processLines].
  - intros H; inversion H; subst. split; assumption.
  - destruct (processLine env bs line) as [bs1|e] eqn:E; cbn [bind]; [|discriminate].
    apply IH.
    + apply (processLine_Ready env bs bs1 line Hr E).
    + apply (processLine_withoutDuplicates bs bs1 line Hr Hd E).
Qed.

(** *** Every template of the state is named, filled and free of duplicates *)

Lemma templateChunk_steps (st st' : ParserState env) (chunk : string) :
  isTemplateChunk env chunk = true ->
  processChunk env st chunk = Returns st' ->
  exists h r flag bs tpl,
    selectTemplate env st (templateNameOf chunk) = Returns (h, r, flag) /\
    processLines env (startOfBody env st (h, r, flag)) (bodyOf chunk) = Returns bs /\
    flushItem env bs = Returns tpl /\
    (LGTemplate.variations tpl <> [] \/ LGTemplate.conditionalResponses tpl <> []) /\
    heap st' = store h r tpl /\
    LGTemplates st' =
      (if negb (String.eqb (LGTemplate.name tpl) "") && pushAtEnd bs
       then (LGTemplates st ++ [r])%list else LGTemplates st) /\
    entities st' = bodyEntities bs /\
    additionalFilesToParse st' = additionalFilesToParse st.
Proof.
  intros Ht.
  rewrite (processChunk_template env st chunk Ht), templateChunk_unfold.
  destruct (selectTemplate env st (templateNameOf chunk)) as [[[h r] flag]|e] eqn:Es;
    cbn [bind]; [|discriminate].
  destruct (processLines env _ (bodyOf chunk)) as [bs|e] eqn:Ep; cbn [bind]; [|discriminate].
  destruct (flushItem env bs) as [tpl|e] eqn:Ef; cbn [bind]; [|discriminate].
  destruct (Nat.eqb (List.length (LGTemplate.variations tpl)) 0 &&
            Nat.eqb (List.length (LGTemplate.conditionalResponses tpl)) 0) eqn:Echeck;
    [discriminate|].
  intros H; inversion H; subst st'; clear H.
  exists h, r, flag, bs, tpl. cbn [heap LGTemplates entities additionalFilesToParse fst snd].
  split; [reflexivity|]. split; [exact Ep|]. split; [exact Ef|].
  split; [|auto].
  apply andb_false_iff in Echeck. destruct Echeck as [E|E]; apply Nat.eqb_neq in E;
    [left|right]; intros Hnil; rewrite Hnil in E; apply E; reflexivity.
Qed.

Lemma selectTemplate_start (st : ParserState env) (n : string)
      (h : list LGTemplate.t) (r : nat) (flag : bool) :
  wfState st ->
  selectTemplate env st n = Returns (h, r, flag) ->
  (exists extra, h = (heap st ++ extra)%list) /\
  r < List.length h /\
  ((In r (LGTemplates st) /\ deref h r = deref (heap st) r) \/
   (List.length (heap st) <= r /\ deref h r = LGTemplate.new n)).
Proof.
  intros Hwf Hs.
  destruct (selectTemplate_heap env st n h r flag Hwf Hs) as [Hext [Hr _]].
  split; [assumption|]. split; [assumption|].
  revert Hs. unfold selectTemplate, allocTemplate, newLGTemplate.
  destruct (Nat.ltb 0 (List.length (LGTemplates st))).
  - destruct (findTemplate (heap st) n (LGTemplates st)) as [r0|] eqn:Ef; cbn [bind].
    + destruct (findTemplate_Some _ _ _ _ Ef) as [Hin _].
      destruct (String.eqb (LGTemplate.name (deref (heap st) r0)) "").
      * destruct (validateTemplateName env n); cbn [bind]; [|discriminate].
        intros H; inversion H; subst. right. split; [lia|apply deref_app_last].
      * intros H; inversion H; subst. left. split; [assumption|reflexivity].
    + destruct (validateTemplateName env n); cbn [bind fst snd]; [|discriminate].
      destruct (String.eqb _ "").
      * cbn [bind]. intros H; inversion H; subst. right.
        split; [rewrite length_app; lia|apply deref_app_last].
      * intros H; inversion H; subst. right. split; [lia|apply deref_app_last].
  - cbn [bind]. destruct (validateTemplateName env n); cbn [bind]; [|discriminate].
    intros H; inversion H; subst. right. split; [lia|apply deref_app_last].
Qed.

Lemma new_withoutDuplicates (n : string) : withoutDuplicates (LGTemplate.new n).
Proof. repeat split; constructor. Qed.

Lemma processChunk_templates (st st' : ParserState env) (chunk : string) :
  wfState st ->
  Forall (fun tpl => namedAndFilled tpl /\ withoutDuplicates tpl) (templatesOf st) ->
  processChunk env st chunk = Returns st' ->
  Forall (fun tpl => namedAndFilled tpl /\ withoutDuplicates tpl) (templatesOf st').
Proof.
  intros Hwf Hgood Hrun.
  destruct (isTemplateChunk env chunk) eqn:Ht.
  2:{ destruct (otherKinds_effect env st st' chunk Ht Hrun) as [Hh Hrefs].
      unfold templatesOf. rewrite Hh, Hrefs. exact Hgood. }
  destruct (templateChunk_steps st st' chunk Ht Hrun)
    as [h [r [flag [bs [tpl [Es [Ep [Ef [Hfill [Hh [Hrefs _]]]]]]]]]]].
  destruct (selectTemplate_start st _ h r flag Hwf Es) as [[extra Hext] [Hr Hstart]].
  assert (Hname : LGTemplate.name tpl = LGTemplate.name (deref h r)).
  { rewrite (flushItem_name env bs tpl Ef), (processLines_name env _ _ _ Ep). reflexivity. }
  assert (Hdup : withoutDuplicates (deref h r) -> withoutDuplicates tpl).
  { intros Hd.
    destruct (processLines_withoutDuplicates (bodyOf chunk) _ bs
                (startOfBody_Ready env st (h, r, flag)) Hd Ep) as [Hrb [Hv [Hc Hb]]].
    destruct (flushItem_blocks env bs Hrb) as [tpl' [Ef' [Hbt [_ Hvt]]]].
    rewrite Ef in Ef'. inversion Ef'; subst tpl'.
    unfold withoutDuplicates. rewrite Hbt, Hvt. repeat split; assumption. }
  assert (Hall : forall r0, In r0 (LGTemplates st) ->
             namedAndFilled (deref (heap st) r0) /\ withoutDuplicates (deref (heap st) r0)).
  { intros r0 Hin. unfold templatesOf in Hgood. rewrite Forall_forall in Hgood.
    apply Hgood. apply in_map. assumption. }
  assert (Hold : Forall (fun tpl0 => namedAndFilled tpl0 /\ withoutDuplicates tpl0)
                        (map (deref (store h r tpl)) (LGTemplates st))).
  { rewrite Forall_forall. intros t Hin. apply in_map_iff in Hin.
    destruct Hin as [r0 [<- Hin]].
    assert (Hr0 : r0 < List.length (heap st)).
    { unfold wfState in Hwf. rewrite Forall_forall in Hwf. apply Hwf. assumption. }
    destruct (Nat.eq_dec r r0) as [->|Hne].
    - rewrite deref_store_same by assumption.
      destruct Hstart as [[_ Hsame]|[Hfresh _]]; [|lia].
      destruct (Hall r0 Hin) as [[Hn _] Hd]. rewrite <- Hsame in Hn, Hd.
      split; [split; [rewrite Hname; assumption|assumption]|apply Hdup; assumption].
    - rewrite deref_store_other by assumption. rewrite Hext.
      rewrite deref_app by assumption. apply Hall. assumption. }
  unfold templatesOf. rewrite Hh, Hrefs.
  destruct (negb (String.eqb (LGTemplate.name tpl) "") && pushAtEnd bs) eqn:Epush;
    [|exact Hold].
  rewrite map_app. apply Forall_app. split; [exact Hold|].
  cbn [map]. constructor; [|constructor].
  rewrite deref_store_same by assumption.
  apply andb_prop in Epush. destruct Epush as [Hn _].
  apply negb_true_iff in Hn. apply String.eqb_neq in Hn.
  split; [split; assumption|]. apply Hdup.
  destruct Hstart as [[Hin Hsame]|[_ Hnew]].
  - rewrite Hsame. apply Hall. assumption.
  - rewrite Hnew. apply new_withoutDuplicates.
Qed.

Lemma forEachChunk_templates (chunks : list string) :
  forall st st' : ParserState env,
    wfState st ->
    Forall (fun tpl => namedAndFilled tpl /\ withoutDuplicates tpl) (templatesOf st) ->
    forEachChunk env st chunks = Returns st' ->
    Forall (fun tpl => namedAndFilled tpl /\ withoutDuplicates tpl) (templatesOf st').
Proof.
  induction chunks as [|chunk chunks IH]; intros st st' Hwf Hgood; cbn [forEachChunk].
  - intros H; inversion H; subst. assumption.
  - destruct (processChunk env st chunk) as [st1|e] eqn:E; cbn [bind]; [|discriminate].
    apply IH.
    + apply (processChunk_wf env st st1 chunk Hwf E).
    + apply (processChunk_templates st st1 chunk Hwf Hgood E).
Qed.

(** What [toLG] returns is the fresh object or the object the chunk loop
    has filled. *)
Lemma toLG_returns (v : JSValue) (res : LGParsedObj.t (EntityType env)) :
  toLG env v = Returns res ->
  res = LGParsedObj.new \/
  exists chunks st,
    v = JSArray chunks /\
    forEachChunk env initialState chunks = Returns st /\
    res = parsedObjOf st.
Proof.
  unfold toLG.
  destruct (falsy v); [intros H; inversion H; left; reflexivity|].
  destruct v as [| | | | | |chunks]; cbn [instanceofArray negb];
    try (intros H; inversion H; left; reflexivity).
  destruct (Nat.eqb (List.length chunks) 0); [intros H; inversion H; left; reflexivity|].
  destruct (forEachChunk env initialState chunks) as [st|e] eqn:E; cbn [bind];
    [|discriminate].
  intros H; inversion H. right. exists chunks, st. auto.
Qed.

(** X1. Every template of a parse that returns has a name that is not
    empty and has a variation or a conditional response. *)
Theorem returned_templates_named_and_filled :
  forall (v : JSValue) (res : LGParsedObj.t (EntityType env))
         (obj : LGObject.t (EntityType env)) (tpl : LGTemplate.t),
    toLG env v = Returns res ->
    LGParsedObj.LGObject res = Some obj ->
    In tpl (LGObject.LGTemplates obj) ->
    LGTemplate.name tpl <> "" /\
    (LGTemplate.variations tpl <> [] \/ LGTemplate.conditionalResponses tpl <> []).
Proof.
  intros v res obj tpl Hrun Hobj Hin.
  destruct (toLG_returns v res Hrun) as [->|[chunks [st [_ [Hst ->]]]]]; [discriminate|].
  cbn in Hobj. inversion Hobj; subst obj; clear Hobj. cbn [LGObject.LGTemplates] in Hin.
  pose proof (forEachChunk_templates chunks _ _ (initialState_wf env) (Forall_nil _) Hst)
    as Hgood.
  rewrite Forall_forall in Hgood. apply (Hgood tpl Hin).
Qed.

(** X2. In every template of a parse that returns, the conditional
    responses have condition texts that differ from one another. *)
Theorem returned_conditions_distinct :
  forall (v : JSValue) (res : LGParsedObj.t (EntityType env))
         (obj : LGObject.t (EntityType env)) (tpl : LGTemplate.t),
    toLG env v = Returns res ->
    LGParsedObj.LGObject res = Some obj ->
    In tpl (LGObject.LGTemplates obj) ->
    NoDup (map LGConditionalResponse.condition (LGTemplate.conditionalResponses tpl)).
Proof.
  intros v res obj tpl Hrun Hobj Hin.
  destruct (toLG_returns v res Hrun) as [->|[chunks [st [_ [Hst ->]]]]]; [discriminate|].
  cbn in Hobj. inversion Hobj; subst obj; clear Hobj. cbn [LGObject.LGTemplates] in Hin.
  pose proof (forEachChunk_templates chunks _ _ (initialState_wf env) (Forall_nil _) Hst)
    as Hgood.
  rewrite Forall_forall in Hgood. apply (Hgood tpl Hin).
Qed.

(** X3. In every template of a parse that returns, no variation is
    listed twice: not among the variations of the template, and not among
    those of any of its conditional responses. *)
Theorem returned_variations_distinct :
  forall (v : JSValue) (res : LGParsedObj.t (EntityType env))
         (obj : LGObject.t (EntityType env)) (tpl : LGTemplate.t),
    toLG env v = Returns res ->
    LGParsedObj.LGObject res = Some obj ->
    In tpl (LGObject.LGTemplates obj) ->
    NoDup (LGTemplate.variations tpl) /\
    forall b, In b (LGTemplate.conditionalResponses tpl) ->
              NoDup (LGConditionalResponse.variations b).
Proof.
  intros v res obj tpl Hrun Hobj Hin.
  destruct (toLG_returns v res Hrun) as [->|[chunks [st [_ [Hst ->]]]]]; [discriminate|].
  cbn in Hobj. inversion Hobj; subst obj; clear Hobj. cbn [LGObject.LGTemplates] in Hin.
  pose proof (forEachChunk_templates chunks _ _ (initialState_wf env) (Forall_nil _) Hst)
    as Hgood.
  rewrite Forall_forall in Hgood. destruct (Hgood tpl Hin) as [_ [Hv [_ Hb]]].
  split; [assumption|]. rewrite Forall_forall in Hb. exact Hb.
Qed.

(** X4. The entities of a parse that returns have names that differ from
    one another. *)
Theorem returned_entities_distinct :
  forall (v : JSValue) (res : LGParsedObj.t (EntityType env))
         (obj : LGObject.t (EntityType env)),
    toLG env v = Returns res ->
    LGParsedObj.LGObject res = Some obj ->
    NoDup (map LGEntity.name (LGObject.entities obj)).
Proof.
  intros v res obj Hrun Hobj.
  destruct (toLG_returns v res Hrun) as [->|[chunks [st [_ [Hst ->]]]]]; [discriminate|].
  cbn in Hobj. inversion Hobj; subst obj; clear Hobj. cbn [LGObject.entities].
  apply (forEachChunk_entities env chunks _ _ (initialState_entities env) Hst).
Qed.

(** *** The files a parse asks for *)

Lemma processChunk_files (st st' : ParserState env) (chunk : string) :
  processChunk env st chunk = Returns st' ->
  additionalFilesToParse st' =
    (additionalFilesToParse st ++
     (if isFileRefChunk env chunk then [linkValueOf chunk] else []))%list /\
  (isFileRefChunk env chunk = true -> linkValueOf chunk <> "").
Proof.
  intros Hrun. unfold isFileRefChunk.
  destruct (isTemplateChunk env chunk) eqn:Ht; cbn [negb andb].
  - destruct (templateChunk_steps st st' chunk Ht Hrun)
      as [h [r [flag [bs [tpl [_ [_ [_ [_ [_ [_ [_ Hf]]]]]]]]]]]].
    rewrite Hf, app_nil_r. split; [reflexivity|discriminate].
  - destruct (Z.eqb (JS.indexOf (FILEREF (parserConsts env)) (JS.trim chunk)) 0) eqn:Ef.
    + assert (Hs : JS.startsWith (FILEREF (parserConsts env)) (JS.trim chunk) = true)
        by (rewrite <- indexOf_zero; exact Ef).
      rewrite (fileRefChunk_unfold env st chunk Ht Hs) in Hrun.
      unfold fileRefChunk in Hrun. unfold linkValueOf.
      destruct (JS.firstParenMatch _) as [first|]; [|discriminate].
      destruct (String.eqb _ "") eqn:El; [discriminate|].
      inversion Hrun; subst st'. cbn [additionalFilesToParse].
      split; [reflexivity|]. intros _. apply String.eqb_neq. exact El.
    + split; [|discriminate]. rewrite app_nil_r.
      revert Hrun. unfold processChunk. unfold isTemplateChunk in Ht. rewrite Ht, Ef.
      destruct (Z.eqb (JS.indexOf (ENTITY (parserConsts env)) (JS.trim chunk)) 0);
        [|discriminate].
      unfold entityChunk.
      destruct (negb (Nat.eqb (List.length _) 2)); [discriminate|].
      destruct (hasEntity env _ (entities st)).
      * destruct (getEntityType env _); cbn [bind]; [|discriminate].
        intros H; inversion H; reflexivity.
      * intros H; inversion H; reflexivity.
Qed.

Lemma forEachChunk_files (chunks : list string) :
  forall st st' : ParserState env,
    forEachChunk env st chunks = Returns st' ->
    additionalFilesToParse st' =
      (additionalFilesToParse st ++
       map linkValueOf (filter (isFileRefChunk env) chunks))%list /\
    Forall (fun f => f <> "") (map linkValueOf (filter (isFileRefChunk env) chunks)).
Proof.
  induction chunks as [|chunk chunks IH]; intros st st'; cbn [forEachChunk filter map].
  - intros H; inversion H; subst. rewrite app_nil_r. split; [reflexivity|constructor].
  - destruct (processChunk env st chunk) as [st1|e] eqn:E; cbn [bind]; [|discriminate].
    intros Hrest. destruct (IH st1 st' Hrest) as [Hf Hne].
    destruct (processChunk_files st st1 chunk E) as [H1 H2].
    rewrite Hf, H1.
    destruct (isFileRefChunk env chunk); cbn [map].
    + rewrite <- app_assoc. split; [reflexivity|].
      constructor; [apply H2; reflexivity|assumption].
    + rewrite app_nil_r. split; [reflexivity|assumption].
Qed.

(** X5. The files a parse that returns asks its caller to parse are the
    link values of the file reference chunks, one for each such chunk and
    in the order of the chunks, and none of them is the empty text. *)
Theorem returned_files_follow_chunks :
  forall (chunks : list string) (res : LGParsedObj.t (EntityType env)),
    toLG env (JSArray chunks) = Returns res ->
    LGParsedObj.additionalFilesToParse res =
      map linkValueOf (filter (isFileRefChunk env) chunks) /\
    Forall (fun f => f <> "") (LGParsedObj.additionalFilesToParse res).
Proof.
  intros chunks res Hrun.
  destruct (toLG_returns _ res Hrun) as [->|[chunks' [st [Hv [Hst ->]]]]].
  - revert Hrun. unfold toLG. cbn [falsy instanceofArray negb].
    destruct chunks as [|c cs]; cbn [List.length Nat.eqb filter map].
    + intros _. split; [reflexivity|constructor].
    + destruct (forEachChunk env initialState (c :: cs)) as [st|e] eqn:E; cbn [bind];
        [|discriminate].
      intros H; inversion H.
  - inversion Hv; subst chunks'.
    destruct (forEachChunk_files _ _ _ Hst) as [Hf Hne].
    cbn [initialState additionalFilesToParse app] in Hf.
    cbn [parsedObjOf LGParsedObj.additionalFilesToParse].
    rewrite Hf. split; [reflexivity|assumption].
Qed.

(** The first match of [\(.*?\)] in a text whose first opening
    parenthesis is followed by [target] and a closing parenthesis. *)
Lemma lazyUntilParen_target (target : string) :
  forall post,
    countChar ")" target = 0 ->
    onOneLine target = true ->
    JS.lazyUntilParen (target ++ String ")" post) = Some target.
Proof.
  induction target as [|c target IH]; intros post Hc Hl.
  - reflexivity.
  - cbn [append JS.lazyUntilParen]. cbn [countChar] in Hc. cbn [onOneLine] in Hl.
    apply andb_prop in Hl. destruct Hl as [Hl1 Hl2].
    destruct (Ascii.eqb c ")") eqn:E; [cbn in Hc; lia|].
    apply negb_true_iff in Hl1. rewrite Hl1.
    rewrite IH; [reflexivity|cbn in Hc; lia|assumption].
Qed.

Lemma firstParenMatch_target (pre : string) :
  forall target post,
    countChar "(" pre = 0 ->
    countChar ")" target = 0 ->
    onOneLine target = true ->
    JS.firstParenMatch (pre ++ String "(" (target ++ String ")" post)) =
      Some ("(" ++ target ++ ")").
Proof.
  induction pre as [|c pre IH]; intros target post Hp Hc Hl.
  - cbn [append JS.firstParenMatch]. 
    replace (Ascii.eqb "(" "(") with true by reflexivity.
    rewrite (lazyUntilParen_target target post Hc Hl). reflexivity.
  - cbn [append JS.firstParenMatch]. cbn [countChar] in Hp.
    destruct (Ascii.eqb c "(") eqn:E; [cbn in Hp; lia|].
    apply IH; [cbn in Hp; lia|assumption|assumption].
Qed.

Lemma replace_parens (target : string) :
  countChar ")" target = 0 ->
  JS.replace ")" "" (JS.replace "(" "" ("(" ++ target ++ ")")) = target.
Proof.
  intros Hc.
  replace (JS.replace "(" "" ("(" ++ target ++ ")")) with (target ++ ")")
    by reflexivity.
  induction target as [|c target IH].
  - reflexivity.
  - cbn [countChar] in Hc.
    destruct (Ascii.eqb c ")") eqn:E; [cbn in Hc; lia|].
    cbn [append JS.replace JS.startsWith]. 
    replace (Ascii.eqb ")" c) with false by (rewrite Ascii.eqb_sym; symmetry; exact E).
    cbn [andb]. rewrite IH; [reflexivity|cbn in Hc; lia].
Qed.

(** X6. A file reference chunk whose first line, trimmed, reads
    [pre(target)post], with no opening parenthesis in [pre] and neither a
    closing parenthesis nor a line terminator in [target], asks for the
    file [target]; when [target] is empty it throws an [Exception] of code
    [INVALID_LG_FILE_REF] that quotes the first line. *)
Theorem file_reference_target :
  forall (st : ParserState env) (chunk pre target post : string),
    isFileRefChunk env chunk = true ->
    JS.trim (nth 0 (JS.splitLines (JS.trim chunk)) "") =
      pre ++ "(" ++ target ++ ")" ++ post ->
    countChar "(" pre = 0 ->
    countChar ")" target = 0 ->
    onOneLine target = true ->
    processChunk env st chunk =
      if String.eqb target "" then
        Throws (ThrownException INVALID_LG_FILE_REF
                  ("[ERROR]: " ++ "Invalid LU File Ref: " ++
                   nth 0 (JS.splitLines (JS.trim chunk)) ""))
      else Returns {| heap := heap st;
                      LGTemplates := LGTemplates st;
                      entities := entities st;
                      additionalFilesToParse :=
                        (additionalFilesToParse st ++ [target])%list |}.
Proof.
  intros st chunk pre target post Hk Hline Hp Hc Hl.
  unfold isFileRefChunk in Hk. apply andb_prop in Hk. destruct Hk as [Ht Hf].
  apply negb_true_iff in Ht. rewrite indexOf_zero in Hf.
  rewrite (fileRefChunk_unfold env st chunk Ht Hf). unfold fileRefChunk.
  rewrite Hline.
  change (pre ++ "(" ++ target ++ ")" ++ post)
    with (pre ++ String "(" (target ++ String ")" post)).
  rewrite (firstParenMatch_target pre target post Hp Hc Hl).
  rewrite (replace_parens target Hc). reflexivity.
Qed.

(** *** The variations of the template itself *)

Lemma flushItem_flat (bs : BodyState env) (tpl : LGTemplate.t) :
  flushItem env bs = Returns tpl ->
  LGTemplate.variations tpl = LGTemplate.variations (cLGTemplate bs).
Proof.
  unfold flushItem.
  destruct (inConditionalResponses bs && pushAtEnd bs).
  - destruct (conditionalResponseItem bs) as [|i|b].
    + discriminate.
    + destruct (nth_error _ i); [|discriminate]. intros H; inversion H; reflexivity.
    + intros H; inversion H; reflexivity.
  - intros H; inversion H; reflexivity.
Qed.

Lemma selectItem_flat (tpl : LGTemplate.t) (es : list (Entity env)) (c : string)
      (isCondition : bool) (bs' : BodyState env) :
  selectItem env tpl es c isCondition = Returns bs' ->
  inConditionalResponses bs' = true /\ cLGTemplate bs' = tpl.
Proof.
  unfold selectItem.
  destruct (Nat.ltb 0 _); [destruct (findCondition c _)|];
    try (destruct (validateCondition (validators env) c isCondition); cbn [bind];
         [|discriminate]);
    intros H; inversion H; split; reflexivity.
Qed.

Lemma addVariation_flat (bs bs' : BodyState env) (es : list (Entity env)) (item : string) :
  inConditionalResponses bs = true ->
  addVariation env bs es item = Returns bs' ->
  inConditionalResponses bs' = true /\
  LGTemplate.variations (cLGTemplate bs') = LGTemplate.variations (cLGTemplate bs).
Proof.
  intros Hin. unfold addVariation. rewrite Hin.
  destruct (conditionalResponseItem bs) as [|i|b].
  - destruct (validateVariationItem (validators env) item) as [valid|e]; cbn [bind];
      [|discriminate].
    destruct valid; [discriminate|]. intros H; inversion H; split; reflexivity.
  - destruct (nth_error _ i) as [b|].
    + destruct (validateVariationItem (validators env) item) as [valid|e]; cbn [bind];
        [|discriminate].
      intros H; inversion H; cbn [inConditionalResponses cLGTemplate].
      split; [reflexivity|].
      destruct (valid && negb _); reflexivity.
    + destruct (validateVariationItem (validators env) item) as [valid|e]; cbn [bind];
        [|discriminate].
      destruct valid; [discriminate|]. intros H; inversion H; split; reflexivity.
  - destruct (validateVariationItem (validators env) item) as [valid|e]; cbn [bind];
      [|discriminate].
    intros H; inversion H; split; reflexivity.
Qed.

Lemma processLine_branch (bs bs' : BodyState env) (line : string) :
  isBranchLine env line = true ->
  processLine env bs line = Returns bs' ->
  inConditionalResponses bs' = true /\
  LGTemplate.variations (cLGTemplate bs') = LGTemplate.variations (cLGTemplate bs).
Proof.
  unfold isBranchLine, startsCondition, startsDefault, payload, processLine.
  intros Hb. apply andb_prop in Hb. destruct Hb as [Hd Hb].
  rewrite hasListDecoration_removeTemplateLinkReferences, Hd. cbn [negb].
  destruct (Z.eqb (JS.indexOf (CONDITION (parserConsts env)) _) 0) eqn:Ec.
  - destruct (flushItem env bs) as [tpl|e] eqn:Ef; cbn [bind]; [|discriminate].
    intros H. destruct (selectItem_flat _ _ _ _ _ H) as [H1 H2].
    rewrite H2, (flushItem_flat bs tpl Ef). auto.
  - cbn [orb] in Hb. rewrite Hb.
    destruct (flushItem env bs) as [tpl|e] eqn:Ef; cbn [bind]; [|discriminate].
    intros H. destruct (selectItem_flat _ _ _ _ _ H) as [H1 H2].
    rewrite H2, (flushItem_flat bs tpl Ef). auto.
Qed.

Lemma processLine_flat (bs bs' : BodyState env) (line : string) :
  inConditionalResponses bs = true ->
  processLine env bs line = Returns bs' ->
  inConditionalResponses bs' = true /\
  LGTemplate.variations (cLGTemplate bs') = LGTemplate.variations (cLGTemplate bs).
Proof.
  intros Hin. unfold processLine.
  destruct (negb (hasListDecoration _)); [discriminate|].
  destruct (Z.eqb (JS.indexOf (CONDITION (parserConsts env)) _) 0);
    [|destruct (Z.eqb (JS.indexOf (DEFAULT (parserConsts env)) _) 0)].
  - destruct (flushItem env bs) as [tpl|e] eqn:Ef; cbn [bind]; [|discriminate].
    intros H. destruct (selectItem_flat _ _ _ _ _ H) as [H1 H2].
    rewrite H2, (flushItem_flat bs tpl Ef). auto.
  - destruct (flushItem env bs) as [tpl|e] eqn:Ef; cbn [bind]; [|discriminate].
    intros H. destruct (selectItem_flat _ _ _ _ _ H) as [H1 H2].
    rewrite H2, (flushItem_flat bs tpl Ef). auto.
  - apply addVariation_flat. assumption.
Qed.

Lemma processLines_flat (lines : list string) :
  forall bs bs' : BodyState env,
    inConditionalResponses bs = true ->
    processLines env bs lines = Returns bs' ->
    inConditionalResponses bs' = true /\
    LGTemplate.variations (cLGTemplate bs') = LGTemplate.variations (cLGTemplate bs).
Proof.
  induction lines as [|line lines IH]; intros bs bs' Hin; cbn [processLines].
  - intros H; inversion H; subst. auto.
  - destruct (processLine env bs line) as [bs1|e] eqn:E; cbn [bind]; [|discriminate].
    intros Hrest. destruct (processLine_flat bs bs1 line Hin E) as [H1 H2].
    destruct (IH bs1 bs' H1 Hrest) as [H3 H4]. rewrite H4, H2. auto.
Qed.

(** X7. Once the line loop of a template chunk has read a condition or a
    default line, the variations of the template itself stay as they are:
    every variation line that follows goes to a conditional response.  The
    template the chunk ends with has the variations the lines before the
    first such line have left. *)
Theorem variations_frozen_after_branch_line :
  forall (bs bs' : BodyState env) (pre rest : list string) (line : string)
         (tpl : LGTemplate.t),
    isBranchLine env line = true ->
    processLines env bs (pre ++ line :: rest) = Returns bs' ->
    flushItem env bs' = Returns tpl ->
    exists bs1,
      processLines env bs pre = Returns bs1 /\
      LGTemplate.variations tpl = LGTemplate.variations (cLGTemplate bs1).
Proof.
  intros bs bs' pre rest line tpl Hb Hrun Hflush.
  rewrite (processLines_app env) in Hrun.
  destruct (processLines env bs pre) as [bs1|e]; cbn [bind] in Hrun; [|discriminate].
  exists bs1. split; [reflexivity|].
  cbn [processLines] in Hrun.
  destruct (processLine env bs1 line) as [bs2|e] eqn:E; cbn [bind] in Hrun; [|discriminate].
  destruct (processLine_branch bs1 bs2 line Hb E) as [H1 H2].
  destruct (processLines_flat rest bs2 bs' H1 Hrun) as [_ H3].
  rewrite (flushItem_flat bs' tpl Hflush), H3, H2. reflexivity.
Qed.

(** *** The entities a parse returns *)

Lemma hasEntity_app (n : string) (es extra : list (Entity env)) :
  hasEntity env n (es ++ extra) = hasEntity env n es || hasEntity env n extra.
Proof. unfold hasEntity. apply existsb_app. Qed.

Lemma addEntities_keeps (found : list string) :
  forall (es : list (Entity env)) (n : string),
    hasEntity env n es = true -> hasEntity env n (addEntities env found es) = true.
Proof.
  induction found as [|item found IH]; intros es n Hn; cbn [addEntities]; [assumption|].
  apply IH. destruct (hasEntity env item es); [assumption|].
  rewrite hasEntity_app, Hn. reflexivity.
Qed.

Lemma addEntities_found (found : list string) :
  forall (es : list (Entity env)) (n : string),
    In n found -> hasEntity env n (addEntities env found es) = true.
Proof.
  induction found as [|item found IH]; intros es n Hin; [destruct Hin|].
  cbn [addEntities]. destruct Hin as [->|Hin]; [|apply IH; assumption].
  apply addEntities_keeps.
  destruct (hasEntity env n es) eqn:E; [assumption|].
  rewrite hasEntity_app, E. cbn [orb hasEntity existsb newLGEntity LGEntity.name].
  rewrite String.eqb_refl. reflexivity.
Qed.

Lemma entitiesAfter_keeps (lines : list string) :
  forall (es : list (Entity env)) (n : string),
    hasEntity env n es = true -> hasEntity env n (entitiesAfter env lines es) = true.
Proof.
  unfold entitiesAfter.
  induction lines as [|line lines IH]; intros es n Hn; cbn [fold_left]; [assumption|].
  apply IH. apply addEntities_keeps. assumption.
Qed.

Lemma entitiesAfter_found (lines : list string) :
  forall (es : list (Entity env)) (line n : string),
    In line lines ->
    In n (parseEntity env (removeTemplateLinkReferences line)) ->
    hasEntity env n (entitiesAfter env lines es) = true.
Proof.
  induction lines as [|l lines IH]; intros es line n Hl Hn; [destruct Hl|].
  destruct Hl as [->|Hl].
  - apply (entitiesAfter_keeps lines). apply addEntities_found. assumption.
  - apply (IH _ line n Hl Hn).
Qed.

Lemma templateChunk_mentions (st st' : ParserState env) (chunk line n : string) :
  isTemplateChunk env chunk = true ->
  processChunk env st chunk = Returns st' ->
  In line (bodyOf chunk) ->
  In n (parseEntity env (removeTemplateLinkReferences line)) ->
  hasEntity env n (entities st') = true.
Proof.
  intros Ht Hrun Hl Hn.
  destruct (templateChunk_steps st st' chunk Ht Hrun)
    as [h [r [flag [bs [tpl [_ [Ep [_ [_ [_ [_ [He _]]]]]]]]]]]].
  rewrite He, (processLines_entities env _ _ _ Ep).
  apply (entitiesAfter_found _ _ line n Hl Hn).
Qed.

(** The chunk loop seen from one of its chunks. *)
Lemma forEachChunk_In (chunks : list string) (chunk : string) (st' : ParserState env) :
  In chunk chunks ->
  forEachChunk env initialState chunks = Returns st' ->
  exists st1 st2 post,
    NoDup (map LGEntity.name (entities st1)) /\
    processChunk env st1 chunk = Returns st2 /\
    NoDup (map LGEntity.name (entities st2)) /\
    forEachChunk env st2 post = Returns st'.
Proof.
  intros Hin Hrun. apply in_split in Hin. destruct Hin as [pre [post ->]].
  destruct (forEachChunk_app_inv env pre (chunk :: post) _ _ Hrun) as [st1 [H1 H2]].
  destruct (forEachChunk_cons_inv env chunk post _ _ H2) as [st2 [H3 H4]].
  exists st1, st2, post.
  destruct (forEachChunk_entities env pre _ _ (initialState_entities env) H1) as [Hnd _].
  destruct (processChunk_entities env st1 st2 chunk Hnd H3) as [Hnd2 _].
  auto.
Qed.

(** X8. Every entity name that [parseEntity] finds in a body line of a
    template chunk is the name of an entity of the result of a parse that
    returns. *)
Theorem mentioned_entities_returned :
  forall (chunks : list string) (res : LGParsedObj.t (EntityType env))
         (obj : LGObject.t (EntityType env)) (chunk line n : string),
    toLG env (JSArray chunks) = Returns res ->
    LGParsedObj.LGObject res = Some obj ->
    In chunk chunks ->
    isTemplateChunk env chunk = true ->
    In line (bodyOf chunk) ->
    In n (parseEntity env (removeTemplateLinkReferences line)) ->
    In n (map LGEntity.name (LGObject.entities obj)).
Proof.
  intros chunks res obj chunk line n Hrun Hobj Hin Ht Hl Hn.
  destruct (toLG_returns _ res Hrun) as [->|[chunks' [st [Hv [Hst ->]]]]]; [discriminate|].
  inversion Hv; subst chunks'; clear Hv.
  cbn in Hobj. inversion Hobj; subst obj; clear Hobj. cbn [LGObject.entities].
  destruct (forEachChunk_In chunks chunk st Hin Hst)
    as [st1 [st2 [post [Hnd1 [Hc [Hnd2 Hpost]]]]]].
  apply hasEntity_In.
  apply (proj2 (forEachChunk_entities env post st2 st Hnd2 Hpost)).
  apply (templateChunk_mentions st1 st2 chunk line n Ht Hc Hl Hn).
Qed.

(** X9. Every entity chunk of a parse that returns has its name, the
    trimmed text before the colon, among the entities of the result. *)
Theorem defined_entities_returned :
  forall (chunks : list string) (res : LGParsedObj.t (EntityType env))
         (obj : LGObject.t (EntityType env)) (chunk : string),
    toLG env (JSArray chunks) = Returns res ->
    LGParsedObj.LGObject res = Some obj ->
    In chunk chunks ->
    isEntityChunk env chunk = true ->
    In (entityNameOf env chunk) (map LGEntity.name (LGObject.entities obj)).
Proof.
  intros chunks res obj chunk Hrun Hobj Hin Hk.
  destruct (toLG_returns _ res Hrun) as [->|[chunks' [st [Hv [Hst ->]]]]]; [discriminate|].
  inversion Hv; subst chunks'; clear Hv.
  cbn in Hobj. inversion Hobj; subst obj; clear Hobj. cbn [LGObject.entities].
  destruct (forEachChunk_In chunks chunk st Hin Hst)
    as [st1 [st2 [post [Hnd1 [Hc [Hnd2 Hpost]]]]]].
  apply hasEntity_In.
  apply (proj2 (forEachChunk_entities env post st2 st Hnd2 Hpost)).
  apply (entityChunk_defines env st1 st2 chunk _ (entityTypeOf env chunk)); [|assumption].
  split; [assumption|]. split; [|split; reflexivity].
  rewrite (entityChunk_unfold env st1 chunk Hk) in Hc.
  destruct (Nat.eqb (List.length (entityDefOf env chunk)) 2) eqn:E;
    [apply Nat.eqb_eq; assumption|discriminate].
Qed.

(** *** The order of the result *)

Lemma processChunk_entity_order (st st' : ParserState env) (chunk : string) :
  NoDup (map LGEntity.name (entities st)) ->
  processChunk env st chunk = Returns st' ->
  exists extra,
    map LGEntity.name (entities st') = (map LGEntity.name (entities st) ++ extra)%list.
Proof.
  intros Hnd Hrun.
  destruct (isTemplateChunk env chunk) eqn:Ht.
  - destruct (templateChunk_steps st st' chunk Ht Hrun)
      as [h [r [flag [bs [tpl [_ [Ep [_ [_ [_ [_ [He _]]]]]]]]]]]].
    rewrite He, (processLines_entities env _ _ _ Ep).
    destruct (entitiesAfter_grows env (bodyOf chunk) (entities st) Hnd) as [_ [extra Hx]].
    exists (map LGEntity.name extra). cbn [startOfBody bodyEntities].
    rewrite Hx, map_app. reflexivity.
  - revert Hrun. unfold processChunk. unfold isTemplateChunk in Ht. rewrite Ht.
    destruct (Z.eqb (JS.indexOf (FILEREF (parserConsts env)) (JS.trim chunk)) 0).
    + unfold fileRefChunk. destruct (JS.firstParenMatch _); [|discriminate].
      destruct (String.eqb _ ""); [discriminate|].
      intros H; inversion H; subst st'. exists []. rewrite app_nil_r. reflexivity.
    + destruct (Z.eqb (JS.indexOf (ENTITY (parserConsts env)) (JS.trim chunk)) 0);
        [|discriminate].
      unfold entityChunk.
      destruct (negb (Nat.eqb (List.length _) 2)); [discriminate|].
      destruct (hasEntity env _ (entities st)).
      * destruct (getEntityType env _) as [ty|e]; cbn [bind]; [|discriminate].
        intros H; inversion H; subst st'. cbn [entities]. exists [].
        rewrite app_nil_r. apply setFirstEntityType_names.
      * intros H; inversion H; subst st'. cbn [entities].
        eexists. rewrite map_app. reflexivity.
Qed.

Lemma processChunk_template_order (st st' : ParserState env) (chunk : string) :
  wfState st ->
  processChunk env st chunk = Returns st' ->
  exists extra,
    map LGTemplate.name (templatesOf st') =
      (map LGTemplate.name (templatesOf st) ++ extra)%list.
Proof.
  intros Hwf Hrun.
  assert (Hold : map LGTemplate.name (map (deref (heap st')) (LGTemplates st)) =
                 map LGTemplate.name (map (deref (heap st)) (LGTemplates st))).
  { rewrite !map_map. apply map_ext_in. intros r0 Hin.
    apply (processChunk_names env st st' chunk Hwf Hrun).
    unfold wfState in Hwf. rewrite Forall_forall in Hwf. apply Hwf. assumption. }
  unfold templatesOf.
  destruct (isTemplateChunk env chunk) eqn:Ht.
  - destruct (templateChunk_effect env st st' chunk Hwf Ht Hrun)
      as [h [r [tpl [_ [_ [_ [_ [_ [Hrefs|Hrefs]]]]]]]]]; rewrite Hrefs.
    + exists []. rewrite app_nil_r. exact Hold.
    + rewrite !map_app, Hold. eexists. reflexivity.
  - destruct (otherKinds_effect env st st' chunk Ht Hrun) as [_ Hrefs].
    rewrite Hrefs. exists []. rewrite app_nil_r. exact Hold.
Qed.

Lemma forEachChunk_order (chunks : list string) :
  forall st st' : ParserState env,
    wfState st ->
    NoDup (map LGEntity.name (entities st)) ->
    forEachChunk env st chunks = Returns st' ->
    (exists extra,
        map LGTemplate.name (templatesOf st') =
          (map LGTemplate.name (templatesOf st) ++ extra)%list) /\
    (exists extra,
        map LGEntity.name (entities st') =
          (map LGEntity.name (entities st) ++ extra)%list).
Proof.
  induction chunks as [|chunk chunks IH]; intros st st' Hwf Hnd; cbn [forEachChunk].
  - intros H; inversion H; subst. split; exists []; rewrite app_nil_r; reflexivity.
  - destruct (processChunk env st chunk) as [st1|e] eqn:E; cbn [bind]; [|discriminate].
    intros Hrest.
    destruct (processChunk_template_order st st1 chunk Hwf E) as [x1 Hx1].
    destruct (processChunk_entity_order st st1 chunk Hnd E) as [y1 Hy1].
    destruct (IH st1 st' (processChunk_wf env st st1 chunk Hwf E)
                 (proj1 (processChunk_entities env st st1 chunk Hnd E)) Hrest)
      as [[x2 Hx2] [y2 Hy2]].
    split.
    + exists (x1 ++ x2)%list. rewrite Hx2, Hx1, app_assoc. reflexivity.
    + exists (y1 ++ y2)%list. rewrite Hy2, Hy1, app_assoc. reflexivity.
Qed.

(** X10. Chunks never remove or reorder what the chunks before them have
    given: the names of the templates and the names of the entities of
    the parse of the first chunks of a list are, in the same order, the
    first names of the templates and of the entities of the parse of the
    whole list. *)
Theorem later_chunks_keep_order :
  forall (pre post : list string)
         (res1 res : LGParsedObj.t (EntityType env))
         (obj1 obj : LGObject.t (EntityType env)),
    toLG env (JSArray pre) = Returns res1 ->
    LGParsedObj.LGObject res1 = Some obj1 ->
    toLG env (JSArray (pre ++ post)) = Returns res ->
    LGParsedObj.LGObject res = Some obj ->
    (exists extra,
        map LGTemplate.name (LGObject.LGTemplates obj) =
          (map LGTemplate.name (LGObject.LGTemplates obj1) ++ extra)%list) /\
    (exists extra,
        map LGEntity.name (LGObject.entities obj) =
          (map LGEntity.name (LGObject.entities obj1) ++ extra)%list).
Proof.
  intros pre post res1 res obj1 obj Hpre Hobj1 Hrun Hobj.
  destruct (toLG_returns _ res1 Hpre) as [->|[chunks1 [st [Hv1 [Hst1 ->]]]]];
    [discriminate|].
  inversion Hv1; subst chunks1; clear Hv1.
  cbn in Hobj1. inversion Hobj1; subst obj1; clear Hobj1.
  destruct (toLG_returns _ res Hrun) as [->|[chunks' [st' [Hv [Hst ->]]]]]; [discriminate|].
  inversion Hv; subst chunks'; clear Hv.
  cbn in Hobj. inversion Hobj; subst obj; clear Hobj.
  cbn [LGObject.entities LGObject.LGTemplates].
  destruct (forEachChunk_app_inv env pre post _ _ Hst) as [st1 [H1 H2]].
  rewrite Hst1 in H1. inversion H1; subst st1.
  apply (forEachChunk_order post st st').
  - apply (forEachChunk_wf env pre _ _ (initialState_wf env) Hst1).
  - apply (forEachChunk_entities env pre _ _ (initialState_entities env) Hst1).
  - assumption.
Qed.

(** *** Entity definitions and their colon *)

Lemma split_length (sep : ascii) (s : string) :
  List.length (JS.split sep s) = S (countChar sep s).
Proof.
  induction s as [|c s IH]; [reflexivity|].
  cbn [JS.split countChar]. destruct (Ascii.eqb c sep).
  - cbn [List.length]. rewrite IH. reflexivity.
  - destruct (JS.split sep s) as [|p ps]; [discriminate|].
    cbn [JS.consHead List.length] in *. rewrite IH. reflexivity.
Qed.

(** X11. An entity chunk is read by its colons: when the first line,
    with the entity marker removed, has no colon or more than one, the
    chunk throws an [Exception] of code [INVALID_ENTITY_DEFINITION] that
    quotes the line; when it has exactly one colon and no entity has the
    name yet, the chunk adds at the end an entity with the name, the type
    and the attributes read from the line, and changes nothing else. *)
Theorem entity_definition_colons :
  forall (st : ParserState env) (chunk : string),
    isEntityChunk env chunk = true ->
    let line0 := nth 0 (JS.splitLines (JS.trim chunk)) "" in
    let colons := countChar ":" (JS.replace (ENTITY (parserConsts env)) "" line0) in
    (colons <> 1 ->
     processChunk env st chunk =
       Throws (ThrownException INVALID_ENTITY_DEFINITION (invalidEntityText line0))) /\
    (colons = 1 ->
     hasEntity env (entityNameOf env chunk) (entities st) = false ->
     processChunk env st chunk =
       Returns {| heap := heap st;
                  LGTemplates := LGTemplates st;
                  entities :=
                    (entities st ++
                     [LGEntity.mk (entityNameOf env chunk)
                        (entityTypeOfArgument env (Some (entityTypeOf env chunk)))
                        (entityAttributesOf env chunk)])%list;
                  additionalFilesToParse := additionalFilesToParse st |}).
Proof.
  intros st chunk Hk line0 colons.
  rewrite (entityChunk_unfold env st chunk Hk).
  assert (Hlen : List.length (entityDefOf env chunk) = S colons)
    by (unfold entityDefOf; apply split_length).
  rewrite Hlen. split.
  - intros Hc. destruct (Nat.eqb (S colons) 2) eqn:E; [|reflexivity].
    apply Nat.eqb_eq in E. lia.
  - intros Hc Hnew. rewrite Hc, Hnew. reflexivity.
Qed.

(** *** Lines without link references *)

Lemma indexOfFrom_None (pat s : string) :
  forall i j, JS.indexOfFrom pat s i = None -> JS.indexOfFrom pat s j = None.
Proof.
  induction s as [|c s IH]; intros i j; cbn [JS.indexOfFrom];
    destruct (JS.startsWith pat _); try discriminate; [reflexivity|].
  apply IH.
Qed.

Lemma splitLinkRefs_without (s : string) :
  JS.indexOfFrom "](" s 0 = None -> JS.splitLinkRefs 0 s = [s].
Proof.
  induction s as [|c s IH]; [reflexivity|].
  intros H. cbn [JS.indexOfFrom] in H.
  destruct (JS.startsWith "](" (String c s)) eqn:E; [discriminate|].
  apply (indexOfFrom_None _ _ 1 0) in H.
  cbn [JS.splitLinkRefs].
  assert (Hl : JS.linkRefAt (String c s) = None).
  { unfold JS.linkRefAt. destruct s as [|d s]; [reflexivity|].
    cbn [JS.startsWith] in E.
    destruct (Ascii.eqb c "]") eqn:E1; [|reflexivity].
    destruct (Ascii.eqb d "(") eqn:E2; [|reflexivity].
    apply Ascii.eqb_eq in E1, E2. subst. discriminate. }
  rewrite Hl, (IH H). reflexivity.
Qed.

(** X12. A line in which the text [](] does not occur comes out of
    [removeTemplateLinkReferences] as it went in. *)
Theorem line_without_link_reference_unchanged :
  forall item : string,
    JS.indexOf "](" item = (-1)%Z ->
    removeTemplateLinkReferences item = item.
Proof.
  intros item H. unfold removeTemplateLinkReferences.
  rewrite splitLinkRefs_without; [reflexivity|].
  unfold JS.indexOf in H. destruct (JS.indexOfFrom "](" item 0); [lia|reflexivity].
Qed.

(** *** White space around a chunk *)

Lemma trimStart_head (s : string) :
  match JS.trimStart s with
  | EmptyString => True
  | String c _ => JS.isWhiteSpace c = false
  end.
Proof.
  induction s as [|c s IH]; [exact I|].
  cbn [JS.trimStart]. destruct (JS.isWhiteSpace c) eqn:E; [exact IH|exact E].
Qed.

Lemma trimEnd_idempotent (s : string) : JS.trimEnd (JS.trimEnd s) = JS.trimEnd s.
Proof.
  induction s as [|c s IH]; [reflexivity|].
  cbn [JS.trimEnd]. destruct (JS.trimEnd s) as [|d r] eqn:E.
  - destruct (JS.isWhiteSpace c) eqn:Ew; [reflexivity|].
    cbn [JS.trimEnd]. rewrite Ew. reflexivity.
  - cbn [JS.trimEnd]. cbn [JS.trimEnd] in IH.
    change (match JS.trimEnd r with
            | EmptyString => if JS.isWhiteSpace d then EmptyString else String d EmptyString
            | String a r0 => String d (String a r0)
            end) with (JS.trimEnd (String d r)).
    change (match JS.trimEnd r with
            | EmptyString => if JS.isWhiteSpace d then EmptyString else String d EmptyString
            | String a r0 => String d (String a r0)
            end) with (JS.trimEnd (String d r)) in IH.
    rewrite IH. reflexivity.
Qed.

Lemma trimEnd_head (s : string) :
  match s with
  | EmptyString => True
  | String c _ => JS.isWhiteSpace c = false
  end ->
  JS.trimStart (JS.trimEnd s) = JS.trimEnd s.
Proof.
  destruct s as [|c s]; [reflexivity|].
  intros Hc. cbn [JS.trimEnd].
  destruct (JS.trimEnd s) as [|d r].
  - rewrite Hc. cbn [JS.trimStart]. rewrite Hc. reflexivity.
  - cbn [JS.trimStart]. rewrite Hc. reflexivity.
Qed.

Lemma trim_idempotent (s : string) : JS.trim (JS.trim s) = JS.trim s.
Proof.
  unfold JS.trim.
  rewrite (trimEnd_head (JS.trimStart s) (trimStart_head s)).
  apply trimEnd_idempotent.
Qed.

Lemma processChunk_trim (st : ParserState env) (chunk : string) :
  processChunk env st (JS.trim chunk) = processChunk env st chunk.
Proof. unfold processChunk. rewrite trim_idempotent. reflexivity. Qed.

Lemma forEachChunk_trim (chunks : list string) :
  forall st : ParserState env,
    forEachChunk env st (map JS.trim chunks) = forEachChunk env st chunks.
Proof.
  induction chunks as [|chunk chunks IH]; intros st; cbn [map forEachChunk]; [reflexivity|].
  rewrite processChunk_trim.
  destruct (processChunk env st chunk); cbn [bind]; [apply IH|reflexivity].
Qed.

(** X13. White space around a chunk has no part in the parse: the chunks
    and the chunks trimmed give the same result or the same thrown
    value. *)
Theorem toLG_ignores_space_around_chunks :
  forall chunks : list string,
    toLG env (JSArray (map JS.trim chunks)) = toLG env (JSArray chunks).
Proof.
  intros chunks. unfold toLG. cbn [falsy instanceofArray negb].
  rewrite length_map, forEachChunk_trim. reflexivity.
Qed.

(** *** The attributes of an entity definition *)

Lemma attributesFrom_triple (key op value : string) (rest : list string) :
  attributesFrom (key :: op :: value :: rest) = (key, Some value) :: attributesFrom rest.
Proof. reflexivity. Qed.

(** X23. The attributes of an entity definition are read from the tokens
    behind the type in groups of three: the first token of a group is the
    key, the second is skipped whatever it is, the third is the value.  A
    last group of one or two tokens gives a key without a value. *)
Theorem attributes_read_in_groups_of_three :
  forall (groups : list (string * string * string)) (key op : string),
    let tokens := flat_map (fun g => [fst (fst g); snd (fst g); snd g]) groups in
    let pairs := map (fun g => (fst (fst g), Some (snd g))) groups in
    attributesFrom tokens = pairs /\
    attributesFrom (tokens ++ [key]) = (pairs ++ [(key, None)])%list /\
    attributesFrom (tokens ++ [key; op]) = (pairs ++ [(key, None)])%list.
Proof.
  intros groups key op.
  induction groups as [|[[k o] v] groups IH]; cbn [flat_map map fst snd app].
  - repeat split; reflexivity.
  - destruct IH as [IH1 [IH2 IH3]].
    rewrite !attributesFrom_triple. cbn zeta in IH1, IH2, IH3.
    rewrite IH1, IH2, IH3. repeat split; reflexivity.
Qed.

(** *** The thrown values of a parse *)

Lemma selectItem_throws (tpl : LGTemplate.t) (es : list (Entity env)) (c : string)
      (isCondition : bool) (e : Thrown) :
  selectItem env tpl es c isCondition = Throws e ->
  validateCondition (validators env) c isCondition = Throws e.
Proof.
  unfold selectItem.
  destruct (Nat.ltb 0 _); [destruct (findCondition c _)|]; try discriminate;
    destruct (validateCondition (validators env) c isCondition); cbn [bind];
    try discriminate; intros H; inversion H; reflexivity.
Qed.

Lemma addVariation_throws (bs : BodyState env) (es : list (Entity env))
      (item : string) (e : Thrown) :
  Ready env bs ->
  addVariation env bs es item = Throws e ->
  validateVariationItem (validators env) item = Throws e.
Proof.
  intros Hr. unfold addVariation.
  destruct Hr as [[Hin Hnull]|[Hin Hsec]]; rewrite Hin.
  - destruct (validateVariationItem (validators env) item); cbn [bind];
      [discriminate|intros H; inversion H; reflexivity].
  - destruct (conditionalResponseItem bs) as [|i|b]; [destruct Hsec| |].
    + destruct Hsec as [_ Hi]. apply nth_error_Some in Hi.
      destruct (nth_error _ i); [|congruence].
      destruct (validateVariationItem (validators env) item); cbn [bind];
        [discriminate|intros H; inversion H; reflexivity].
    + destruct (validateVariationItem (validators env) item); cbn [bind];
        [discriminate|intros H; inversion H; reflexivity].
Qed.

Lemma processLine_throws (bs : BodyState env) (line : string) (e : Thrown) :
  Ready env bs ->
  processLine env bs line = Throws e ->
  lineError env line e.
Proof.
  intros Hr. unfold processLine, lineError, isConditionLine, isDefaultLine,
    isVariationLine, startsCondition, startsDefault, conditionOf, defaultOf, payload.
  rewrite hasListDecoration_removeTemplateLinkReferences.
  destruct (hasListDecoration line); cbn [negb andb].
  2:{ intros H; inversion H. left. auto. }
  destruct (flushItem_blocks env bs Hr) as [tpl [Ef _]].
  destruct (Z.eqb (JS.indexOf (CONDITION (parserConsts env)) _) 0); cbn [negb andb].
  - rewrite Ef. cbn [bind]. intros H. right. left.
    split; [reflexivity|]. apply (selectItem_throws _ _ _ _ _ H).
  - destruct (Z.eqb (JS.indexOf (DEFAULT (parserConsts env)) _) 0); cbn [negb].
    + rewrite Ef. cbn [bind]. intros H. right. right. left.
      split; [reflexivity|]. apply (selectItem_throws _ _ _ _ _ H).
    + intros H. right. right. right.
      split; [reflexivity|]. apply (addVariation_throws bs _ _ e Hr H).
Qed.

Lemma processLines_throws (lines : list string) :
  forall (bs : BodyState env) (e : Thrown),
    Ready env bs ->
    processLines env bs lines = Throws e ->
    exists line, In line lines /\ lineError env line e.
Proof.
  induction lines as [|line lines IH]; intros bs e Hr; cbn [processLines]; [discriminate|].
  destruct (processLine env bs line) as [bs1|e1] eqn:E; cbn [bind].
  - intros H. destruct (IH bs1 e (processLine_Ready env bs bs1 line Hr E) H)
      as [l [Hin Hl]].
    exists l. split; [right; assumption|assumption].
  - intros H; inversion H; subst e1. exists line. split; [left; reflexivity|].
    apply (processLine_throws bs line e Hr E).
Qed.

Lemma selectTemplate_throws (st : ParserState env) (n : string) (e : Thrown) :
  selectTemplate env st n = Throws e ->
  validateTemplateName env n = Throws e.
Proof.
  unfold selectTemplate, allocTemplate, newLGTemplate.
  destruct (Nat.ltb 0 (List.length (LGTemplates st))).
  - destruct (findTemplate (heap st) n (LGTemplates st)) as [r0|]; cbn [bind].
    + destruct (String.eqb (LGTemplate.name (deref (heap st) r0)) ""); [|discriminate].
      destruct (validateTemplateName env n); cbn [bind]; [discriminate|].
      intros H; inversion H; reflexivity.
    + destruct (validateTemplateName env n); cbn [bind fst snd].
      * destruct (String.eqb _ ""); cbn [bind]; discriminate.
      * intros H; inversion H; reflexivity.
  - cbn [bind]. destruct (validateTemplateName env n); cbn [bind]; [discriminate|].
    intros H; inversion H; reflexivity.
Qed.

Lemma templateChunk_throws (st : ParserState env) (chunk : string) (e : Thrown) :
  isTemplateChunk env chunk = true ->
  processChunk env st chunk = Throws e ->
  templateChunkError env chunk e.
Proof.
  intros Ht.
  rewrite (processChunk_template env st chunk Ht), templateChunk_unfold.
  unfold templateChunkError.
  destruct (selectTemplate env st (templateNameOf chunk)) as [[[h r] flag]|e0] eqn:Es;
    cbn [bind].
  2:{ intros H; inversion H; subst e0. left. apply (selectTemplate_throws st _ e Es). }
  pose proof (selectTemplate_name env st _ h r flag Es) as Hname.
  destruct (processLines env _ (bodyOf chunk)) as [bs|e0] eqn:Ep; cbn [bind].
  2:{ intros H; inversion H; subst e0. right. left.
      apply (processLines_throws _ _ e (startOfBody_Ready env st (h, r, flag)) Ep). }
  pose proof (processLines_Ready env _ _ _ (startOfBody_Ready env st (h, r, flag)) Ep) as Hr.
  destruct (flushItem_blocks env bs Hr) as [tpl [Ef [_ [Hn _]]]].
  rewrite Ef. cbn [bind].
  destruct (Nat.eqb _ 0 && Nat.eqb _ 0); [|discriminate].
  intros H; inversion H. right. right.
  rewrite Hn, (processLines_name env _ _ _ Ep). cbn [startOfBody cLGTemplate].
  rewrite Hname. reflexivity.
Qed.

Lemma processChunk_throws (st : ParserState env) (chunk : string) (e : Thrown) :
  processChunk env st chunk = Throws e ->
  chunkError env chunk e.
Proof.
  intros Hrun. unfold chunkError.
  destruct (isTemplateChunk env chunk) eqn:Ht;
    [apply (templateChunk_throws st chunk e Ht Hrun)|].
  unfold isFileRefChunk, isEntityChunk. rewrite Ht. cbn [negb andb].
  destruct (Z.eqb (JS.indexOf (FILEREF (parserConsts env)) (JS.trim chunk)) 0) eqn:Ef;
    cbn [negb andb].
  - assert (Hs : JS.startsWith (FILEREF (parserConsts env)) (JS.trim chunk) = true)
      by (rewrite <- indexOf_zero; exact Ef).
    rewrite (fileRefChunk_unfold env st chunk Ht Hs) in Hrun.
    unfold fileRefChunk in Hrun. unfold linkValueOf.
    destruct (JS.firstParenMatch _) as [first|].
    + destruct (String.eqb _ "") eqn:El; [|discriminate].
      inversion Hrun. right. split; [apply String.eqb_eq; exact El|reflexivity].
    + inversion Hrun. left. split; reflexivity.
  - destruct (Z.eqb (JS.indexOf (ENTITY (parserConsts env)) (JS.trim chunk)) 0) eqn:Ee.
    + assert (Hk : isEntityChunk env chunk = true)
        by (unfold isEntityChunk; rewrite Ht, Ef, Ee; reflexivity).
      rewrite (entityChunk_unfold env st chunk Hk) in Hrun.
      destruct (Nat.eqb (List.length (entityDefOf env chunk)) 2) eqn:El; cbn [negb] in Hrun.
      * destruct (hasEntity env _ (entities st)); [|discriminate].
        destruct (getEntityType env (entityTypeOf env chunk)) as [ty|e0]; cbn [bind] in Hrun;
          [discriminate|].
        inversion Hrun; subst e0. right. reflexivity.
      * inversion Hrun. left. split; [apply Nat.eqb_neq; exact El|reflexivity].
    + revert Hrun. unfold processChunk. unfold isTemplateChunk in Ht. rewrite Ht, Ef, Ee.
      intros H; inversion H; reflexivity.
Qed.

Lemma forEachChunk_throws (chunks : list string) :
  forall (st : ParserState env) (e : Thrown),
    forEachChunk env st chunks = Throws e ->
    exists pre chunk post st1,
      chunks = (pre ++ chunk :: post)%list /\
      forEachChunk env st pre = Returns st1 /\
      processChunk env st1 chunk = Throws e.
Proof.
  induction chunks as [|chunk chunks IH]; intros st e; cbn [forEachChunk]; [discriminate|].
  destruct (processChunk env st chunk) as [st1|e1] eqn:E; cbn [bind].
  - intros H. destruct (IH st1 e H) as [pre [c [post [st2 [-> [H1 H2]]]]]].
    exists (chunk :: pre), c, post, st2. split; [reflexivity|].
    cbn [forEachChunk]. rewrite E. cbn [bind]. auto.
  - intros H; inversion H; subst e1.
    exists [], chunk, chunks, st. auto.
Qed.

(** X14. A parse that throws has been given an array of chunks and throws
    at the first chunk that throws, after the chunks before it have been
    read; the chunks behind it are not read.  The thrown value is one of
    those listed for the kind of that chunk: for a template chunk what the
    name validation or a validator throws, the object for a line without
    list decoration or the exception for a template without content; for
    a file reference chunk the [TypeError] of a line without parentheses
    or the exception for an empty link value; for an entity chunk the
    exception for the wrong number of colons or what [getEntityType]
    throws; for any other chunk the exception of code [INVALID_INPUT]. *)
Theorem thrown_values_of_a_parse :
  forall (v : JSValue) (e : Thrown),
    toLG env v = Throws e ->
    exists pre chunk post st,
      v = JSArray (pre ++ chunk :: post) /\
      forEachChunk env initialState pre = Returns st /\
      processChunk env st chunk = Throws e /\
      chunkError env chunk e.
Proof.
  intros v e. unfold toLG.
  destruct (falsy v); [discriminate|].
  destruct v as [| | | | | |chunks]; cbn [instanceofArray negb]; try discriminate.
  destruct (Nat.eqb (List.length chunks) 0); [discriminate|].
  destruct (forEachChunk env initialState chunks) as [st|e0] eqn:E; cbn [bind];
    [discriminate|].
  intros H; inversion H; subst e0.
  destruct (forEachChunk_throws chunks _ e E) as [pre [chunk [post [st1 [-> [H1 H2]]]]]].
  exists pre, chunk, post, st1. split; [reflexivity|]. split; [assumption|].
  split; [assumption|]. apply (processChunk_throws st1 chunk e H2).
Qed.

(** *** Condition lines of a new template, in the result of the parse *)

Lemma includes_pushNew (vs : list string) (c : string) :
  JS.includes (pushNew [] vs) c = JS.includes vs c.
Proof.
  destruct (JS.includes (pushNew [] vs) c) eqn:E1; destruct (JS.includes vs c) eqn:E2;
    try reflexivity.
  - apply includes_In in E1. apply pushNew_In in E1. destruct E1 as [[]|E1].
    apply includes_In in E1. congruence.
  - apply includes_In in E2.
    assert (H : In c (pushNew [] vs)) by (apply pushNew_In; right; assumption).
    apply includes_In in H. congruence.
Qed.

(** X25. A template chunk of a new, valid name whose body is made of
    condition lines that pass the validation, each followed by variation
    lines on which the validator returns, read after chunks that parse
    without a throw: the parse returns.  When the text of the
    last condition line is met in no condition line before it, the result
    has, behind the templates of the chunks before, one template of that
    name without variations of its own and with one conditional response
    for each condition text, in the order in which the texts are first
    met, each with the variations given under its text by all the
    sections, in their order, each string once.  When the text of the
    last condition line is met before, the result has the templates of the
    chunks before and no template for this chunk. *)
Theorem condition_sections_of_a_new_template :
  forall (pre : list string) (st : ParserState env) (chunk n : string)
         (sections : list BodySection) (s : BodySection),
    forEachChunk env initialState pre = Returns st ->
    findTemplate (heap st) n (LGTemplates st) = None ->
    isTemplateChunk env chunk = true ->
    templateNameOf chunk = n ->
    n <> "" ->
    validateTemplateName env n = Returns tt ->
    bodyOf chunk = linesOf (sections ++ [s]) ->
    Forall (wellFormedSection env) (sections ++ [s]) ->
    let blocks := mergeSections env (sections ++ [s]) [] in
    map LGConditionalResponse.condition blocks =
      pushNew [] (map (fun s0 => conditionOf env (fst s0)) (sections ++ [s])) /\
    (forall b, In b blocks ->
               LGConditionalResponse.variations b =
                 pushNew [] (variationsUnder env (LGConditionalResponse.condition b)
                                             (sections ++ [s]))) /\
    exists res obj,
      toLG env (JSArray (pre ++ [chunk])) = Returns res /\
      LGParsedObj.LGObject res = Some obj /\
      LGObject.LGTemplates obj =
        (templatesOf st ++
         (if JS.includes (map (fun s0 => conditionOf env (fst s0)) sections)
                         (conditionOf env (fst s))
          then [] else [LGTemplate.mk n [] blocks]))%list.
Proof.
  intros pre st chunk n sections s Hpre Hf Ht Hname Hn Hv Hbody Hall blocks.
  assert (Hconds : map LGConditionalResponse.condition blocks =
                   pushNew [] (map (fun s0 => conditionOf env (fst s0)) (sections ++ [s])))
    by (apply (mergeSections_conditions env (sections ++ [s]) [])).
  split; [exact Hconds|]. split.
  - intros b Hin.
    rewrite <- (varsOf_In blocks b).
    + apply (varsOf_mergeSections env _ (sections ++ [s]) []).
    + rewrite Hconds. apply pushNew_NoDup. constructor.
    + assumption.
  - destruct (new_template_commit env st chunk n sections s Ht Hname Hn Hv Hf Hbody Hall)
      as [st' [Hrun [Hheap Hrefs]]].
    assert (Hwf : wfState st)
      by (apply (forEachChunk_wf env pre _ _ (initialState_wf env) Hpre)).
    exists (parsedObjOf st'), (LGObject.mk (templatesOf st') (entities st')).
    split; [|split; [reflexivity|]].
    + rewrite (toLG_array env) by (destruct pre; discriminate).
      rewrite (forEachChunk_app env), Hpre. cbn [bind forEachChunk].
      rewrite Hrun. reflexivity.
    + cbn [LGObject.LGTemplates]. unfold templatesOf. rewrite Hheap, Hrefs.
      assert (Hs : map LGConditionalResponse.condition (mergeSections env sections []) =
                   pushNew [] (map (fun s0 => conditionOf env (fst s0)) sections))
        by (apply (mergeSections_conditions env sections [])).
      rewrite <- (includes_pushNew (map (fun s0 => conditionOf env (fst s0)) sections)).
      rewrite <- Hs.
      rewrite includes_conditions.
      destruct (findCondition (conditionOf env (fst s)) (mergeSections env sections [])).
      * rewrite app_nil_r. apply map_deref_app. exact Hwf.
      * rewrite map_app, (map_deref_app _ _ _ Hwf). cbn [map].
        rewrite deref_app_last. reflexivity.
Qed.

End Invariants.

(** ** Properties of [LGObject.fromJSON] *)

Section FromJSON.

(** Induction on a value through the elements of its arrays. *)
Lemma Json_induction (P : Json.t -> Prop) :
  P Json.Undefined -> P Json.Null ->
  (forall b, P (Json.Boolean b)) ->
  (forall n, P (Json.Number n)) ->
  (forall s, P (Json.Str s)) ->
  (forall items, Forall P items -> P (Json.Array items)) ->
  (forall fields, P (Json.Object fields)) ->
  forall v, P v.
Proof.
  intros HU HN HB HZ HS HA HO.
  fix IH 1.
  intros [| |b|n|s|items|fields];
    [exact HU|exact HN|apply HB|apply HZ|apply HS| |apply HO].
  apply HA.
  exact ((fix all (l : list Json.t) : Forall P l :=
            match l with
            | [] => Forall_nil P
            | x :: l' => Forall_cons x (IH x) (all l')
            end) items).
Qed.

Lemma FromJSONResult_induction (P : FromJSONResult -> Prop) :
  P ResultNull ->
  (forall items, Forall P items -> P (ResultArray items)) ->
  (forall o, P (ResultObject o)) ->
  forall r, P r.
Proof.
  intros HN HA HO.
  fix IH 1.
  intros [|items|o]; [exact HN| |apply HO].
  apply HA.
  exact ((fix all (l : list FromJSONResult) : Forall P l :=
            match l with
            | [] => Forall_nil P
            | x :: l' => Forall_cons x (IH x) (all l')
            end) items).
Qed.

Lemma get_set_same (key : string) (v : Json.t) (fields : list (string * Json.t)) :
  Json.get key (Json.set key v fields) = v.
Proof.
  induction fields as [|[k w] fields IH]; cbn [Json.set Json.get].
  - rewrite String.eqb_refl. reflexivity.
  - destruct (String.eqb k key) eqn:E; cbn [Json.get]; rewrite E; [reflexivity|exact IH].
Qed.

Lemma get_set_other (key key' : string) (v : Json.t) (fields : list (string * Json.t)) :
  key <> key' ->
  Json.get key' (Json.set key v fields) = Json.get key' fields.
Proof.
  intros Hne.
  induction fields as [|[k w] fields IH]; cbn [Json.set Json.get].
  - apply String.eqb_neq in Hne. rewrite Hne. reflexivity.
  - destruct (String.eqb k key) eqn:E; cbn [Json.get].
    + apply String.eqb_eq in E. subst k.
      apply String.eqb_neq in Hne. rewrite Hne. reflexivity.
    + rewrite IH. reflexivity.
Qed.

Lemma normalized_get (fields : list (string * Json.t)) :
  Json.get "LGTemplates" (normalized fields) =
    Json.orUndefined (Json.get "LGTemplates" fields) /\
  Json.get "entities" (normalized fields) =
    Json.orUndefined (Json.get "entities" fields).
Proof.
  unfold normalized. split.
  - rewrite get_set_other by discriminate. apply get_set_same.
  - rewrite get_set_same, get_set_other by discriminate. reflexivity.
Qed.

Lemma truthy_not_Undefined (v : Json.t) :
  Json.truthy v = true ->
  match v with Json.Undefined => Json.Array [] | _ => v end = v.
Proof. destruct v; cbn; intros H; try reflexivity; discriminate. Qed.

Lemma newLGObject_orUndefined (a b : Json.t) :
  newLGObject (Json.orUndefined a) (Json.orUndefined b) =
    LGObjectInstance.mk (if Json.truthy a then a else Json.Array [])
                        (if Json.truthy b then b else Json.Array []).
Proof.
  unfold newLGObject, Json.orUndefined.
  destruct (Json.truthy a) eqn:Ea; destruct (Json.truthy b) eqn:Eb;
    rewrite ?(truthy_not_Undefined a Ea), ?(truthy_not_Undefined b Eb), ?Ea, ?Eb;
    reflexivity.
Qed.

Lemma fromJSON_Object_fields (fields : list (string * Json.t)) :
  fromJSON (Json.Object fields) =
    ResultObject
      (LGObjectInstance.mk
         (if Json.truthy (Json.get "LGTemplates" fields)
          then Json.get "LGTemplates" fields else Json.Array [])
         (if Json.truthy (Json.get "entities" fields)
          then Json.get "entities" fields else Json.Array [])).
Proof.
  cbn [fromJSON Json.truthy negb].
  destruct (normalized_get fields) as [-> ->].
  rewrite newLGObject_orUndefined. reflexivity.
Qed.

(** X15. Of an object [fromJSON] reads the properties [LGTemplates] and
    [entities] and nothing else: the instance has the value of each of the
    two that is truthy, and the empty array in place of one that is
    missing or falsy. *)
Theorem fromJSON_object :
  forall fields : list (string * Json.t),
    fromJSON (Json.Object fields) =
      ResultObject
        (LGObjectInstance.mk
           (if Json.truthy (Json.get "LGTemplates" fields)
            then Json.get "LGTemplates" fields else Json.Array [])
           (if Json.truthy (Json.get "entities" fields)
            then Json.get "entities" fields else Json.Array [])).
Proof.
  intros fields. cbn [fromJSON Json.truthy negb].
  destruct (normalized_get fields) as [Ht Hen]. rewrite Ht, Hen.
  unfold newLGObject, Json.orUndefined.
  destruct (Json.truthy (Json.get "LGTemplates" fields)) eqn:Ea;
    destruct (Json.truthy (Json.get "entities" fields)) eqn:Eb;
    rewrite ?(truthy_not_Undefined _ Ea), ?(truthy_not_Undefined _ Eb), ?Ea, ?Eb;
    reflexivity.
Qed.

(** X16. No instance that [fromJSON] builds, at whatever depth of the
    arrays of the source, has a falsy property: both [LGTemplates] and
    [entities] are truthy values. *)
Theorem fromJSON_properties_truthy :
  forall (source : Json.t) (o : LGObjectInstance.t),
    In o (instancesOf (fromJSON source)) ->
    Json.truthy (LGObjectInstance.LGTemplates o) = true /\
    Json.truthy (LGObjectInstance.entities o) = true.
Proof.
  intros source. induction source as [| |b|n|s|items IH|fields] using Json_induction;
    intros o; try (cbn; tauto).
  - cbn [fromJSON Json.truthy]. destruct b; cbn; [|tauto].
    intros [<-|[]]. split; reflexivity.
  - cbn [fromJSON Json.truthy]. destruct (Z.eqb n 0); cbn; [tauto|].
    intros [<-|[]]. split; reflexivity.
  - cbn [fromJSON Json.truthy]. destruct (String.eqb s ""); cbn; [tauto|].
    intros [<-|[]]. split; reflexivity.
  - cbn [fromJSON Json.truthy negb instancesOf]. rewrite flat_map_concat_map, map_map.
    intros Hin. apply in_concat in Hin. destruct Hin as [l [Hl Ho]].
    apply in_map_iff in Hl. destruct Hl as [x [<- Hx]].
    rewrite Forall_forall in IH. apply (IH x Hx o Ho).
  - rewrite fromJSON_Object_fields. cbn [instancesOf In LGObjectInstance.LGTemplates].
    intros [<-|[]]. cbn [LGObjectInstance.LGTemplates LGObjectInstance.entities].
    split.
    + destruct (Json.truthy (Json.get "LGTemplates" fields)) eqn:E; [exact E|reflexivity].
    + destruct (Json.truthy (Json.get "entities" fields)) eqn:E; [exact E|reflexivity].
Qed.

Lemma fromJSON_asSource_instance (o : LGObjectInstance.t) :
  Json.truthy (LGObjectInstance.LGTemplates o) = true ->
  Json.truthy (LGObjectInstance.entities o) = true ->
  fromJSON (asSource (ResultObject o)) = ResultObject o.
Proof.
  intros Ha Hb. cbn [asSource]. rewrite fromJSON_Object_fields.
  cbn [Json.get]. 
  replace (String.eqb "LGTemplates" "LGTemplates") with true by reflexivity.
  replace (String.eqb "LGTemplates" "entities") with false by reflexivity.
  replace (String.eqb "entities" "entities") with true by reflexivity.
  rewrite Ha, Hb. destruct o; reflexivity.
Qed.

(** X17. What [fromJSON] returns it returns again when it is given its
    own result as the source: [null] for [null], array for array, and for
    an instance an instance with the same two properties. *)
Theorem fromJSON_of_its_result :
  forall source : Json.t,
    fromJSON (asSource (fromJSON source)) = fromJSON source.
Proof.
  intros source.
  assert (Hprim : fromJSON (asSource (ResultObject (newLGObject Json.Undefined Json.Undefined)))
                  = ResultObject (newLGObject Json.Undefined Json.Undefined))
    by reflexivity.
  induction source as [| |b|n|s|items IH|fields] using Json_induction;
    try reflexivity.
  - destruct b; [exact Hprim|reflexivity].
  - cbn [fromJSON Json.truthy]. destruct (Z.eqb n 0); [reflexivity|exact Hprim].
  - cbn [fromJSON Json.truthy]. destruct (String.eqb s ""); [reflexivity|exact Hprim].
  - cbn [fromJSON Json.truthy negb asSource]. f_equal.
    rewrite !map_map. apply map_ext_in. intros x Hx.
    rewrite Forall_forall in IH. apply (IH x Hx).
  - rewrite fromJSON_Object_fields. apply fromJSON_asSource_instance;
      cbn [LGObjectInstance.LGTemplates LGObjectInstance.entities].
    + destruct (Json.truthy (Json.get "LGTemplates" fields)) eqn:E; [exact E|reflexivity].
    + destruct (Json.truthy (Json.get "entities" fields)) eqn:E; [exact E|reflexivity].
Qed.

Lemma orUndefined_truthy (v : Json.t) :
  Json.truthy (Json.orUndefined v) = Json.truthy v.
Proof.
  unfold Json.orUndefined. destruct (Json.truthy v) eqn:E; [exact E|reflexivity].
Qed.

(** X18. [fromJSON] writes on its source, and yet a second call on the
    same source returns what the first call has returned. *)
Theorem fromJSON_twice_on_a_source :
  forall source : Json.t,
    fromJSON (sourceAfter source) = fromJSON source.
Proof.
  intros source.
  induction source as [| |b|n|s|items IH|fields] using Json_induction;
    try reflexivity.
  - destruct b; reflexivity.
  - cbn [fromJSON sourceAfter Json.truthy]. destruct (Z.eqb n 0) eqn:E; cbn [negb].
    + cbn [fromJSON Json.truthy]. rewrite E. reflexivity.
    + cbn [fromJSON Json.truthy]. rewrite E. reflexivity.
  - cbn [fromJSON sourceAfter Json.truthy]. destruct (String.eqb s "") eqn:E; cbn [negb].
    + cbn [fromJSON Json.truthy]. rewrite E. reflexivity.
    + cbn [fromJSON Json.truthy]. rewrite E. reflexivity.
  - cbn [fromJSON sourceAfter Json.truthy negb]. f_equal.
    rewrite map_map. apply map_ext_in. intros x Hx.
    rewrite Forall_forall in IH. apply (IH x Hx).
  - cbn [sourceAfter Json.truthy negb]. rewrite !fromJSON_Object_fields.
    destruct (normalized_get fields) as [-> ->].
    rewrite !orUndefined_truthy.
    unfold Json.orUndefined.
    destruct (Json.truthy (Json.get "LGTemplates" fields));
      destruct (Json.truthy (Json.get "entities" fields)); reflexivity.
Qed.

End FromJSON.

(** ** Properties of [translate.translateFile] *)

Section TranslateFileProperties.

Variable env : Collaborators.
Variable COMMENT : string.
Variable translateText : list string -> string -> Completion string.

Lemma marker_tests (s : string) :
  Z.eqb (JS.indexOf "-" s) 0 || Z.eqb (JS.indexOf "*" s) 0 || Z.eqb (JS.indexOf "+" s) 0 =
    firstIsMarker s.
Proof.
  rewrite !indexOf_zero.
  destruct s as [|c s]; cbn [JS.startsWith firstIsMarker]; [reflexivity|].
  unfold isListMarker. rewrite !andb_true_r. reflexivity.
Qed.

(** The loop body by the kind of the line. *)
Lemma translateLine_kind (translateComments translateLinkText log : bool)
      (run : Run.t) (line : string) :
  translateLine env COMMENT translateText translateComments translateLinkText log run line =
    match kindOf env COMMENT line with
    | CommentLine =>
        if translateComments then
          match translateText (Run.requests run) (JS.trim line) with
          | Returns text =>
              (emit log (fst (callService translateText run (JS.trim line))) text text, None)
          | Throws e => (fst (callService translateText run (JS.trim line)), Some e)
          end
        else (emit log run (JS.trim line) (JS.trim line), None)
    | FileRefLine =>
        if translateLinkText then
          match JS.firstParenMatch (JS.trim line),
                JSText.firstBracketMatch (JS.trim line) with
          | Some first, Some firstText =>
              let linkValue := JS.replace ")" "" (JS.replace "(" "" first) in
              let linkTextValue := JS.replace "]" "" (JS.replace "[" "" firstText) in
              match translateText (Run.requests run) linkTextValue with
              | Returns lText =>
                  (emit log (fst (callService translateText run linkTextValue))
                        ("[" ++ lText ++ "]" ++ "(" ++ linkValue ++ ")")
                        ("[" ++ lText ++ "]" ++ "(" ++ linkValue ++ ")"), None)
              | Throws e => (fst (callService translateText run linkTextValue), Some e)
              end
          | _, _ => (run, Some ThrownTypeError)
          end
        else (emit log run (JS.trim line) (JS.trim line), None)
    | EntityLine | IntentLine | BranchLine | EmptyLine =>
        (emit log run (JS.trim line) (JS.trim line), None)
    | VariationLine =>
        let content := JS.trim (JS.slice 1 (JS.trim line)) in
        match translateText (Run.requests run) content with
        | Returns text =>
            (emit log (fst (callService translateText run content))
                  (JSText.TAB ++ JSText.charAt0 (JS.trim line) ++ " " ++ text)
                  (JSText.charAt0 (JS.trim line) ++ " " ++ text), None)
        | Throws e => (fst (callService translateText run content), Some e)
        end
    | InvalidLine =>
        (run, Some (ThrownException INVALID_INPUT (invalidLineText (JS.trim line))))
    end.
Proof.
  unfold translateLine, kindOf. rewrite marker_tests, !indexOf_zero, trim_idempotent.
  destruct (JS.startsWith COMMENT (JS.trim line)).
  { destruct translateComments; [|reflexivity].
    unfold callService. cbn [fst]. destruct (translateText _ _); reflexivity. }
  destruct (JS.startsWith (FILEREF (parserConsts env)) (JS.trim line)).
  { destruct translateLinkText; [|reflexivity].
    destruct (JS.firstParenMatch (JS.trim line)); [|reflexivity].
    destruct (JSText.firstBracketMatch (JS.trim line)); [|reflexivity].
    unfold callService. cbn [fst]. destruct (translateText _ _); reflexivity. }
  destruct (JS.startsWith (ENTITY (parserConsts env)) (JS.trim line)); [reflexivity|].
  destruct (JS.startsWith (INTENT (parserConsts env)) (JS.trim line)); [reflexivity|].
  destruct (firstIsMarker (JS.trim line)).
  { destruct (JS.startsWith (CONDITION (parserConsts env)) _ ||
              JS.startsWith (DEFAULT (parserConsts env)) _); [reflexivity|].
    unfold callService. cbn [fst]. destruct (translateText _ _); reflexivity. }
  destruct (String.eqb (JS.trim line) "") eqn:E; [|reflexivity].
  apply String.eqb_eq in E. rewrite E. reflexivity.
Qed.

Lemma forEachLine_app (translateComments translateLinkText log : bool)
      (pre post : list string) :
  forall run : Run.t,
    forEachLine env COMMENT translateText translateComments translateLinkText log run
                (pre ++ post) =
      match forEachLine env COMMENT translateText translateComments translateLinkText log
                        run pre with
      | (run', None) =>
          forEachLine env COMMENT translateText translateComments translateLinkText log
                      run' post
      | thrown => thrown
      end.
Proof.
  induction pre as [|line pre IH]; intros run; cbn [app forEachLine]; [reflexivity|].
  destruct (translateLine _ _ _ _ _ _ run line) as [run' [e|]]; [reflexivity|apply IH].
Qed.

(** X19. A file whose lines before some line are read without a throw
    and in which that line, trimmed, is not empty and starts with none of
    the markers for a comment, a file reference, an entity or a template
    and with none of [-], [*] and [+], makes [translateFile] throw an
    [Exception] of code [INVALID_INPUT] whose text quotes the trimmed
    line; the lines behind it are not read. *)
Theorem invalid_line_throws :
  forall (inputFileContent : string) (pre post : list string) (line : string)
         (run : Run.t) (translateComments translateLinkText log : bool),
    JSText.splitNewlines inputFileContent = (pre ++ line :: post)%list ->
    forEachLine env COMMENT translateText translateComments translateLinkText log
                Run.start pre = (run, None) ->
    kindOf env COMMENT line = InvalidLine ->
    translateFile env COMMENT translateText inputFileContent
                  translateComments translateLinkText log =
      (run, Some (ThrownException INVALID_INPUT
                    ("Invalid line detected: " ++ JS.dquote ++ JS.trim line ++ JS.dquote))).
Proof.
  intros content pre post line run tc tl log Hsplit Hpre Hkind.
  unfold translateFile. rewrite Hsplit, forEachLine_app, Hpre.
  cbn [forEachLine]. rewrite translateLine_kind, Hkind. reflexivity.
Qed.

Lemma translateLine_copied (translateComments translateLinkText log : bool)
      (run : Run.t) (line : string) :
  copied env COMMENT translateComments translateLinkText line = true ->
  translateLine env COMMENT translateText translateComments translateLinkText log run line =
    (emit log run (JS.trim line) (JS.trim line), None).
Proof.
  unfold copied, translated. rewrite translateLine_kind.
  destruct (kindOf env COMMENT line); try reflexivity; try discriminate.
  - destruct translateComments; [discriminate|reflexivity].
  - destruct translateLinkText; [discriminate|reflexivity].
Qed.

Lemma forEachLine_copied (translateComments translateLinkText log : bool)
      (lines : list string) :
  forall run : Run.t,
    Forall (fun line => copied env COMMENT translateComments translateLinkText line = true)
           lines ->
    forEachLine env COMMENT translateText translateComments translateLinkText log run lines =
      (Run.mk (Run.localizedContent run ++ concatLines JSText.NEWLINE lines)
              (Run.requests run)
              (if log
               then (Run.written run ++ map (fun line => (JS.trim line ++ JSText.NL)%string) lines)%list
               else Run.written run),
       None).
Proof.
  induction lines as [|line lines IH]; intros run Hall; cbn [forEachLine concatLines map].
  - rewrite append_empty_r, app_nil_r. destruct run, log; reflexivity.
  - inversion Hall as [|? ? Hline Hrest]; subst.
    rewrite (translateLine_copied _ _ log run line Hline), (IH _ Hrest).
    unfold emit. cbn [Run.localizedContent Run.requests Run.written].
    rewrite !append_assoc.
    destruct log; [rewrite <- app_assoc|]; reflexivity.
Qed.

(** X20. When no line of the file has a text to translate (no variation
    line, no comment line unless comments are kept, no file reference line
    unless link texts are kept) and no line is invalid, [translateFile]
    sends nothing to the service and returns the trimmed lines, each
    followed by a carriage return and a line feed; with [log] set it
    writes each trimmed line and a line feed to the console. *)
Theorem untranslated_file_is_copied :
  forall (inputFileContent : string) (translateComments translateLinkText log : bool),
    Forall (fun line => copied env COMMENT translateComments translateLinkText line = true)
           (JSText.splitNewlines inputFileContent) ->
    translateFile env COMMENT translateText inputFileContent
                  translateComments translateLinkText log =
      (Run.mk (concatLines JSText.NEWLINE (JSText.splitNewlines inputFileContent))
              []
              (if log
               then map (fun line => JS.trim line ++ JSText.NL)
                        (JSText.splitNewlines inputFileContent)
               else []),
       None).
Proof.
  intros content tc tl log Hall. unfold translateFile.
  rewrite (forEachLine_copied tc tl log _ Run.start Hall). reflexivity.
Qed.

Lemma translateLine_requests (translateComments translateLinkText log : bool)
      (run run' : Run.t) (line : string) :
  translateLine env COMMENT translateText translateComments translateLinkText log run line =
    (run', None) ->
  Run.requests run' =
    (Run.requests run ++
     (if translated env COMMENT translateComments translateLinkText line
      then [requestOf env COMMENT line] else []))%list.
Proof.
  rewrite translateLine_kind. unfold translated, requestOf, linkTextOf.
  destruct (kindOf env COMMENT line);
    try (intros H; inversion H; cbn [emit Run.requests]; rewrite app_nil_r; reflexivity).
  - destruct translateComments.
    + destruct (translateText _ _); intros H; inversion H. reflexivity.
    + intros H; inversion H. cbn [emit Run.requests]. rewrite app_nil_r. reflexivity.
  - destruct translateLinkText.
    + destruct (JS.firstParenMatch _); [|discriminate].
      destruct (JSText.firstBracketMatch _); [|discriminate].
      cbn zeta. destruct (translateText _ _); intros H; inversion H. reflexivity.
    + intros H; inversion H. cbn [emit Run.requests]. rewrite app_nil_r. reflexivity.
  - cbn zeta. destruct (translateText _ _); intros H; inversion H. reflexivity.
Qed.

Lemma forEachLine_requests (translateComments translateLinkText log : bool)
      (lines : list string) :
  forall run run' : Run.t,
    forEachLine env COMMENT translateText translateComments translateLinkText log run lines =
      (run', None) ->
    Run.requests run' =
      (Run.requests run ++
       map (requestOf env COMMENT)
           (filter (translated env COMMENT translateComments translateLinkText) lines))%list.
Proof.
  induction lines as [|line lines IH]; intros run run'; cbn [forEachLine filter map].
  - intros H; inversion H. rewrite app_nil_r. reflexivity.
  - destruct (translateLine _ _ _ _ _ _ run line) as [run1 [e|]] eqn:E; [discriminate|].
    intros Hrest. rewrite (IH _ _ Hrest), (translateLine_requests _ _ _ _ _ _ E).
    destruct (translated _ _ _ _ line); cbn [map].
    + rewrite <- app_assoc. reflexivity.
    + rewrite app_nil_r. reflexivity.
Qed.

(** X21. A run of [translateFile] that returns has sent to the service,
    in the order of the lines, one text for each variation line (the line
    without its list marker), for each comment line when comments are
    translated (the trimmed line) and for each file reference line when
    link texts are translated (the text between the brackets), and
    nothing else: no template, entity, condition, default or empty line
    is sent. *)
Theorem requests_of_a_translation :
  forall (inputFileContent : string) (translateComments translateLinkText log : bool)
         (run : Run.t),
    translateFile env COMMENT translateText inputFileContent
                  translateComments translateLinkText log = (run, None) ->
    Run.requests run =
      map (requestOf env COMMENT)
          (filter (translated env COMMENT translateComments translateLinkText)
                  (JSText.splitNewlines inputFileContent)).
Proof.
  intros content tc tl log run Hrun. unfold translateFile in Hrun.
  apply (forEachLine_requests tc tl log _ Run.start run Hrun).
Qed.

(** X22. A file reference line is copied as it is when link texts are not
    translated, whatever follows its marker; when they are translated, a
    line without a parenthesised part or without a bracketed part throws
    a [TypeError] before anything is sent to the service. *)
Theorem file_reference_line_translation :
  forall (translateComments log : bool) (run : Run.t) (line : string),
    kindOf env COMMENT line = FileRefLine ->
    translateLine env COMMENT translateText translateComments false log run line =
      (emit log run (JS.trim line) (JS.trim line), None) /\
    (JS.firstParenMatch (JS.trim line) = None \/
     JSText.firstBracketMatch (JS.trim line) = None ->
     translateLine env COMMENT translateText translateComments true log run line =
       (run, Some ThrownTypeError)).
Proof.
  intros tc log run line Hkind. rewrite !translateLine_kind, Hkind.
  split; [reflexivity|].
  intros [H|H]; rewrite H; [reflexivity|].
  destruct (JS.firstParenMatch (JS.trim line)); reflexivity.
Qed.

End TranslateFileProperties.

(** ** Runs of the parser with the sample collaborators *)

(** C1. The test that pushes the template of a chunk reads [pushAtEnd]
    as the last condition line has left it, so the template is not pushed
    exactly when it was created by the chunk.  A chunk that creates the
    template [T] and repeats a condition text leaves no entry for [T];
    a chunk that declares [T] again and brings a new condition text
    leaves two entries named [T]. *)
Theorem template_push_reads_last_condition_line :
  toLG Sample.env
       (JSArray ["# T" ++ Sample.nl ++ "- IF: a" ++ Sample.nl ++ "- x" ++ Sample.nl ++
                 "- IF: a" ++ Sample.nl ++ "- y"]) =
    Returns (LGParsedObj.mk (Some (LGObject.mk [] [])) []) /\
  toLG Sample.env
       (JSArray ["# T" ++ Sample.nl ++ "- x";
                 "# T" ++ Sample.nl ++ "- IF: b" ++ Sample.nl ++ "- y"]) =
    Returns (LGParsedObj.mk
               (Some (LGObject.mk
                        [LGTemplate.mk "T" ["x"] [LGConditionalResponse.mk "b" ["y"]];
                         LGTemplate.mk "T" ["x"] [LGConditionalResponse.mk "b" ["y"]]]
                        []))
               []).
Proof. split; vm_compute; reflexivity. Qed.

(** C2. Two template chunks with the same name do not always give one
    template with the variations of both.  When the second chunk brings a
    condition text that is new to the template, the result has two
    entries of that name; when the first chunk ends on a condition text
    it has met before, the template of the first chunk is no entry of
    the result, the second chunk creates a template of its own and the
    variations of the first chunk are lost.  Both come from the test of
    line 164, which reads [pushAtEnd] as the last condition line has left
    it. *)
Theorem same_name_chunks_with_condition_lines :
  toLG Sample.env
       (JSArray ["# T" ++ Sample.nl ++ "- x";
                 "# T" ++ Sample.nl ++ "- y" ++ Sample.nl ++
                 "- IF: b" ++ Sample.nl ++ "- w"]) =
    Returns (LGParsedObj.mk
               (Some (LGObject.mk
                        [LGTemplate.mk "T" ["x"; "y"] [LGConditionalResponse.mk "b" ["w"]];
                         LGTemplate.mk "T" ["x"; "y"] [LGConditionalResponse.mk "b" ["w"]]]
                        []))
               []) /\
  toLG Sample.env
       (JSArray ["# T" ++ Sample.nl ++ "- q" ++ Sample.nl ++
                 "- IF: a" ++ Sample.nl ++ "- x" ++ Sample.nl ++
                 "- IF: a" ++ Sample.nl ++ "- y";
                 "# T" ++ Sample.nl ++ "- z"]) =
    Returns (LGParsedObj.mk (Some (LGObject.mk [LGTemplate.mk "T" ["z"] []] [])) []).
Proof. split; vm_compute; reflexivity. Qed.

(** C3. In the result of a parse, condition lines with the same text do
    not always share one conditional response: the chunk of a new
    template whose last condition line repeats a condition text returns
    no template at all, so the conditional response that the line loop
    has built for that text is in no template of the result.  The same
    lines followed by a condition line with a new text give the template
    with one conditional response for each text, in the order in which
    the texts are first met.  The test of line 164 reads [pushAtEnd] as
    the last condition line has left it. *)
Theorem repeated_last_condition_returns_no_template :
  toLG Sample.env
       (JSArray ["# T" ++ Sample.nl ++ "- IF: a" ++ Sample.nl ++ "- x" ++ Sample.nl ++
                 "- IF: b" ++ Sample.nl ++ "- y" ++ Sample.nl ++
                 "- IF: a" ++ Sample.nl ++ "- x" ++ Sample.nl ++ "- z"]) =
    Returns (LGParsedObj.mk (Some (LGObject.mk [] [])) []) /\
  toLG Sample.env
       (JSArray ["# T" ++ Sample.nl ++ "- IF: a" ++ Sample.nl ++ "- x" ++ Sample.nl ++
                 "- IF: a" ++ Sample.nl ++ "- y" ++ Sample.nl ++
                 "- IF: b" ++ Sample.nl ++ "- z"]) =
    Returns (LGParsedObj.mk
               (Some (LGObject.mk
                        [LGTemplate.mk "T" []
                           [LGConditionalResponse.mk "a" ["x"; "y"];
                            LGConditionalResponse.mk "b" ["z"]]]
                        []))
               []).
Proof. split; vm_compute; reflexivity. Qed.

(** C4. On a line with text after its last link reference,
    [removeTemplateLinkReferences] returns the line up to the closing
    bracket of that reference: the text after it is lost, where replacing
    every [](...)] by []] keeps it. *)
Theorem removeTemplateLinkReferences_drops_text_after_last_link :
  removeTemplateLinkReferences "- hi [name](file.lg) there" = "- hi [name]" /\
  collapseLinkReferences "- hi [name](file.lg) there" = "- hi [name] there" /\
  removeTemplateLinkReferences "- see [a](b) and [c](d) now" = "- see [a] and [c]".
Proof. repeat split; vm_compute; reflexivity. Qed.

(** C7. A file reference chunk with a link target adds the target to the
    files to parse, one with empty parentheses throws an [Exception] of
    code [INVALID_LG_FILE_REF], and one without parentheses throws the
    [TypeError] of reading an element of [null], which carries no code. *)
Theorem file_reference_without_parentheses_throws_TypeError :
  toLG Sample.env (JSArray ["[ref](other.lg)"]) =
    Returns (LGParsedObj.mk (Some (LGObject.mk [] [])) ["other.lg"]) /\
  toLG Sample.env (JSArray ["[ref]()"]) =
    Throws (ThrownException INVALID_LG_FILE_REF "[ERROR]: Invalid LU File Ref: [ref]()") /\
  toLG Sample.env (JSArray ["[ref]"]) = Throws ThrownTypeError /\
  structured ThrownTypeError = None.
Proof. repeat split; vm_compute; reflexivity. Qed.

(** ** The theorems at concrete inputs *)

Lemma toLG_without_chunks_witness :
  toLG Sample.env JSNull = Returns LGParsedObj.new.
Proof.
  exact (proj1 (toLG_without_chunks Sample.env JSNull (or_introl eq_refl))).
Defined.

Lemma unrecognized_chunk_throws_witness :
  toLG Sample.env (JSArray ["what is this"]) =
    Throws (ThrownException INVALID_INPUT (invalidInputText "what is this")).
Proof.
  assert (H : toLG Sample.env (JSArray ([] ++ "what is this" :: [])) =
              Throws (ThrownException INVALID_INPUT
                        (invalidInputText (JS.trim "what is this")))).
  { apply (unrecognized_chunk_throws Sample.env [] [] initialState "what is this").
    - reflexivity.
    - vm_compute; reflexivity.
    - vm_compute; reflexivity.
    - vm_compute; reflexivity. }
  exact H.
Defined.


Lemma empty_template_throws_witness :
  processChunk Sample.env initialState "# T" =
    Throws (ThrownException INVALID_TEMPLATE (invalidTemplateText "T")).
Proof.
  assert (Ht : isTemplateChunk Sample.env "# T" = true) by (vm_compute; reflexivity).
  assert (Hs : selectTemplate Sample.env initialState (templateNameOf "# T") =
               Returns ([LGTemplate.new "T"], 0, true)) by (vm_compute; reflexivity).
  assert (Hp : processLines Sample.env
                 (startOfBody Sample.env initialState ([LGTemplate.new "T"], 0, true))
                 (bodyOf "# T") =
               Returns (startOfBody Sample.env initialState ([LGTemplate.new "T"], 0, true)))
    by (vm_compute; reflexivity).
  assert (Hf : flushItem Sample.env
                 (startOfBody Sample.env initialState ([LGTemplate.new "T"], 0, true)) =
               Returns (LGTemplate.new "T")) by (vm_compute; reflexivity).
  destruct (empty_template_throws Sample.env initialState "# T" _ _ _ Ht Hs Hp Hf)
    as [_ [Hthrow _]].
  apply Hthrow. split; reflexivity.
Defined.

Lemma sample_variationLine (line : string) :
  line = "- x" \/ line = "- y" \/ line = "- z" ->
  isVariationLine Sample.env line = true /\ variationChecked Sample.env line.
Proof.
  intros [-> | [-> | ->]]; (split; [vm_compute; reflexivity|]);
    exists true; vm_compute; reflexivity.
Defined.

Lemma sample_flatChunk_x : flatChunk Sample.env "T" ("# T" ++ Sample.nl ++ "- x").
Proof.
  split; [vm_compute; reflexivity|]. split; [vm_compute; reflexivity|].
  replace (bodyOf ("# T" ++ Sample.nl ++ "- x")) with ["- x"] by (vm_compute; reflexivity).
  exact (Forall_cons _ (sample_variationLine _ (or_introl eq_refl)) (Forall_nil _)).
Defined.

Lemma sample_flatChunk_xz :
  flatChunk Sample.env "T" ("# T" ++ Sample.nl ++ "- x" ++ Sample.nl ++ "- z").
Proof.
  split; [vm_compute; reflexivity|]. split; [vm_compute; reflexivity|].
  replace (bodyOf ("# T" ++ Sample.nl ++ "- x" ++ Sample.nl ++ "- z"))
    with ["- x"; "- z"] by (vm_compute; reflexivity).
  exact (Forall_cons _ (sample_variationLine _ (or_introl eq_refl))
           (Forall_cons _ (sample_variationLine _ (or_intror (or_intror eq_refl)))
              (Forall_nil _))).
Defined.

Lemma sample_otherChunk (chunk : string) :
  chunk = "$ person : builtin" \/ chunk = "[ref](other.lg)" \/
  chunk = "# U" ++ Sample.nl ++ "- y" ->
  otherChunk Sample.env "T" chunk.
Proof.
  intros [-> | [-> | ->]] H; vm_compute in H |- *; discriminate.
Defined.

Lemma same_name_chunks_merge_witness :
  (exists res obj,
      toLG Sample.env
           (JSArray ["# T" ++ Sample.nl ++ "- x";
                     "# T" ++ Sample.nl ++ "- x" ++ Sample.nl ++ "- z"]) = Returns res /\
      LGParsedObj.LGObject res = Some obj /\
      LGObject.LGTemplates obj = [LGTemplate.mk "T" ["x"; "z"] []]) /\
  (exists obj,
      LGParsedObj.LGObject
        (LGParsedObj.mk
           (Some (LGObject.mk [LGTemplate.mk "T" ["x"; "z"] []; LGTemplate.mk "U" ["y"] []]
                              [LGEntity.mk "person" "builtin" []]))
           ["other.lg"]) = Some obj /\
      filter (fun tpl => String.eqb (LGTemplate.name tpl) "T") (LGObject.LGTemplates obj) =
        [LGTemplate.mk "T" ["x"; "z"] []]).
Proof.
  pose proof (same_name_chunks_merge Sample.env
                ("# T" ++ Sample.nl ++ "- x")
                ("# T" ++ Sample.nl ++ "- x" ++ Sample.nl ++ "- z") "T"
                sample_flatChunk_x sample_flatChunk_xz
                ltac:(discriminate)) as [_ [_ [Hany Hend]]].
  assert (Hpayloads1 : acceptedPayloads Sample.env (bodyOf ("# T" ++ Sample.nl ++ "- x")) =
                       ["x"]) by (vm_compute; reflexivity).
  assert (Hpayloads2 : acceptedPayloads Sample.env
                         (bodyOf ("# T" ++ Sample.nl ++ "- x" ++ Sample.nl ++ "- z")) =
                       ["x"; "z"]) by (vm_compute; reflexivity).
  rewrite Hpayloads1, Hpayloads2 in Hany, Hend.
  change (pushNew [] (["x"] ++ ["x"; "z"])%list) with ["x"; "z"] in Hany, Hend.
  split.
  - assert (Hne : ["x"] <> (@nil string)) by discriminate.
    destruct (Hend [] initialState eq_refl eq_refl eq_refl Hne)
      as [res [obj [Hrun [Hobj [Htpl _]]]]].
    exists res, obj. split; [exact Hrun|]. split; [exact Hobj|]. exact Htpl.
  - assert (Hrun : toLG Sample.env
                     (JSArray (["$ person : builtin"] ++
                               ("# T" ++ Sample.nl ++ "- x") ::
                               ["[ref](other.lg)"] ++
                               ("# T" ++ Sample.nl ++ "- x" ++ Sample.nl ++ "- z") ::
                               ["# U" ++ Sample.nl ++ "- y"])) =
                   Returns
                     (LGParsedObj.mk
                        (Some (LGObject.mk
                                 [LGTemplate.mk "T" ["x"; "z"] []; LGTemplate.mk "U" ["y"] []]
                                 [LGEntity.mk "person" "builtin" []]))
                        ["other.lg"]))
      by (vm_compute; reflexivity).
    exact (Hany ["$ person : builtin"] ["[ref](other.lg)"] ["# U" ++ Sample.nl ++ "- y"]
             _
             (Forall_cons _ (sample_otherChunk _ (or_introl eq_refl))
                (Forall_cons _ (sample_otherChunk _ (or_intror (or_introl eq_refl)))
                   (Forall_cons _ (sample_otherChunk _ (or_intror (or_intror eq_refl)))
                      (Forall_nil _))))
             Hrun).
Defined.

Lemma sample_conditionLine (line : string) :
  line = "- IF: a" \/ line = "- IF: b" ->
  isConditionLine Sample.env line = true /\
  validateCondition (validators Sample.env) (conditionOf Sample.env line) true = Returns tt.
Proof.
  intros [-> | ->]; split; vm_compute; reflexivity.
Defined.

Lemma sample_wellFormedSection (condition : string) (variations : list string) :
  (condition = "- IF: a" \/ condition = "- IF: b") ->
  Forall (fun l => l = "- x" \/ l = "- y" \/ l = "- z") variations ->
  wellFormedSection Sample.env (condition, variations).
Proof.
  intros Hc Hv. destruct (sample_conditionLine condition Hc) as [H1 H2].
  split; [exact H1|]. split; [exact H2|].
  cbn [snd]. induction Hv as [|l ls Hl _ IH]; constructor.
  - apply sample_variationLine. exact Hl.
  - exact IH.
Defined.

Lemma condition_lines_merge_witness :
  exists bs tpl,
    processLines Sample.env
      (startOfBody Sample.env initialState ([LGTemplate.new "T"], 0, true))
      (linesOf [("- IF: a", ["- x"]); ("- IF: b", ["- y"]); ("- IF: a", ["- x"; "- z"])]) =
      Returns bs /\
    flushItem Sample.env bs = Returns tpl /\
    map LGConditionalResponse.condition (LGTemplate.conditionalResponses tpl) =
      pushNew [] (map (fun s => conditionOf Sample.env (fst s))
                      [("- IF: a", ["- x"]); ("- IF: b", ["- y"]); ("- IF: a", ["- x"; "- z"])]) /\
    pushNew [] (map (fun s => conditionOf Sample.env (fst s))
                    [("- IF: a", ["- x"]); ("- IF: b", ["- y"]); ("- IF: a", ["- x"; "- z"])]) =
      ["a"; "b"] /\
    pushNew [] (variationsUnder Sample.env "a"
                  [("- IF: a", ["- x"]); ("- IF: b", ["- y"]); ("- IF: a", ["- x"; "- z"])]) =
      ["x"; "z"] /\
    forall b, In b (LGTemplate.conditionalResponses tpl) ->
              LGConditionalResponse.variations b =
                pushNew []
                  (variationsUnder Sample.env (LGConditionalResponse.condition b)
                     [("- IF: a", ["- x"]); ("- IF: b", ["- y"]); ("- IF: a", ["- x"; "- z"])]).
Proof.
  destruct (condition_lines_merge Sample.env
              (startOfBody Sample.env initialState ([LGTemplate.new "T"], 0, true))
              [("- IF: a", ["- x"]); ("- IF: b", ["- y"]); ("- IF: a", ["- x"; "- z"])]
              eq_refl eq_refl eq_refl
              (Forall_cons _
                 (sample_wellFormedSection "- IF: a" ["- x"] (or_introl eq_refl)
                    (Forall_cons _ (or_introl eq_refl) (Forall_nil _)))
                 (Forall_cons _
                    (sample_wellFormedSection "- IF: b" ["- y"] (or_intror eq_refl)
                       (Forall_cons _ (or_intror (or_introl eq_refl)) (Forall_nil _)))
                    (Forall_cons _
                       (sample_wellFormedSection "- IF: a" ["- x"; "- z"] (or_introl eq_refl)
                          (Forall_cons _ (or_introl eq_refl)
                             (Forall_cons _ (or_intror (or_intror eq_refl)) (Forall_nil _))))
                       (Forall_nil _)))))
    as [bs [tpl [Hrun [Hflush [_ [_ [Hconds Hvars]]]]]]].
  exists bs, tpl. split; [exact Hrun|]. split; [exact Hflush|]. split; [exact Hconds|].
  split; [vm_compute; reflexivity|]. split; [vm_compute; reflexivity|].
  exact Hvars.
Defined.

Lemma entity_redeclaration_witness :
  exists res obj e,
    toLG Sample.env (JSArray ["$ person : builtin"; "$ person : custom"]) = Returns res /\
    LGParsedObj.LGObject res = Some obj /\
    entitiesNamed Sample.env "person" (LGObject.entities obj) = [e] /\
    LGEntity.name e = "person" /\
    LGEntity.entityType e = "custom".
Proof.
  assert (Hrun : forEachChunk Sample.env initialState ([] ++ "$ person : builtin" :: []) =
                 Returns (Build_ParserState Sample.env [] []
                            [LGEntity.mk "person" "builtin" []] []))
    by (vm_compute; reflexivity).
  exact (proj2 (entity_redeclaration Sample.env) eq_refl eq_refl eq_refl [] [] _
               "custom" Hrun eq_refl).
Defined.

(** *** What every parse returns, at the sample file *)

Lemma returned_templates_named_and_filled_witness :
  LGTemplate.name SampleRun.greet <> "" /\
  (LGTemplate.variations SampleRun.greet <> [] \/
   LGTemplate.conditionalResponses SampleRun.greet <> []).
Proof.
  assert (Hrun : toLG Sample.env (JSArray SampleRun.chunks) = Returns SampleRun.result)
    by (vm_compute; reflexivity).
  exact (returned_templates_named_and_filled Sample.env _ _ SampleRun.object SampleRun.greet
           Hrun eq_refl (or_introl eq_refl)).
Defined.

Lemma returned_conditions_distinct_witness :
  NoDup (map LGConditionalResponse.condition
             (LGTemplate.conditionalResponses SampleRun.greet)).
Proof.
  assert (Hrun : toLG Sample.env (JSArray SampleRun.chunks) = Returns SampleRun.result)
    by (vm_compute; reflexivity).
  exact (returned_conditions_distinct Sample.env _ _ SampleRun.object SampleRun.greet
           Hrun eq_refl (or_introl eq_refl)).
Defined.

Lemma returned_variations_distinct_witness :
  NoDup (LGTemplate.variations SampleRun.greet) /\
  forall b, In b (LGTemplate.conditionalResponses SampleRun.greet) ->
            NoDup (LGConditionalResponse.variations b).
Proof.
  assert (Hrun : toLG Sample.env (JSArray SampleRun.chunks) = Returns SampleRun.result)
    by (vm_compute; reflexivity).
  exact (returned_variations_distinct Sample.env _ _ SampleRun.object SampleRun.greet
           Hrun eq_refl (or_introl eq_refl)).
Defined.

Lemma returned_entities_distinct_witness :
  NoDup (map LGEntity.name (LGObject.entities SampleRun.object)).
Proof.
  assert (Hrun : toLG Sample.env (JSArray SampleRun.chunks) = Returns SampleRun.result)
    by (vm_compute; reflexivity).
  exact (returned_entities_distinct Sample.env _ _ SampleRun.object Hrun eq_refl).
Defined.

Lemma returned_files_follow_chunks_witness :
  LGParsedObj.additionalFilesToParse SampleRun.result =
    map linkValueOf (filter (isFileRefChunk Sample.env) SampleRun.chunks) /\
  Forall (fun f => f <> "") (LGParsedObj.additionalFilesToParse SampleRun.result).
Proof.
  assert (Hrun : toLG Sample.env (JSArray SampleRun.chunks) = Returns SampleRun.result)
    by (vm_compute; reflexivity).
  exact (returned_files_follow_chunks Sample.env SampleRun.chunks SampleRun.result Hrun).
Defined.

Lemma file_reference_target_witness :
  processChunk Sample.env initialState "[more](./more.lg)" =
    if String.eqb "./more.lg" "" then
      Throws (ThrownException INVALID_LG_FILE_REF
                ("[ERROR]: " ++ "Invalid LU File Ref: " ++
                 nth 0 (JS.splitLines (JS.trim "[more](./more.lg)")) ""))
    else Returns {| heap := heap (@initialState Sample.env);
                    LGTemplates := LGTemplates (@initialState Sample.env);
                    entities := entities (@initialState Sample.env);
                    additionalFilesToParse :=
                      (additionalFilesToParse (@initialState Sample.env) ++
                       ["./more.lg"])%list |}.
Proof.
  assert (H1 : isFileRefChunk Sample.env "[more](./more.lg)" = true)
    by (vm_compute; reflexivity).
  assert (H2 : JS.trim (nth 0 (JS.splitLines (JS.trim "[more](./more.lg)")) "") =
               "[more]" ++ "(" ++ "./more.lg" ++ ")" ++ "")
    by (vm_compute; reflexivity).
  assert (H3 : countChar "(" "[more]" = 0) by (vm_compute; reflexivity).
  assert (H4 : countChar ")" "./more.lg" = 0) by (vm_compute; reflexivity).
  assert (H5 : onOneLine "./more.lg" = true) by (vm_compute; reflexivity).
  exact (file_reference_target Sample.env initialState "[more](./more.lg)"
           "[more]" "./more.lg" "" H1 H2 H3 H4 H5).
Defined.

Lemma variations_frozen_after_branch_line_witness :
  exists bs1,
    processLines Sample.env SampleRun.bodyStart ["- hi"] = Returns bs1 /\
    LGTemplate.variations
      (LGTemplate.mk "greet" ["hi"] [LGConditionalResponse.mk "morning" ["good morning"]]) =
    LGTemplate.variations (cLGTemplate bs1).
Proof.
  assert (H1 : isBranchLine Sample.env "- IF: morning" = true) by (vm_compute; reflexivity).
  assert (H2 : processLines Sample.env SampleRun.bodyStart
                 (["- hi"] ++ "- IF: morning" :: ["- good morning"]) =
               Returns SampleRun.bodyEnd)
    by (vm_compute; reflexivity).
  assert (H3 : flushItem Sample.env SampleRun.bodyEnd =
               Returns (LGTemplate.mk "greet" ["hi"]
                          [LGConditionalResponse.mk "morning" ["good morning"]]))
    by (vm_compute; reflexivity).
  exact (variations_frozen_after_branch_line Sample.env SampleRun.bodyStart SampleRun.bodyEnd
           ["- hi"] ["- good morning"] "- IF: morning" _ H1 H2 H3).
Defined.

Lemma mentioned_entities_returned_witness :
  In "person" (map LGEntity.name (LGObject.entities SampleRun.object)).
Proof.
  assert (Hrun : toLG Sample.env (JSArray SampleRun.chunks) = Returns SampleRun.result)
    by (vm_compute; reflexivity).
  assert (Ht : isTemplateChunk Sample.env SampleRun.greetChunk = true)
    by (vm_compute; reflexivity).
  assert (Hb : bodyOf SampleRun.greetChunk =
               ["- hi"; "- IF: morning"; "- good morning {person}"])
    by (vm_compute; reflexivity).
  assert (Hl : In "- good morning {person}" (bodyOf SampleRun.greetChunk))
    by (rewrite Hb; right; right; left; reflexivity).
  assert (Hp : parseEntity Sample.env
                 (removeTemplateLinkReferences "- good morning {person}") = ["person"])
    by (vm_compute; reflexivity).
  assert (Hn : In "person" (parseEntity Sample.env
                              (removeTemplateLinkReferences "- good morning {person}")))
    by (rewrite Hp; left; reflexivity).
  exact (mentioned_entities_returned Sample.env SampleRun.chunks SampleRun.result
           SampleRun.object SampleRun.greetChunk "- good morning {person}" "person"
           Hrun eq_refl (or_introl eq_refl) Ht Hl Hn).
Defined.

Lemma defined_entities_returned_witness :
  In (entityNameOf Sample.env "$ person : builtin")
     (map LGEntity.name (LGObject.entities SampleRun.object)).
Proof.
  assert (Hrun : toLG Sample.env (JSArray SampleRun.chunks) = Returns SampleRun.result)
    by (vm_compute; reflexivity).
  assert (Hk : isEntityChunk Sample.env "$ person : builtin" = true)
    by (vm_compute; reflexivity).
  exact (defined_entities_returned Sample.env SampleRun.chunks SampleRun.result
           SampleRun.object "$ person : builtin"
           Hrun eq_refl (or_intror (or_introl eq_refl)) Hk).
Defined.

Lemma later_chunks_keep_order_witness :
  (exists extra,
      map LGTemplate.name (LGObject.LGTemplates SampleRun.object) =
        (map LGTemplate.name (LGObject.LGTemplates SampleRun.objectAfterGreet) ++
         extra)%list) /\
  (exists extra,
      map LGEntity.name (LGObject.entities SampleRun.object) =
        (map LGEntity.name (LGObject.entities SampleRun.objectAfterGreet) ++
         extra)%list).
Proof.
  assert (Hpre : toLG Sample.env (JSArray [SampleRun.greetChunk]) =
                 Returns (LGParsedObj.mk (Some SampleRun.objectAfterGreet) []))
    by (vm_compute; reflexivity).
  assert (Hrun : toLG Sample.env
                   (JSArray ([SampleRun.greetChunk] ++
                             ["$ person : builtin"; "[more](./more.lg)"])) =
                 Returns SampleRun.result)
    by (vm_compute; reflexivity).
  exact (later_chunks_keep_order Sample.env [SampleRun.greetChunk]
           ["$ person : builtin"; "[more](./more.lg)"]
           (LGParsedObj.mk (Some SampleRun.objectAfterGreet) []) SampleRun.result
           SampleRun.objectAfterGreet SampleRun.object Hpre eq_refl Hrun eq_refl).
Defined.

Lemma entity_definition_colons_witness :
  processChunk Sample.env initialState "$ person : builtin" =
    Returns {| heap := heap (@initialState Sample.env);
               LGTemplates := LGTemplates (@initialState Sample.env);
               entities :=
                 (entities (@initialState Sample.env) ++
                  [LGEntity.mk (entityNameOf Sample.env "$ person : builtin")
                     (entityTypeOfArgument Sample.env
                        (Some (entityTypeOf Sample.env "$ person : builtin")))
                     (entityAttributesOf Sample.env "$ person : builtin")])%list;
               additionalFilesToParse := additionalFilesToParse (@initialState Sample.env) |}.
Proof.
  assert (Hk : isEntityChunk Sample.env "$ person : builtin" = true)
    by (vm_compute; reflexivity).
  assert (Hc : countChar ":" (JS.replace (ENTITY (parserConsts Sample.env)) ""
                                (nth 0 (JS.splitLines (JS.trim "$ person : builtin")) "")) = 1)
    by (vm_compute; reflexivity).
  assert (Hnew : hasEntity Sample.env (entityNameOf Sample.env "$ person : builtin")
                           (entities (@initialState Sample.env)) = false)
    by (vm_compute; reflexivity).
  exact (proj2 (entity_definition_colons Sample.env initialState "$ person : builtin" Hk)
               Hc Hnew).
Defined.

Lemma line_without_link_reference_unchanged_witness :
  removeTemplateLinkReferences "- hi [there] (you)" = "- hi [there] (you)".
Proof.
  assert (H : JS.indexOf "](" "- hi [there] (you)" = (-1)%Z) by (vm_compute; reflexivity).
  exact (line_without_link_reference_unchanged "- hi [there] (you)" H).
Defined.

Lemma thrown_values_of_a_parse_witness :
  exists pre chunk post st,
    JSArray ["hello"] = JSArray (pre ++ chunk :: post) /\
    forEachChunk Sample.env initialState pre = Returns st /\
    processChunk Sample.env st chunk =
      Throws (ThrownException INVALID_INPUT (invalidInputText "hello")) /\
    chunkError Sample.env chunk
      (ThrownException INVALID_INPUT (invalidInputText "hello")).
Proof.
  assert (Hrun : toLG Sample.env (JSArray ["hello"]) =
                 Throws (ThrownException INVALID_INPUT (invalidInputText "hello")))
    by (vm_compute; reflexivity).
  exact (thrown_values_of_a_parse Sample.env (JSArray ["hello"]) _ Hrun).
Defined.

(** *** [fromJSON] and [translateFile] at sample inputs *)

Lemma fromJSON_properties_truthy_witness :
  Json.truthy (LGObjectInstance.LGTemplates
                 (LGObjectInstance.mk (Json.Array []) (Json.Str "e"))) = true /\
  Json.truthy (LGObjectInstance.entities
                 (LGObjectInstance.mk (Json.Array []) (Json.Str "e"))) = true.
Proof.
  assert (H : instancesOf
                (fromJSON (Json.Array [Json.Number 0;
                                       Json.Object [("LGTemplates", Json.Null);
                                                    ("entities", Json.Str "e")]])) =
              [LGObjectInstance.mk (Json.Array []) (Json.Str "e")])
    by (vm_compute; reflexivity).
  assert (Hin : In (LGObjectInstance.mk (Json.Array []) (Json.Str "e"))
                   (instancesOf
                      (fromJSON (Json.Array [Json.Number 0;
                                             Json.Object [("LGTemplates", Json.Null);
                                                          ("entities", Json.Str "e")]]))))
    by (rewrite H; left; reflexivity).
  exact (fromJSON_properties_truthy _ _ Hin).
Defined.

Lemma invalid_line_throws_witness :
  translateFile Sample.env SampleRun.COMMENT SampleRun.echo
                ("# greet" ++ Sample.nl ++ "hello") false false false =
    (Run.mk ("# greet" ++ JSText.NEWLINE) [] [],
     Some (ThrownException INVALID_INPUT
             ("Invalid line detected: " ++ JS.dquote ++ JS.trim "hello" ++ JS.dquote))).
Proof.
  assert (H1 : JSText.splitNewlines ("# greet" ++ Sample.nl ++ "hello") =
               (["# greet"] ++ "hello" :: [])%list)
    by (vm_compute; reflexivity).
  assert (H2 : forEachLine Sample.env SampleRun.COMMENT SampleRun.echo false false false
                           Run.start ["# greet"] =
               (Run.mk ("# greet" ++ JSText.NEWLINE) [] [], None))
    by (vm_compute; reflexivity).
  assert (H3 : kindOf Sample.env SampleRun.COMMENT "hello" = InvalidLine)
    by (vm_compute; reflexivity).
  exact (invalid_line_throws Sample.env SampleRun.COMMENT SampleRun.echo
           ("# greet" ++ Sample.nl ++ "hello") ["# greet"] [] "hello"
           (Run.mk ("# greet" ++ JSText.NEWLINE) [] []) false false false H1 H2 H3).
Defined.

Lemma untranslated_file_is_copied_witness :
  translateFile Sample.env SampleRun.COMMENT SampleRun.echo
                ("# greet" ++ Sample.nl ++ "  - IF: morning") false false true =
    (Run.mk (concatLines JSText.NEWLINE
               (JSText.splitNewlines ("# greet" ++ Sample.nl ++ "  - IF: morning")))
            []
            (if true
             then map (fun line => JS.trim line ++ JSText.NL)
                      (JSText.splitNewlines ("# greet" ++ Sample.nl ++ "  - IF: morning"))
             else []),
     None).
Proof.
  assert (H1 : copied Sample.env SampleRun.COMMENT false false "# greet" = true)
    by (vm_compute; reflexivity).
  assert (H2 : copied Sample.env SampleRun.COMMENT false false "  - IF: morning" = true)
    by (vm_compute; reflexivity).
  assert (Hall : Forall (fun line => copied Sample.env SampleRun.COMMENT false false line = true)
                        (JSText.splitNewlines ("# greet" ++ Sample.nl ++ "  - IF: morning"))).
  { replace (JSText.splitNewlines ("# greet" ++ Sample.nl ++ "  - IF: morning"))
      with ["# greet"; "  - IF: morning"] by (vm_compute; reflexivity).
    exact (Forall_cons _ H1 (Forall_cons _ H2 (Forall_nil _))). }
  exact (untranslated_file_is_copied Sample.env SampleRun.COMMENT SampleRun.echo
           ("# greet" ++ Sample.nl ++ "  - IF: morning") false false true Hall).
Defined.

Lemma requests_of_a_translation_witness :
  Run.requests (Run.mk ("# greet" ++ JSText.NEWLINE ++ JSText.TAB ++ "- hi" ++ JSText.NEWLINE)
                       ["hi"] []) =
    map (requestOf Sample.env SampleRun.COMMENT)
        (filter (translated Sample.env SampleRun.COMMENT false false)
                (JSText.splitNewlines ("# greet" ++ Sample.nl ++ "  - hi"))).
Proof.
  assert (Hrun : translateFile Sample.env SampleRun.COMMENT SampleRun.echo
                   ("# greet" ++ Sample.nl ++ "  - hi") false false false =
                 (Run.mk ("# greet" ++ JSText.NEWLINE ++ JSText.TAB ++ "- hi" ++
                          JSText.NEWLINE) ["hi"] [], None))
    by (vm_compute; reflexivity).
  exact (requests_of_a_translation Sample.env SampleRun.COMMENT SampleRun.echo
           ("# greet" ++ Sample.nl ++ "  - hi") false false false _ Hrun).
Defined.

Lemma file_reference_line_translation_witness :
  translateLine Sample.env SampleRun.COMMENT SampleRun.echo false false false Run.start
                "[more]" =
    (emit false Run.start (JS.trim "[more]") (JS.trim "[more]"), None) /\
  (JS.firstParenMatch (JS.trim "[more]") = None \/
   JSText.firstBracketMatch (JS.trim "[more]") = None ->
   translateLine Sample.env SampleRun.COMMENT SampleRun.echo false true false Run.start
                 "[more]" =
     (Run.start, Some ThrownTypeError)).
Proof.
  assert (H : kindOf Sample.env SampleRun.COMMENT "[more]" = FileRefLine)
    by (vm_compute; reflexivity).
  exact (file_reference_line_translation Sample.env SampleRun.COMMENT SampleRun.echo
           false false Run.start "[more]" H).
Defined.

Lemma condition_sections_of_a_new_template_witness :
  exists res obj,
    toLG Sample.env
         (JSArray ([] ++ ["# T" ++ Sample.nl ++ "- IF: a" ++ Sample.nl ++ "- x" ++ Sample.nl ++
                          "- IF: a" ++ Sample.nl ++ "- y" ++ Sample.nl ++
                          "- IF: b" ++ Sample.nl ++ "- z"])) = Returns res /\
    LGParsedObj.LGObject res = Some obj /\
    LGObject.LGTemplates obj =
      [LGTemplate.mk "T" []
         [LGConditionalResponse.mk "a" ["x"; "y"]; LGConditionalResponse.mk "b" ["z"]]].
Proof.
  assert (Ht : isTemplateChunk Sample.env
                 ("# T" ++ Sample.nl ++ "- IF: a" ++ Sample.nl ++ "- x" ++ Sample.nl ++
                  "- IF: a" ++ Sample.nl ++ "- y" ++ Sample.nl ++
                  "- IF: b" ++ Sample.nl ++ "- z") = true)
    by (vm_compute; reflexivity).
  assert (Hname : templateNameOf
                    ("# T" ++ Sample.nl ++ "- IF: a" ++ Sample.nl ++ "- x" ++ Sample.nl ++
                     "- IF: a" ++ Sample.nl ++ "- y" ++ Sample.nl ++
                     "- IF: b" ++ Sample.nl ++ "- z") = "T")
    by (vm_compute; reflexivity).
  assert (Hn : "T" <> "") by discriminate.
  assert (Hbody : bodyOf
                    ("# T" ++ Sample.nl ++ "- IF: a" ++ Sample.nl ++ "- x" ++ Sample.nl ++
                     "- IF: a" ++ Sample.nl ++ "- y" ++ Sample.nl ++
                     "- IF: b" ++ Sample.nl ++ "- z") =
                  linesOf ([("- IF: a", ["- x"]); ("- IF: a", ["- y"])] ++
                           [("- IF: b", ["- z"])]))
    by (vm_compute; reflexivity).
  assert (Hall : Forall (wellFormedSection Sample.env)
                        ([("- IF: a", ["- x"]); ("- IF: a", ["- y"])] ++
                         [("- IF: b", ["- z"])])).
  { exact (Forall_cons _
             (sample_wellFormedSection "- IF: a" ["- x"] (or_introl eq_refl)
                (Forall_cons _ (or_introl eq_refl) (Forall_nil _)))
             (Forall_cons _
                (sample_wellFormedSection "- IF: a" ["- y"] (or_introl eq_refl)
                   (Forall_cons _ (or_intror (or_introl eq_refl)) (Forall_nil _)))
                (Forall_cons _
                   (sample_wellFormedSection "- IF: b" ["- z"] (or_intror eq_refl)
                      (Forall_cons _ (or_intror (or_intror eq_refl)) (Forall_nil _)))
                   (Forall_nil _)))). }
  destruct (condition_sections_of_a_new_template Sample.env [] initialState
              _ "T" [("- IF: a", ["- x"]); ("- IF: a", ["- y"])]
              ("- IF: b", ["- z"])
              eq_refl eq_refl Ht Hname Hn eq_refl Hbody Hall)
    as [_ [_ [res [obj [Hrun [Hobj Htpl]]]]]].
  exists res, obj. split; [exact Hrun|]. split; [exact Hobj|].
  rewrite Htpl. vm_compute. reflexivity.
Defined.
